(** * AquaNav: celestial sight reduction and position fixing

    A shallow embedding of [starfix_simple.py] (the sight-reduction core
    of the AquaNav application) together with the properties of it that
    the design document states.

    Numbers.  Python [float]s are read as real numbers ([R] of the
    Standard Library): rounding, signed zeros, infinities and NaN are not
    part of this model, and an equation between numbers is one of exact
    arithmetic, which the program meets up to rounding.  Where rounding
    changes more than the last digits, the statements are worded for the
    program as it runs:
    - the remainder [x % 360] of binary64 can be 360 itself, and
      [atan2] can return [-pi]: an interval that an hour angle or a
      longitude fills is closed at both ends;
    - the haversine term of [spherical_distance] can exceed 1 by one unit
      in the last place, and the square root of [1 - a] then raises
      [ValueError]; the sine of the altitude in
      [calculate_altitude_azimuth] likewise: what such a function returns
      is stated under the hypothesis that it returns;
    - two circles of position with one centre and one radius divide by
      zero in exact arithmetic; in binary64 they do so when the rounded
      scalar product of the unit vector with itself reaches 1, as for
      the example sights, and return two points otherwise.
    [calculate_gha], which calls no library function, and the last
    statements of [spherical_distance] are also run in binary64 itself,
    in the module [Binary64].

    Failure.  A Python exception is a value [Raise e] of the [result]
    type; every operation of the source that can raise (division by a
    computed divisor, [math.sqrt], [math.acos], list indexing, tuple
    unpacking, the explicit [raise] statements) is written as a
    computation in [result].  A division by a non-zero literal is the
    plain division of [R].

    Scope.  All of the module is embedded except [__repr__] and the
    [__str__] of [Sight]; the formatting of a float and of a date in
    [LatLon.__str__] and [calculate_position] is taken as given.  Of the
    callers, the star catalogue ([stars_database.py]) and the two entry
    points of [celestial_service.py] that work from given observations
    are embedded; the image pipeline and the JSON dispatch are not. *)

From Stdlib Require Import Reals Lra Lia ZArith List Ascii String Bool Zfloor.
From Stdlib Require Import Permutation Sorted.
From Stdlib Require SpecFloat.
From Equations Require Import Equations.
Import ListNotations.

Open Scope R_scope.

(* ===================================================================== *)
(** * The Python run-time the program relies on *)
(* ===================================================================== *)

Module Py.

(** Text of an exception: either a fixed string, or the prefix of an
    f-string followed by the number that is formatted into it. *)
Inductive message : Type :=
| Msg (s : string)
| MsgGot (s : string) (v : R).

Inductive exn : Type :=
| ValueError (m : message)
| ZeroDivisionError
| IndexError
| TypeError (m : message).

Inductive result (A : Type) : Type :=
| Ok (a : A)
| Raise (e : exn).

Arguments Ok {A} a.
Arguments Raise {A} e.

Definition bind {A B : Type} (c : result A) (k : A -> result B) : result B :=
  match c with
  | Ok a => k a
  | Raise e => Raise e
  end.

Definition is_ok {A : Type} (c : result A) : Prop :=
  exists a, c = Ok a.

Definition raises {A : Type} (c : result A) : Prop :=
  exists e, c = Raise e.

(** [x / y] with a divisor that is computed at run time. *)
Definition py_div (x y : R) : result R :=
  if Req_dec_T y 0 then Raise ZeroDivisionError else Ok (x / y).

(** [math.sqrt]: a negative argument is a domain error. *)
Definition py_sqrt (x : R) : result R :=
  if Rlt_dec x 0 then Raise (ValueError (Msg "math domain error"))
  else Ok (sqrt x).

(** [math.acos]: defined on [-1, 1]. *)
Definition py_acos (x : R) : result R :=
  if Rlt_dec x (-1) then Raise (ValueError (Msg "math domain error"))
  else if Rlt_dec 1 x then Raise (ValueError (Msg "math domain error"))
  else Ok (acos x).

(** [math.atan2 y x], the angle of the point [(x, y)]. *)
Definition atan2 (y x : R) : R :=
  if Rlt_dec 0 x then atan (y / x)
  else if Rlt_dec x 0 then
         if Rlt_dec y 0 then atan (y / x) - PI else atan (y / x) + PI
  else if Rlt_dec 0 y then PI / 2
  else if Rlt_dec y 0 then - (PI / 2)
  else 0.

Definition radians (x : R) : R := x * (PI / 180).
Definition degrees (x : R) : R := x * (180 / PI).

(** [x % y] on floats: the remainder has the sign of the divisor.  The
    program only uses it with the literal divisor 360. *)
Definition py_mod (x y : R) : R := x - IZR (Zfloor (x / y)) * y.

(** Two-argument [min] and [max]: the second argument is returned only
    when it is strictly smaller (resp. larger) than the first. *)
Definition py_min (a b : R) : R := if Rlt_dec b a then b else a.
Definition py_max (a b : R) : R := if Rlt_dec a b then b else a.

(** Comparisons used as conditions. *)
Definition Rltb (x y : R) : bool := if Rlt_dec x y then true else false.
Definition Rleb (x y : R) : bool := if Rle_dec x y then true else false.

(** [sum(...)] of a sequence of floats, accumulated from [0] leftwards. *)
Definition py_sum (l : list R) : R := fold_left Rplus l 0.

(** [l[i]] for a non-negative index. *)
Definition idx {A : Type} (l : list A) (i : nat) : result A :=
  match nth_error l i with
  | Some a => Ok a
  | None => Raise IndexError
  end.

(** [range(a, b)]. *)
Definition range (a b : nat) : list nat := seq a (b - a).

(** A list comprehension whose element expression can raise. *)
Fixpoint mapM {A B : Type} (f : A -> result B) (l : list A) : result (list B) :=
  match l with
  | [] => Ok []
  | a :: l' =>
      bind (f a) (fun b => bind (mapM f l') (fun bs => Ok (b :: bs)))
  end.

(** A [for] loop over [l] threading the loop state [s]. *)
Fixpoint forM {A S : Type} (l : list A) (body : A -> S -> result S) (s : S)
  : result S :=
  match l with
  | [] => Ok s
  | a :: l' => bind (body a s) (forM l' body)
  end.

End Py.

Export Py.

Declare Scope py_scope.
Delimit Scope py_scope with py.
Notation "x <- c ;; k" := (bind c (fun x => k))
  (at level 61, c at next level, right associativity) : py_scope.
Notation "' pat <- c ;; k" := (bind c (fun x => match x with pat => k end))
  (at level 61, pat pattern, c at next level, right associativity) : py_scope.
Open Scope py_scope.

(* ===================================================================== *)
(** * datetime (standard library) *)
(* ===================================================================== *)

Module Datetime.

Local Open Scope Z_scope.

(** A [datetime] value.  [tzinfo] is [None] for a naive value and, for an
    aware one, the offset of its time zone from UTC in microseconds. *)
Record datetime : Type := mkDatetime {
  year : Z; month : Z; day : Z;
  hour : Z; minute : Z; second : Z; microsecond : Z;
  tzinfo : option Z
}.

Definition is_leap (y : Z) : bool :=
  (y mod 4 =? 0) && (negb (y mod 100 =? 0) || (y mod 400 =? 0)).

(** Number of days before January 1st of year [y]. *)
Definition days_before_year (y : Z) : Z :=
  let y1 := y - 1 in y1 * 365 + y1 / 4 - y1 / 100 + y1 / 400.

Definition DAYS_BEFORE_MONTH : list Z :=
  [0; 0; 31; 59; 90; 120; 151; 181; 212; 243; 273; 304; 334].

(** Number of days in year [y] before the first day of month [m]. *)
Definition days_before_month (y m : Z) : Z :=
  nth (Z.to_nat m) DAYS_BEFORE_MONTH 0
  + (if (2 <? m) && is_leap y then 1 else 0).

(** Proleptic Gregorian ordinal, January 1st of year 1 being day 1. *)
Definition toordinal (t : datetime) : Z :=
  days_before_year (year t) + days_before_month (year t) (month t) + day t.

(** [(t1 - t2)] as a whole number of microseconds; a [timedelta] is this
    number split into days, seconds and microseconds.  Two naive values
    are subtracted field by field, two aware ones after the difference of
    their offsets is taken off, and a naive and an aware one not at
    all. *)
Definition sub_microseconds (t1 t2 : datetime) : result Z :=
  let days := toordinal t1 - toordinal t2 in
  let secs1 := second t1 + minute t1 * 60 + hour t1 * 3600 in
  let secs2 := second t2 + minute t2 * 60 + hour t2 * 3600 in
  let base := (days * 86400 + (secs1 - secs2)) * 1000000
              + (microsecond t1 - microsecond t2) in
  match tzinfo t1, tzinfo t2 with
  | None, None => Ok base
  | Some myoff, Some otoff => Ok (base + otoff - myoff)
  | _, _ =>
      Raise (TypeError
               (Msg "can't subtract offset-naive and offset-aware datetimes"))
  end.

(** [(t1 - t2).total_seconds()]. *)
Definition total_seconds_between (t1 t2 : datetime) : result R :=
  us <- sub_microseconds t1 t2 ;;
  Ok (IZR us / 1000000)%R.

(** Number of days of month [m] in year [y]. *)
Definition days_in_month (y m : Z) : Z :=
  if (m =? 2) && is_leap y then 29
  else nth (Z.to_nat m) [0; 31; 28; 31; 30; 31; 30; 31; 31; 30; 31; 30; 31] 0.

Definition digit (c : ascii) : option Z :=
  let n := nat_of_ascii c in
  if ((48 <=? n) && (n <=? 57))%nat then Some (Z.of_nat (n - 48)) else None.

Fixpoint digits (l : list ascii) (acc : Z) : option Z :=
  match l with
  | [] => Some acc
  | c :: l' =>
      match digit c with
      | Some v => digits l' (acc * 10 + v)
      | None => None
      end
  end.

(** A stand-in for [datetime.fromisoformat] on two of its fixed-width
    forms, [YYYY-MM-DDTHH:MM:SS] (naive) and [YYYY-MM-DDTHH:MM:SS+HH:MM]
    (aware, the sign being [+] or [-]), used to run the constructor on
    examples. *)
Definition fromisoformat_seconds (s : string) : option datetime :=
  match list_ascii_of_string s with
  | [y1; y2; y3; y4; "-"; m1; m2; "-"; d1; d2; "T";
     h1; h2; ":"; n1; n2; ":"; s1; s2]%list%char =>
      match digits [y1; y2; y3; y4] 0, digits [m1; m2] 0, digits [d1; d2] 0,
            digits [h1; h2] 0, digits [n1; n2] 0, digits [s1; s2] 0 with
      | Some y, Some m, Some d, Some h, Some n, Some sec =>
          if (1 <=? y) && (1 <=? m) && (m <=? 12)
             && (1 <=? d) && (d <=? days_in_month y m)
             && (h <=? 23) && (n <=? 59) && (sec <=? 59)
          then Some (mkDatetime y m d h n sec 0 None)
          else None
      | _, _, _, _, _, _ => None
      end
  | [y1; y2; y3; y4; "-"; m1; m2; "-"; d1; d2; "T";
     h1; h2; ":"; n1; n2; ":"; s1; s2; sign; o1; o2; ":"; o3; o4]%list%char =>
      match digits [y1; y2; y3; y4] 0, digits [m1; m2] 0, digits [d1; d2] 0,
            digits [h1; h2] 0, digits [n1; n2] 0, digits [s1; s2] 0,
            digits [o1; o2] 0, digits [o3; o4] 0 with
      | Some y, Some m, Some d, Some h, Some n, Some sec, Some oh, Some om =>
          if (1 <=? y) && (1 <=? m) && (m <=? 12)
             && (1 <=? d) && (d <=? days_in_month y m)
             && (h <=? 23) && (n <=? 59) && (sec <=? 59)
             && (oh <=? 23) && (om <=? 59)
          then
            let offset := (oh * 3600 + om * 60) * 1000000 in
            if Ascii.eqb sign "+"
            then Some (mkDatetime y m d h n sec 0 (Some offset))
            else if Ascii.eqb sign "-"
            then Some (mkDatetime y m d h n sec 0 (Some (- offset)))
            else None
          else None
      | _, _, _, _, _, _, _, _ => None
      end
  | _ => None
  end.

End Datetime.

Export Datetime.

(* ===================================================================== *)
(** * Constants *)
(* ===================================================================== *)

Definition EARTH_RADIUS_KM : R := 6371.
Definition EARTH_EQUATORIAL_RADIUS : R := 6378137 / 1000.
Definition EARTH_POLAR_RADIUS : R := 6356752 / 1000.

(* ===================================================================== *)
(** * Core classes *)
(* ===================================================================== *)

(** [class LatLon]: the constructor stores its two arguments. *)
Record LatLon : Type := mkLatLon { lat : R; lon : R }.

Definition get_lat (p : LatLon) : R := lat p.
Definition get_lon (p : LatLon) : R := lon p.

(* ===================================================================== *)
(** * Vector mathematics *)
(* ===================================================================== *)

Definition to_rectangular (latlon : LatLon) : list R :=
  let lat_rad := radians (get_lat latlon) in
  let lon_rad := radians (get_lon latlon) in
  let x := cos lat_rad * cos lon_rad in
  let y := cos lat_rad * sin lon_rad in
  let z := sin lat_rad in
  [x; y; z].

(** [x, y, z = vec]. *)
Definition unpack3 (vec : list R) : result (R * R * R) :=
  match vec with
  | [x; y; z] => Ok (x, y, z)
  | _ => Raise (ValueError (Msg "unpack"))
  end.

Definition to_latlon (vec : list R) : result LatLon :=
  '(x, y, z) <- unpack3 vec ;;
  magnitude <- py_sqrt (x ^ 2 + y ^ 2 + z ^ 2) ;;
  if Req_dec_T magnitude 0 then
    Raise (ValueError (Msg "Zero vector cannot be converted to LatLon"))
  else
    x <- py_div x magnitude ;;
    y <- py_div y magnitude ;;
    z <- py_div z magnitude ;;
    h <- py_sqrt (x ^ 2 + y ^ 2) ;;
    let lat := degrees (atan2 z h) in
    let lon := degrees (atan2 y x) in
    Ok (mkLatLon lat lon).

Definition normalize_vect (vec : list R) : result (list R) :=
  magnitude <- py_sqrt (py_sum (map (fun v => v ^ 2) vec)) ;;
  if Req_dec_T magnitude 0 then Ok vec
  else mapM (fun v => py_div v magnitude) vec.

Definition add_vecs (vec1 vec2 : list R) : result (list R) :=
  mapM (fun i => a <- idx vec1 i ;; b <- idx vec2 i ;; Ok (a + b))
       (range 0 3).

Definition mult_scalar_vect (scalar : R) (vec : list R) : list R :=
  map (fun v => scalar * v) vec.

Definition spherical_distance (latlon1 latlon2 : LatLon) : result R :=
  let lat1 := radians (get_lat latlon1) in
  let lon1 := radians (get_lon latlon1) in
  let lat2 := radians (get_lat latlon2) in
  let lon2 := radians (get_lon latlon2) in
  let dlat := lat2 - lat1 in
  let dlon := lon2 - lon1 in
  let a := sin (dlat / 2) ^ 2 + cos lat1 * cos lat2 * sin (dlon / 2) ^ 2 in
  sa <- py_sqrt a ;;
  sb <- py_sqrt (1 - a) ;;
  let c := 2 * atan2 sa sb in
  Ok (EARTH_RADIUS_KM * c).

(* ===================================================================== *)
(** * Atmospheric corrections *)
(* ===================================================================== *)

(** [math.tan] is the Standard Library's [tan]; at odd multiples of
    [PI / 2], where the real tangent has no value, it is [sin x * / 0]. *)
Definition atmospheric_refraction (altitude_deg temperature pressure : R)
  : result R :=
  if Rle_dec altitude_deg 0 then Ok 0
  else if Rle_dec 90 altitude_deg then Ok 0
  else
    let h := altitude_deg in
    q <- py_div 7.31 (h + 4.4) ;;
    R0 <- py_div 1 (tan (radians (h + q))) ;;
    let temp_kelvin := temperature + 273.15 in
    k <- py_div 283 temp_kelvin ;;
    let R1 := R0 * (pressure / 101) * k in
    Ok (R1 / 60).

Definition horizon_dip (observer_height_m : R) : result R :=
  if Rle_dec observer_height_m 0 then Ok 0
  else
    s <- py_sqrt observer_height_m ;;
    let dip_arcmin := 1.76 * s in
    Ok (dip_arcmin / 60).

(* ===================================================================== *)
(** * Celestial calculations *)
(* ===================================================================== *)

Definition j2000 : datetime := mkDatetime 2000 1 1 12 0 0 0 None.

Definition days_since_j2000 (observation_time : datetime) : result R :=
  seconds <- total_seconds_between observation_time j2000 ;;
  Ok (seconds / 86400).

Definition hours_since_midnight (observation_time : datetime) : R :=
  IZR (hour observation_time)
  + IZR (minute observation_time) / 60
  + IZR (second observation_time) / 3600.

(** The epoch is a naive value, so that the subtraction in the first
    statement raises [TypeError] for an aware observation time. *)
Definition calculate_gha (ra : R) (observation_time : datetime) : result R :=
  days_since_j2000 <- days_since_j2000 observation_time ;;
  let gmst := 280.46061837 + 360.98564736629 * days_since_j2000 in
  let gmst := gmst + hours_since_midnight observation_time * 15 in
  let gmst := py_mod gmst 360 in
  let gha := py_mod (gmst - ra) 360 in
  Ok gha.

Definition calculate_lha (gha observer_lon : R) : R :=
  py_mod (gha + observer_lon) 360.

(* ===================================================================== *)
(** * The hour angle in binary64 *)
(* ===================================================================== *)

(** [calculate_gha] uses no library function, only literals, [+], [-],
    [*], [/] and [%]: its statements can be run on the floats of the
    program themselves.  A Python [float] is an IEEE 754 binary64 number
    and its arithmetic rounds to nearest, ties to even; the Standard
    Library specifies that arithmetic on [spec_float], with precision 53
    and maximal exponent 1024. *)
Module Binary64.

Local Open Scope Z_scope.

Definition binary64 : Type := SpecFloat.spec_float.
Definition prec : Z := 53.
Definition emax : Z := 1024.

(** [float(z)] for an integer, as in [z + 1.5]: the nearest float. *)
Definition of_int (z : Z) : binary64 :=
  SpecFloat.binary_normalize prec emax z 0 false.

(** An integer as an unrounded operand. *)
Definition exact_int (z : Z) : binary64 :=
  match z with
  | Z0 => SpecFloat.S754_zero false
  | Zpos p => SpecFloat.S754_finite false p 0
  | Zneg p => SpecFloat.S754_finite true p 0
  end.

(** [a / b] on two integers: the quotient, rounded once. *)
Definition int_true_div (a b : Z) : binary64 :=
  SpecFloat.SFdiv prec emax (exact_int a) (exact_int b).

(** A decimal literal [digits * 10 ^ (- decimals)]: the nearest float. *)
Definition literal (digits : Z) (decimals : nat) : binary64 :=
  int_true_div digits (10 ^ Z.of_nat decimals).

Definition add : binary64 -> binary64 -> binary64 := SpecFloat.SFadd prec emax.
Definition sub : binary64 -> binary64 -> binary64 := SpecFloat.SFsub prec emax.
Definition mul : binary64 -> binary64 -> binary64 := SpecFloat.SFmul prec emax.
Definition div : binary64 -> binary64 -> binary64 := SpecFloat.SFdiv prec emax.

Definition is_zero (x : binary64) : bool :=
  match x with
  | SpecFloat.S754_zero _ => true
  | _ => false
  end.

Definition is_negative (x : binary64) : bool :=
  match x with
  | SpecFloat.S754_finite s _ _ => s
  | SpecFloat.S754_infinity s => s
  | _ => false
  end.

(** C's [fmod]: the remainder of the division truncated towards zero, with
    the sign of [x]; it is computed exactly. *)
Definition fmod (x y : binary64) : binary64 :=
  match x, y with
  | SpecFloat.S754_finite sx mx ex, SpecFloat.S754_finite _ my ey =>
      let e := Z.min ex ey in
      let r := Z.shiftl (Zpos mx) (ex - e) mod Z.shiftl (Zpos my) (ey - e) in
      SpecFloat.binary_normalize prec emax (if sx then - r else r) e sx
  | SpecFloat.S754_zero _, SpecFloat.S754_finite _ _ _ => x
  | SpecFloat.S754_finite _ _ _, SpecFloat.S754_infinity _ => x
  | _, _ => SpecFloat.S754_nan
  end.

(** [vx % wx] on floats, for a divisor that is not zero: [fmod], moved
    by the divisor when its sign is not the divisor's.  The addition
    rounds: for a remainder just below zero the sum is the divisor. *)
Definition py_mod (vx wx : binary64) : binary64 :=
  let m := fmod vx wx in
  if is_zero m then SpecFloat.S754_zero (is_negative wx)
  else if xorb (is_negative wx) (is_negative m) then add m wx
  else m.

(** [calculate_gha], statement by statement. *)
Definition calculate_gha (ra : binary64) (observation_time : datetime)
  : result binary64 :=
  microseconds <- sub_microseconds observation_time j2000 ;;
  let total_seconds := int_true_div microseconds 1000000 in
  let days_since_j2000 := div total_seconds (literal 864000 1) in
  let gmst := add (literal 28046061837 8)
                  (mul (literal 36098564736629 11) days_since_j2000) in
  let hours_since_midnight :=
    add (add (of_int (hour observation_time))
             (div (of_int (minute observation_time)) (literal 600 1)))
        (div (of_int (second observation_time)) (literal 36000 1)) in
  let gmst := add gmst (mul hours_since_midnight (literal 150 1)) in
  let gmst := py_mod gmst (of_int 360) in
  let gha := py_mod (sub gmst ra) (of_int 360) in
  Ok gha.

(** [calculate_lha]. *)
Definition calculate_lha (gha observer_lon : binary64) : binary64 :=
  py_mod (add gha observer_lon) (of_int 360).

(** [math.sqrt]: a negative argument is a domain error; [-0.0] is not
    negative. *)
Definition sqrt (x : binary64) : result binary64 :=
  if is_negative x then Raise (ValueError (Msg "math domain error"))
  else Ok (SpecFloat.SFsqrt prec emax x).

(** The two statements of [spherical_distance] under the comment
    "Haversine formula", up to the call of [atan2]: from the four values
    the library has returned for [sin(dlat/2)**2], [cos(lat1)],
    [cos(lat2)] and [sin(dlon/2)**2] to the two arguments of [atan2]. *)
Definition haversine_roots
    (sin_dlat_squared cos_lat1 cos_lat2 sin_dlon_squared : binary64)
  : result (binary64 * binary64) :=
  let a := add sin_dlat_squared
               (mul (mul cos_lat1 cos_lat2) sin_dlon_squared) in
  y <- sqrt a ;;
  x <- sqrt (sub (of_int 1) a) ;;
  Ok (y, x).

End Binary64.

(* ===================================================================== *)
(** * Sight *)
(* ===================================================================== *)

Record Sight : Type := mkSight {
  ra : R;
  dec : R;
  time : datetime;
  observed_altitude : R;
  observer_height : R;
  temperature : R;
  pressure : R;
  corrected_altitude : R;
  gha : R
}.

Section SightConstruction.

(** [datetime.fromisoformat]: the parser of the standard library, taken
    as given; [None] stands for a string it rejects, for which it raises
    [ValueError].  A string with a UTC offset gives an aware value. *)
Variable fromisoformat : string -> option datetime.

Definition parse_time (time : string) : result datetime :=
  match fromisoformat time with
  | Some t => Ok t
  | None => Raise (ValueError (Msg "Invalid isoformat string"))
  end.

(** [Sight.__init__]; the statements are kept in the order of the source,
    which fixes which exception wins when several apply. *)
Definition Sight_init (ra dec altitude : R) (time : string)
    (observer_height temperature pressure : R)
    (apply_refraction apply_dip : bool) : result Sight :=
  let self_ra := py_mod ra 360 in
  let self_dec := dec in
  if negb (Rleb (-90) dec && Rleb dec 90)
  then Raise (ValueError
                (MsgGot "Declination must be between -90 and +90, got " dec))
  else
    self_time <- parse_time time ;;
    let self_observed_altitude := altitude in
    if negb (Rltb 0 altitude && Rltb altitude 90)
    then Raise (ValueError
                  (MsgGot "Altitude must be between 0 and 90 degrees, got "
                          altitude))
    else
      let corrected := altitude in
      corrected <-
        (if apply_refraction then
           refraction <- atmospheric_refraction altitude temperature pressure ;;
           Ok (corrected - refraction)
         else Ok corrected) ;;
      corrected <-
        (if apply_dip && Rltb 0 observer_height then
           dip <- horizon_dip observer_height ;;
           Ok (corrected - dip)
         else Ok corrected) ;;
      self_gha <- calculate_gha ra self_time ;;
      Ok (mkSight self_ra self_dec self_time self_observed_altitude
                  observer_height temperature pressure corrected self_gha).

End SightConstruction.

(** The two normalisation loops of [Sight.get_gp]:
    [while gp_lon < -180: gp_lon += 360] and
    [while gp_lon > 180: gp_lon -= 360]. *)
Equations? add_while_below (gp_lon : R) : R
  by wf (Z.to_nat (Zfloor ((-180 - gp_lon) / 360) + 1)) lt :=
  add_while_below gp_lon with Rlt_dec gp_lon (-180) => {
    | left _ => add_while_below (gp_lon + 360);
    | right _ => gp_lon }.
Proof.
  replace ((-180 - (gp_lon + 360)) / 360)
    with ((-180 - gp_lon) / 360 + IZR (-1)) by (simpl; lra).
  rewrite Zfloor_addz.
  assert (0 <= Zfloor ((-180 - gp_lon) / 360))%Z
    by (apply Zfloor_lub; simpl; lra).
  lia.
Qed.

Equations? sub_while_above (gp_lon : R) : R
  by wf (Z.to_nat (Zfloor ((gp_lon - 180) / 360) + 1)) lt :=
  sub_while_above gp_lon with Rlt_dec 180 gp_lon => {
    | left _ => sub_while_above (gp_lon - 360);
    | right _ => gp_lon }.
Proof.
  replace ((gp_lon - 360 - 180) / 360)
    with ((gp_lon - 180) / 360 + IZR (-1)) by (simpl; lra).
  rewrite Zfloor_addz.
  assert (0 <= Zfloor ((gp_lon - 180) / 360))%Z
    by (apply Zfloor_lub; simpl; lra).
  lia.
Qed.

Definition get_gp (self : Sight) : LatLon :=
  let gp_lat := dec self in
  let gp_lon := - gha self in
  let gp_lon := add_while_below gp_lon in
  let gp_lon := sub_while_above gp_lon in
  mkLatLon gp_lat gp_lon.

Definition get_distance_from_gp (self : Sight) : R :=
  let co_altitude := 90 - corrected_altitude self in
  let distance := radians co_altitude * EARTH_RADIUS_KM in
  distance.

(* ===================================================================== *)
(** * Circle of position *)
(* ===================================================================== *)

(** The second half of [calculate_circle_intersection] (from the comment
    "Calculate the intersection" to the [return]), reached when none of
    the three tests has returned [None]. *)
Definition intersection_points (vec1 vec2 : list R) (r1 r2 d : R)
  : result (option (LatLon * LatLon)) :=
  cos_a <- py_div (cos r1 - cos r2 * cos d) (sin r2 * sin d) ;;
  let cos_a := py_max (-1) (py_min 1 cos_a) in
  a <- py_acos cos_a ;;
  v11 <- idx vec1 1 ;; v22 <- idx vec2 2 ;;
  v12 <- idx vec1 2 ;; v21 <- idx vec2 1 ;;
  v20 <- idx vec2 0 ;; v10 <- idx vec1 0 ;;
  let perp := [ v11 * v22 - v12 * v21;
                v12 * v20 - v10 * v22;
                v10 * v21 - v11 * v20 ] in
  perp <- normalize_vect perp ;;
  let cos_a_val := cos a in
  let sin_a_val := sin a in
  int1_vec <- mapM (fun i => v <- idx vec1 i ;; p <- idx perp i ;;
                             Ok (v * cos_a_val + p * sin_a_val * sin d))
                   (range 0 3) ;;
  int1_vec <- normalize_vect int1_vec ;;
  int2_vec <- mapM (fun i => v <- idx vec1 i ;; p <- idx perp i ;;
                             Ok (v * cos_a_val - p * sin_a_val * sin d))
                   (range 0 3) ;;
  int2_vec <- normalize_vect int2_vec ;;
  int1 <- to_latlon int1_vec ;;
  int2 <- to_latlon int2_vec ;;
  Ok (Some (int1, int2)).

Definition calculate_circle_intersection
    (gp1 : LatLon) (dist1 : R) (gp2 : LatLon) (dist2 : R)
  : result (option (LatLon * LatLon)) :=
  let vec1 := to_rectangular gp1 in
  let vec2 := to_rectangular gp2 in
  let r1 := dist1 / EARTH_RADIUS_KM in
  let r2 := dist2 / EARTH_RADIUS_KM in
  prods <- mapM (fun i => a <- idx vec1 i ;; b <- idx vec2 i ;; Ok (a * b))
                (range 0 3) ;;
  let dot_product := py_sum prods in
  let dot_product := py_max (-1) (py_min 1 dot_product) in
  d <- py_acos dot_product ;;
  if Rltb (r1 + r2) d then Ok None
  else if Rltb d (Rabs (r1 - r2)) then Ok None
  else if (if Req_dec_T d 0 then true else false)
          && Rltb 1e-10 (Rabs (r1 - r2)) then Ok None
  else intersection_points vec1 vec2 r1 r2 d.

(* ===================================================================== *)
(** * SightCollection *)
(* ===================================================================== *)

Record SightCollection : Type := mkSightCollection { sights : list Sight }.

Definition SightCollection_init (sights : list Sight) : result SightCollection :=
  if (List.length sights <? 2)%nat then
    Raise (ValueError (Msg "SightCollection requires at least 2 sights"))
  else Ok (mkSightCollection sights).

Definition calculate_two_sight_fix (self : SightCollection)
    (estimated_position : option LatLon) : result LatLon :=
  sight1 <- idx (sights self) 0 ;;
  sight2 <- idx (sights self) 1 ;;
  let gp1 := get_gp sight1 in
  let gp2 := get_gp sight2 in
  let dist1 := get_distance_from_gp sight1 in
  let dist2 := get_distance_from_gp sight2 in
  intersections <- calculate_circle_intersection gp1 dist1 gp2 dist2 ;;
  match intersections with
  | None =>
      Raise (ValueError (Msg "No intersection found - circles don't meet"))
  | Some (int1, int2) =>
      match estimated_position with
      | Some est =>
          dist_to_int1 <- spherical_distance est int1 ;;
          dist_to_int2 <- spherical_distance est int2 ;;
          Ok (if Rltb dist_to_int1 dist_to_int2 then int1 else int2)
      | None => Ok int1
      end
  end.

(** Body of the inner loop of [_calculate_multi_sight_fix], for the pair
    of indices [(i, j)], acting on the list [positions]. *)
Definition multi_sight_pair (self : SightCollection)
    (estimated_position : option LatLon) (i j : nat)
    (positions : list LatLon) : result (list LatLon) :=
  sight1 <- idx (sights self) i ;;
  sight2 <- idx (sights self) j ;;
  let gp1 := get_gp sight1 in
  let gp2 := get_gp sight2 in
  let dist1 := get_distance_from_gp sight1 in
  let dist2 := get_distance_from_gp sight2 in
  intersections <- calculate_circle_intersection gp1 dist1 gp2 dist2 ;;
  match intersections with
  | Some (int1, int2) =>
      chosen <-
        match estimated_position with
        | Some est =>
            dist_to_int1 <- spherical_distance est int1 ;;
            dist_to_int2 <- spherical_distance est int2 ;;
            Ok (if Rltb dist_to_int1 dist_to_int2 then int1 else int2)
        | None => Ok int1
        end ;;
      Ok (positions ++ [chosen])
  | None => Ok positions
  end.

(** The two nested [for] loops that fill [positions]. *)
Definition multi_sight_positions (self : SightCollection)
    (estimated_position : option LatLon) : result (list LatLon) :=
  let n := List.length (sights self) in
  forM (range 0 n)
       (fun i positions =>
          forM (range (i + 1) n)
               (fun j positions =>
                  multi_sight_pair self estimated_position i j positions)
               positions)
       [].

Definition calculate_multi_sight_fix (self : SightCollection)
    (estimated_position : option LatLon) : result LatLon :=
  positions <- multi_sight_positions self estimated_position ;;
  if (List.length positions =? 0)%nat then
    Raise (ValueError (Msg "No valid intersections found"))
  else
    let vectors := map to_rectangular positions in
    avg_vector <-
      mapM (fun i =>
              column <- mapM (fun vec => idx vec i) vectors ;;
              py_div (py_sum column) (INR (List.length vectors)))
           (range 0 3) ;;
    avg_vector <- normalize_vect avg_vector ;;
    to_latlon avg_vector.

Definition get_intersections (self : SightCollection)
    (estimated_position : option LatLon) : result LatLon :=
  if (List.length (sights self) =? 2)%nat then
    calculate_two_sight_fix self estimated_position
  else
    calculate_multi_sight_fix self estimated_position.

(* ===================================================================== *)
(** * Vocabulary of the statements *)
(* ===================================================================== *)

(** ** Distances and angles *)

(** The haversine term [a] of [spherical_distance]. *)
Definition haversine_a (p q : LatLon) : R :=
  sin ((radians (get_lat q) - radians (get_lat p)) / 2) ^ 2
  + cos (radians (get_lat p)) * cos (radians (get_lat q))
    * sin ((radians (get_lon q) - radians (get_lon p)) / 2) ^ 2.

(** Great-circle distance in kilometres, by the haversine formula. *)
Definition great_circle_km (p q : LatLon) : R :=
  EARTH_RADIUS_KM
  * (2 * atan2 (sqrt (haversine_a p q)) (sqrt (1 - haversine_a p q))).

(** [normalized360 x y]: [y] is [x] brought into [[0, 360)] by a whole
    number of turns. *)
Definition normalized360 (x y : R) : Prop :=
  0 <= y < 360 /\ exists k : Z, x = y + IZR k * 360.

(** [reduced360 x r]: [r] is [x] reduced by whole turns to a value
    between 0 and 360, both included. *)
Definition reduced360 (x r : R) : Prop :=
  0 <= r <= 360 /\ exists k : Z, r = x - IZR k * 360.

(** ** The hour angle, in the words of the design document *)

(** The days of the Gregorian calendar, counted out: a year has 366 days
    when it is divisible by 4 and not by 100, or divisible by 400. *)
Definition gregorian_leap (y : Z) : bool :=
  ((y mod 4 =? 0) && (negb (y mod 100 =? 0) || (y mod 400 =? 0)))%Z.

Definition year_length (y : Z) : Z :=
  if gregorian_leap y then 366%Z else 365%Z.

Definition month_lengths (y : Z) : list Z :=
  [31; if gregorian_leap y then 29 else 28; 31; 30; 31; 30;
   31; 31; 30; 31; 30; 31]%Z.

(** The length of the years 1 to [n] together. *)
Fixpoint days_of_years (n : nat) : Z :=
  match n with
  | O => 0%Z
  | S k => (days_of_years k + year_length (Z.of_nat (S k)))%Z
  end.

(** The number of a day, 1 January of the year 1 being day 1. *)
Definition day_number (y m d : Z) : Z :=
  (days_of_years (Z.to_nat (y - 1))
   + fold_right Z.add 0 (firstn (Z.to_nat (m - 1)) (month_lengths y))
   + d)%Z.

(** Days from the epoch, 2000-01-01T12:00:00, to a naive time. *)
Definition days_since_epoch (t : datetime) : R :=
  (IZR (day_number (year t) (month t) (day t) - day_number 2000 1 1)
   + (IZR (hour t * 3600 + minute t * 60 + second t - 12 * 3600)
      + IZR (microsecond t) / 1000000) / 86400).

(** The time of day in hours; the microseconds are not counted. *)
Definition hours_of_day (t : datetime) : R :=
  IZR (hour t) + IZR (minute t) / 60 + IZR (second t) / 3600.

(** ** The circle-of-position solver *)

(** Scalar product of the first three components. *)
Definition dot_product (v w : list R) : R :=
  py_sum [nth 0 v 0 * nth 0 w 0; nth 1 v 0 * nth 1 w 0; nth 2 v 0 * nth 2 w 0].

(** Angular separation of two positions: [acos] of the clamped scalar
    product of their unit vectors. *)
Definition angular_separation (gp1 gp2 : LatLon) : R :=
  acos (py_max (-1)
          (py_min 1 (dot_product (to_rectangular gp1) (to_rectangular gp2)))).

(** The angle at the centre of the sphere between two positions given
    in degrees, by the spherical law of cosines. *)
Definition central_angle (p q : LatLon) : R :=
  let phi1 := get_lat p * PI / 180 in
  let phi2 := get_lat q * PI / 180 in
  let lambda1 := get_lon p * PI / 180 in
  let lambda2 := get_lon q * PI / 180 in
  acos (sin phi1 * sin phi2 + cos phi1 * cos phi2 * cos (lambda2 - lambda1)).

(** The great-circle distance of two positions, in kilometres: the arc
    between them on a sphere of radius 6371 km. *)
Definition great_circle_arc_km (p q : LatLon) : R :=
  6371 * central_angle p q.

(** The three tests after which the solver reports no intersection. *)
Definition no_intersection_class (r1 r2 d : R) : Prop :=
  d > r1 + r2 \/ d < Rabs (r1 - r2) \/ (d = 0 /\ Rabs (r1 - r2) > 1e-10).

(** ** The fix combiner *)

(** The solver applied to the circles of position of two sights. *)
Definition pair_intersection (s1 s2 : Sight)
  : result (option (LatLon * LatLon)) :=
  calculate_circle_intersection (get_gp s1) (get_distance_from_gp s1)
                                (get_gp s2) (get_distance_from_gp s2).

(** A pair that yields a valid intersection; a pair without one; a pair
    on which the solver completes, with or without points. *)
Definition intersects (pr : Sight * Sight) : Prop :=
  exists int1 int2, pair_intersection (fst pr) (snd pr) = Ok (Some (int1, int2)).

Definition does_not_intersect (pr : Sight * Sight) : Prop :=
  pair_intersection (fst pr) (snd pr) = Ok None.

Definition completes (pr : Sight * Sight) : Prop :=
  is_ok (pair_intersection (fst pr) (snd pr)).

(** Every unordered pair of a list, each pair once, in the order of the
    list. *)
Fixpoint pairs {A : Type} (l : list A) : list (A * A) :=
  match l with
  | [] => []
  | x :: l' => map (pair x) l' ++ pairs l'
  end.

(** The candidate that is kept: the one strictly closer to the estimate,
    the second on a tie, the first when there is no estimate. *)
Definition closest_candidate (estimated_position : option LatLon)
    (int1 int2 : LatLon) : LatLon :=
  match estimated_position with
  | Some est =>
      if Rlt_dec (great_circle_km est int1) (great_circle_km est int2)
      then int1 else int2
  | None => int1
  end.

(** The point a pair of sights contributes to the fix, if any. *)
Definition chosen_point (estimated_position : option LatLon)
    (pr : Sight * Sight) : result (option LatLon) :=
  r <- pair_intersection (fst pr) (snd pr) ;;
  Ok (match r with
      | Some (int1, int2) =>
          Some (closest_candidate estimated_position int1 int2)
      | None => None
      end).

(** The chosen points of a list of pairs; a pair without intersection
    contributes nothing. *)
Fixpoint chosen_points (estimated_position : option LatLon)
    (prs : list (Sight * Sight)) : result (list LatLon) :=
  match prs with
  | [] => Ok []
  | pr :: rest =>
      o <- chosen_point estimated_position pr ;;
      ps <- chosen_points estimated_position rest ;;
      Ok (match o with Some p => p :: ps | None => ps end)
  end.

(** What a pair adds to the list of chosen points when the solver
    completes on every pair: one point when it returns two candidates,
    nothing otherwise. *)
Definition contribution (estimated_position : option LatLon)
    (pr : Sight * Sight) : list LatLon :=
  match pair_intersection (fst pr) (snd pr) with
  | Ok (Some (int1, int2)) => [closest_candidate estimated_position int1 int2]
  | _ => []
  end.

(** One step of the loops, on the two sights rather than their indices. *)
Definition pair_step (estimated_position : option LatLon) (pr : Sight * Sight)
    (positions : list LatLon) : result (list LatLon) :=
  o <- chosen_point estimated_position pr ;;
  Ok (match o with Some p => positions ++ [p] | None => positions end).

(** Sum and arithmetic mean of a list of vectors, with the vector
    helpers of the program. *)
Definition vector_sum (vs : list (list R)) : result (list R) :=
  forM vs (fun v acc => add_vecs acc v) [0; 0; 0].

Definition mean_vector (vs : list (list R)) : result (list R) :=
  s <- vector_sum vs ;;
  Ok (mult_scalar_vect (1 / INR (List.length vs)) s).

(** Unit vectors, their mean, normalised, back to a position. *)
Definition mean_position (positions : list LatLon) : result LatLon :=
  m <- mean_vector (map to_rectangular positions) ;;
  u <- normalize_vect m ;;
  to_latlon u.

(** ** Example sights *)

(** The constructor is run at the epoch itself, where the sidereal time
    is 100.46061837 degrees, so that the hour angle of a body is
    [100.46061837 - ra] up to whole turns. *)
Definition epoch_iso : string := "2000-01-01T12:00:00".

(** A sight without refraction and dip corrections. *)
Definition plain_sight (ra dec altitude : R) : result Sight :=
  Sight_init fromisoformat_seconds ra dec altitude epoch_iso 0 10 101
             false false.

(** Three sights: a body at the celestial pole seen 1.76 arc minutes
    above the horizon from a height of one metre (the dip cancels the
    observed altitude, so its circle of position is the equator), and
    two bodies on the celestial equator, 180 degrees of hour angle
    apart, both seen at 45 degrees. *)
Definition pole_sight : result Sight :=
  Sight_init fromisoformat_seconds 100.46061837 90 (1.76 / 60) epoch_iso
             1 10 101 false true.
Definition meridian_sight : result Sight := plain_sight 100.46061837 0 45.
Definition antimeridian_sight : result Sight := plain_sight 280.46061837 0 45.

(** The values the constructor returns for them. *)
Definition pole : Sight :=
  mkSight 100.46061837 90 j2000 (1.76 / 60) 1 10 101 0 0.
Definition meridian : Sight :=
  mkSight 100.46061837 0 j2000 45 0 10 101 45 0.
Definition antimeridian : Sight :=
  mkSight 280.46061837 0 j2000 45 0 10 101 45 180.

Definition two_sights : SightCollection := mkSightCollection [pole; meridian].
Definition three_sights : SightCollection :=
  mkSightCollection [pole; meridian; antimeridian].

Definition calculate_altitude_azimuth (dec lha observer_lat : R)
  : result (R * R) :=
  let dec_rad := radians dec in
  let lha_rad := radians lha in
  let lat_rad := radians observer_lat in
  let sin_alt := sin lat_rad * sin dec_rad
                 + cos lat_rad * cos dec_rad * cos lha_rad in
  a0 <- py_acos (py_max (-1) (py_min 1 sin_alt)) ;;
  let altitude := degrees a0 - 90 in
  s <- py_sqrt (1 - sin_alt ^ 2) ;;
  let altitude := degrees (atan2 sin_alt s) in
  cos_az <- py_div (sin dec_rad - sin lat_rad * sin (radians altitude))
                   (cos lat_rad * cos (radians altitude)) ;;
  let cos_az := py_max (-1) (py_min 1 cos_az) in
  az <- py_acos cos_az ;;
  let azimuth := degrees az in
  let azimuth := if Rltb 0 (sin lha_rad) then 360 - azimuth else azimuth in
  Ok (altitude, azimuth).

(** The sine of the altitude of a body, by the cosine rule of the
    navigational triangle. *)
Definition sin_altitude (dec lha observer_lat : R) : R :=
  sin (radians observer_lat) * sin (radians dec)
  + cos (radians observer_lat) * cos (radians dec) * cos (radians lha).


(* ===================================================================== *)
(** * stars_database.py *)
(* ===================================================================== *)

Module StarsDatabase.

Local Open Scope string_scope.

(** An entry of the two tables: a dictionary in which each key may be
    absent (the planets have neither coordinates nor constellation). *)
Record body : Type := mkBody {
  arabic : option string;
  ra : option R;
  dec : option R;
  magnitude : option R;
  type : option string;
  constellation : option string;
  note : option string
}.

Definition STARS_DB : list (string * body) :=
  [ ("Sirius",
     mkBody (Some "الشعرى اليمانية") (Some 101.2875) (Some (-16.7161))
            (Some (-1.46)) (Some "star")
            (Some "Canis Major")
            None);
    ("Canopus",
     mkBody (Some "سهيل") (Some 95.9879) (Some (-52.6957))
            (Some (-0.74)) (Some "star")
            (Some "Carina")
            None);
    ("Arcturus",
     mkBody (Some "السماك الرامح") (Some 213.9153) (Some 19.1824)
            (Some (-0.05)) (Some "star")
            (Some "Boötes")
            None);
    ("Vega",
     mkBody (Some "النسر الواقع") (Some 279.2347) (Some 38.7837)
            (Some 0.03) (Some "star")
            (Some "Lyra")
            None);
    ("Capella",
     mkBody (Some "العيوق") (Some 79.1724) (Some 45.9980)
            (Some 0.08) (Some "star")
            (Some "Auriga")
            None);
    ("Rigel",
     mkBody (Some "رجل الجوزاء") (Some 78.6344) (Some (-8.2016))
            (Some 0.13) (Some "star")
            (Some "Orion")
            None);
    ("Procyon",
     mkBody (Some "الشعرى الشامية") (Some 114.8253) (Some 5.2250)
            (Some 0.34) (Some "star")
            (Some "Canis Minor")
            None);
    ("Betelgeuse",
     mkBody (Some "إبط الجوزاء") (Some 88.7929) (Some 7.4070)
            (Some 0.50) (Some "star")
            (Some "Orion")
            None);
    ("Altair",
     mkBody (Some "النسر الطائر") (Some 297.6958) (Some 8.8683)
            (Some 0.77) (Some "star")
            (Some "Aquila")
            None);
    ("Aldebaran",
     mkBody (Some "الدبران") (Some 68.9802) (Some 16.5093)
            (Some 0.85) (Some "star")
            (Some "Taurus")
            None);
    ("Antares",
     mkBody (Some "قلب العقرب") (Some 247.3519) (Some (-26.4320))
            (Some 1.06) (Some "star")
            (Some "Scorpius")
            None);
    ("Spica",
     mkBody (Some "السماك الأعزل") (Some 201.2983) (Some (-11.1614))
            (Some 1.04) (Some "star")
            (Some "Virgo")
            None);
    ("Pollux",
     mkBody (Some "الذراع المقبوضة") (Some 116.3289) (Some 28.0262)
            (Some 1.14) (Some "star")
            (Some "Gemini")
            None);
    ("Fomalhaut",
     mkBody (Some "فم الحوت") (Some 344.4127) (Some (-29.6222))
            (Some 1.16) (Some "star")
            (Some "Piscis Austrinus")
            None);
    ("Deneb",
     mkBody (Some "ذنب الدجاجة") (Some 310.3580) (Some 45.2803)
            (Some 1.25) (Some "star")
            (Some "Cygnus")
            None);
    ("Polaris",
     mkBody (Some "النجم القطبي") (Some 37.9545) (Some 89.2641)
            (Some 1.98) (Some "star")
            (Some "Ursa Minor")
            (Some "North Star - very useful for latitude determination"));
    ("Regulus",
     mkBody (Some "قلب الأسد") (Some 152.0929) (Some 11.9672)
            (Some 1.35) (Some "star")
            (Some "Leo")
            None);
    ("Castor",
     mkBody (Some "رأس التوأم المقدم") (Some 113.6494) (Some 31.8883)
            (Some 1.58) (Some "star")
            (Some "Gemini")
            None) ].

Definition PLANETS_DB : list (string * body) :=
  [ ("Venus",
     mkBody (Some "الزهرة") None None
            (Some (-4.0)) (Some "planet")
            None
            (Some "Position varies - use ephemeris data"));
    ("Mars",
     mkBody (Some "المريخ") None None
            (Some 0.0) (Some "planet")
            None
            (Some "Position varies - use ephemeris data"));
    ("Jupiter",
     mkBody (Some "المشتري") None None
            (Some (-2.0)) (Some "planet")
            None
            (Some "Position varies - use ephemeris data"));
    ("Saturn",
     mkBody (Some "زحل") None None
            (Some 0.5) (Some "planet")
            None
            (Some "Position varies - use ephemeris data")) ].

(** Sorting by a numeric key as [list.sort(key=...)] does: ascending and
    stable.  A stable sort has one result only, which this insertion sort
    computes. *)
Fixpoint insert_by_key {A : Type} (key : A -> R) (x : A) (l : list A)
  : list A :=
  match l with
  | [] => [x]
  | y :: l' =>
      if Rlt_dec (key y) (key x) then y :: insert_by_key key x l'
      else x :: y :: l'
  end.

Fixpoint sort_by_key {A : Type} (key : A -> R) (l : list A) : list A :=
  match l with
  | [] => []
  | x :: l' => insert_by_key key x (sort_by_key key l')
  end.

(** [d.get(key, default)] on an optional field. *)
Definition get_default {A : Type} (field : option A) (default : A) : A :=
  match field with
  | Some v => v
  | None => default
  end.

(** The ASCII part of [str.upper], used to run the lookups on examples. *)
Definition ascii_upper_char (c : ascii) : ascii :=
  let n := nat_of_ascii c in
  if ((97 <=? n) && (n <=? 122))%nat then ascii_of_nat (n - 32) else c.

Fixpoint ascii_upper (s : string) : string :=
  match s with
  | EmptyString => EmptyString
  | String c s' => String (ascii_upper_char c) (ascii_upper s')
  end.

Section Lookup.

(** [str.upper], taken as given. *)
Variable upper : string -> string.

(** The entry found is returned with its key, as the dictionary
    [{**star_data, "name": star_name}]. *)
Definition get_star_by_name (name : string) : option (string * body) :=
  let name_upper := upper name in
  find (fun entry => String.eqb (upper (fst entry)) name_upper) STARS_DB.

Definition get_star_by_arabic_name (arabic_name : string)
  : option (string * body) :=
  find (fun entry =>
          match arabic (snd entry) with
          | Some a => String.eqb a arabic_name
          | None => false
          end)
       STARS_DB.

Definition get_celestial_body (name : string) : option (string * body) :=
  match get_star_by_name name with
  | Some star => Some star
  | None =>
      let name_upper := upper name in
      find (fun entry => String.eqb (upper (fst entry)) name_upper)
           PLANETS_DB
  end.

Definition list_navigation_stars (min_magnitude : R)
  : list (string * body) :=
  let stars :=
    filter (fun entry => Rleb (get_default (magnitude (snd entry)) 99)
                              min_magnitude)
           STARS_DB in
  sort_by_key (fun x => get_default (magnitude (snd x)) 99) stars.

Definition get_stars_in_region (ra_min ra_max dec_min dec_max : R)
  : list (string * body) :=
  filter (fun entry =>
            let ra := get_default (ra (snd entry)) 0 in
            let dec := get_default (dec (snd entry)) 0 in
            Rleb ra_min ra && Rleb ra ra_max
            && Rleb dec_min dec && Rleb dec dec_max)
         STARS_DB.

Definition star_exists (name : string) : bool :=
  match get_celestial_body name with
  | Some _ => true
  | None => false
  end.

Definition get_star_coordinates (name : string) : option (R * R) :=
  match get_celestial_body name with
  | Some star =>
      match ra (snd star), dec (snd star) with
      | Some r, Some d => Some (r, d)
      | _, _ => None
      end
  | None => None
  end.

End Lookup.

End StarsDatabase.


(* ===================================================================== *)
(** * Reports *)
(* ===================================================================== *)

(** The dictionary that [SightCollection.calculate_position] returns. *)
Record position_report : Type := mkPositionReport {
  latitude : R;
  longitude : R;
  position_string : string;
  number_of_sights : nat;
  observation_times : list string
}.

Section Rendering.

(** The renderings of the run-time, taken as given: a float with four
    decimals ([:.4f]) and [datetime.isoformat]. *)
Variable format_4f : R -> string.
Variable isoformat : datetime -> string.

(** [LatLon.__str__] *)
Definition LatLon_str (self : LatLon) : string :=
  let lat_dir := (if Rleb 0 (lat self) then "N" else "S")%string in
  let lon_dir := (if Rleb 0 (lon self) then "E" else "W")%string in
  (format_4f (Rabs (lat self)) ++ "°" ++ lat_dir ++ ", "
   ++ format_4f (Rabs (lon self)) ++ "°" ++ lon_dir)%string.

Definition calculate_position (self : SightCollection)
    (estimated_position : option LatLon) : result position_report :=
  position <- get_intersections self estimated_position ;;
  Ok (mkPositionReport (get_lat position) (get_lon position)
                       (LatLon_str position)
                       (List.length (sights self))
                       (map (fun sight => isoformat (time sight))
                            (sights self))).

End Rendering.


(* ===================================================================== *)
(** * celestial_service.py *)
(* ===================================================================== *)

(** The two entry points of [CelestialNavigationService] that work from
    given observations.  Dictionaries are records whose fields are
    optional: [None] is an absent key; a present key holds a value of the
    documented type.  Printed warnings are left out. *)
Module CelestialService.

Local Open Scope string_scope.

(** An entry of [stars_data]. *)
Record star_data : Type := mkStarData {
  name : option string;
  ra : option R;
  dec : option R;
  altitude : option R;
  time : option string;
  observer_height : option R;
  temperature : option R;
  pressure : option R
}.

(** An entry of [used_sights], with keys ['star'], ['ra'], ['dec'] and
    ['altitude']. *)
Record used_sight : Type := mkUsedSight {
  star : string;
  used_ra : R;
  used_dec : R;
  used_altitude : R
}.

(** An entry of [observations]. *)
Record observation : Type := mkObservation {
  obs_name : option string;
  obs_altitude : option R;
  obs_observer_height : option R;
  obs_temperature : option R;
  obs_pressure : option R
}.

(** The ['message'] of a result: a fixed text, or one of the two
    formatted ones, kept with the value they are formatted from. *)
Inductive text : Type :=
| Text (s : string)
| NotEnoughValidSights (got : nat)
| ErrorCalculatingPosition (e : exn).

Record service_result : Type := mkServiceResult {
  success : bool;
  message : text;
  used_sights : list used_sight;
  calculated_position : option position_report
}.

Section Service.

Variable fromisoformat : string -> option datetime.
Variable format_4f : R -> string.
Variable isoformat : datetime -> string.

(** One round of the loop of [calculate_position_from_data] on the lists
    [sights] and [result['used_sights']]: an entry without one of the four
    required keys, or for which the constructor of [Sight] raises, leaves
    both as they are. *)
Definition add_sight (state : list Sight * list used_sight)
    (star_data : star_data) : list Sight * list used_sight :=
  let name := StarsDatabase.get_default (name star_data) "Unknown" in
  let observer_height :=
    StarsDatabase.get_default (observer_height star_data) 0 in
  let temperature := StarsDatabase.get_default (temperature star_data) 10 in
  let pressure := StarsDatabase.get_default (pressure star_data) 101 in
  match ra star_data, dec star_data, altitude star_data, time star_data with
  | Some ra, Some dec, Some altitude, Some time =>
      match Sight_init fromisoformat ra dec altitude time observer_height
                       temperature pressure true true with
      | Ok sight =>
          ((fst state ++ [sight])%list,
           (snd state ++ [mkUsedSight name ra dec altitude])%list)
      | Raise _ => state
      end
  | _, _, _, _ => state
  end.

Definition calculate_position_from_data (stars_data : list star_data)
  : service_result :=
  if (List.length stars_data <? 2)%nat then
    mkServiceResult false (Text "Need at least 2 star observations") [] None
  else
    let state := fold_left add_sight stars_data ([], []) in
    let sights := fst state in
    if (List.length sights <? 2)%nat then
      mkServiceResult false (NotEnoughValidSights (List.length sights))
                      (snd state) None
    else
      match (collection <- SightCollection_init sights ;;
             calculate_position format_4f isoformat collection None) with
      | Ok position_result =>
          mkServiceResult true (Text "Position calculated successfully")
                          (snd state) (Some position_result)
      | Raise e =>
          mkServiceResult false (ErrorCalculatingPosition e) (snd state) None
      end.

(** [str.upper] and the text of [datetime.now().isoformat()] at the
    call, taken as given. *)
Variable upper : string -> string.
Variable now_iso : string.

(** One round of the loop of [calculate_position_from_star_names]. *)
Definition add_star_data (observation_time : string)
    (stars_data : list star_data) (obs : observation) : list star_data :=
  match obs_name obs, obs_altitude obs with
  | Some name, Some altitude =>
      if String.eqb name "" then stars_data
      else
        match StarsDatabase.get_star_coordinates upper name with
        | None => stars_data
        | Some (ra, dec) =>
            (stars_data ++
             [mkStarData (Some name) (Some ra) (Some dec) (Some altitude)
                (Some observation_time)
                (Some (StarsDatabase.get_default (obs_observer_height obs) 0))
                (Some (StarsDatabase.get_default (obs_temperature obs) 10))
                (Some (StarsDatabase.get_default (obs_pressure obs) 101))])%list
        end
  | _, _ => stars_data
  end.

(** The estimated position is a parameter of the source that its body
    never reads. *)
Definition calculate_position_from_star_names
    (observations : list observation) (observation_time : option string)
    (estimated_position : option LatLon) : service_result :=
  if (List.length observations <? 2)%nat then
    mkServiceResult false (Text "Need at least 2 observations") [] None
  else
    let observation_time :=
      match observation_time with
      | None => now_iso
      | Some t => t
      end in
    let stars_data :=
      fold_left (add_star_data observation_time) observations [] in
    calculate_position_from_data stars_data.

End Service.

End CelestialService.


(* ===================================================================== *)
(** * Vocabulary for the catalogue and the service *)
(* ===================================================================== *)

(** What every entry of the star table has. *)
Definition star_entry_complete (e : string * StarsDatabase.body) : Prop :=
  exists r d m a,
    StarsDatabase.ra (snd e) = Some r
    /\ StarsDatabase.dec (snd e) = Some d
    /\ StarsDatabase.magnitude (snd e) = Some m
    /\ StarsDatabase.arabic (snd e) = Some a
    /\ 0 <= r < 360 /\ -90 < d < 90.

(** The sight and the [used_sights] entry that one round of the loop of
    [calculate_position_from_data] appends for an entry, if any. *)
Definition make_sight (fromisoformat : string -> option datetime)
    (d : CelestialService.star_data)
  : option (Sight * CelestialService.used_sight) :=
  match CelestialService.ra d, CelestialService.dec d,
        CelestialService.altitude d, CelestialService.time d with
  | Some ra0, Some dec0, Some altitude, Some iso =>
      match Sight_init fromisoformat ra0 dec0 altitude iso
              (StarsDatabase.get_default
                 (CelestialService.observer_height d) 0)
              (StarsDatabase.get_default (CelestialService.temperature d) 10)
              (StarsDatabase.get_default (CelestialService.pressure d) 101)
              true true with
      | Ok s =>
          Some (s,
                CelestialService.mkUsedSight
                  (StarsDatabase.get_default (CelestialService.name d)
                                             "Unknown"%string)
                  ra0 dec0 altitude)
      | Raise _ => None
      end
  | _, _, _, _ => None
  end.

Definition constructs_sight (fromisoformat : string -> option datetime)
    (d : CelestialService.star_data) : bool :=
  match make_sight fromisoformat d with
  | Some _ => true
  | None => false
  end.

(** The sights and entries appended over a whole list, in order. *)
Definition constructed (fromisoformat : string -> option datetime)
    (l : list CelestialService.star_data)
  : list (Sight * CelestialService.used_sight) :=
  flat_map (fun d => match make_sight fromisoformat d with
                     | Some made => [made]
                     | None => []
                     end) l.

(** Example observations, taken in a vacuum (pressure 0, so that the
    refraction vanishes) at the epoch: the body at the celestial pole and
    the body on the meridian of Greenwich of the example sights, and an
    entry without coordinates. *)
Definition pole_data : CelestialService.star_data :=
  CelestialService.mkStarData (Some "Pole"%string) (Some 100.46061837)
    (Some 90) (Some (1.76 / 60)) (Some epoch_iso) (Some 1) None (Some 0).
Definition meridian_data : CelestialService.star_data :=
  CelestialService.mkStarData None (Some 100.46061837)
    (Some 0) (Some 45) (Some epoch_iso) None None (Some 0).
Definition incomplete_data : CelestialService.star_data :=
  CelestialService.mkStarData (Some "Vega"%string) None None (Some 45)
    (Some epoch_iso) None None None.

(* ===================================================================== *)
(** * Dates *)
(* ===================================================================== *)

Example toordinal_j2000 : toordinal j2000 = 730120%Z.
Proof. reflexivity. Qed.

Example days_since_j2000_ex :
  days_since_j2000 (mkDatetime 2024 5 5 22 0 0 0 None)
  = Ok (8891 + 10 / 24).
Proof.
  unfold days_since_j2000, total_seconds_between.
  replace (sub_microseconds (mkDatetime 2024 5 5 22 0 0 0 None) j2000)
    with (Ok 768218400000000%Z) by reflexivity.
  cbn [bind]. f_equal. lra.
Qed.

Example fromisoformat_seconds_ex :
  fromisoformat_seconds "2024-05-05T22:00:00"
  = Some (mkDatetime 2024 5 5 22 0 0 0 None).
Proof. reflexivity. Qed.

Example fromisoformat_seconds_aware :
  fromisoformat_seconds "2000-01-01T12:00:00+00:00"
  = Some (mkDatetime 2000 1 1 12 0 0 0 (Some 0%Z)).
Proof. reflexivity. Qed.

(* ===================================================================== *)
(** * Run-time lemmas *)
(* ===================================================================== *)

Section RuntimeFacts.

Lemma py_sqrt_ok (x : R) : 0 <= x -> py_sqrt x = Ok (sqrt x).
Proof.
  intros Hx. unfold py_sqrt. destruct (Rlt_dec x 0); [lra | reflexivity].
Qed.

Lemma py_div_ok (x y : R) : y <> 0 -> py_div x y = Ok (x / y).
Proof.
  intros Hy. unfold py_div. destruct (Req_dec_T y 0); [contradiction | reflexivity].
Qed.

Lemma py_div_zero (x y : R) : y = 0 -> py_div x y = Raise ZeroDivisionError.
Proof.
  intros Hy. unfold py_div. destruct (Req_dec_T y 0); [reflexivity | contradiction].
Qed.

Lemma py_acos_ok (x : R) : -1 <= x <= 1 -> py_acos x = Ok (acos x).
Proof.
  intros [Hl Hu]. unfold py_acos.
  destruct (Rlt_dec x (-1)); [lra |].
  destruct (Rlt_dec 1 x); [lra | reflexivity].
Qed.

Lemma clamp_bounds (x : R) : -1 <= py_max (-1) (py_min 1 x) <= 1.
Proof.
  unfold py_max, py_min.
  destruct (Rlt_dec x 1); destruct (Rlt_dec (-1) _); lra.
Qed.

Lemma clamp_id (x : R) : -1 <= x <= 1 -> py_max (-1) (py_min 1 x) = x.
Proof.
  intros [Hl Hu]. unfold py_max, py_min.
  destruct (Rlt_dec x 1); destruct (Rlt_dec (-1) _); lra.
Qed.

Lemma Rltb_true (x y : R) : x < y -> Rltb x y = true.
Proof. intros H. unfold Rltb. destruct (Rlt_dec x y); [reflexivity | lra]. Qed.

Lemma Rltb_false (x y : R) : y <= x -> Rltb x y = false.
Proof. intros H. unfold Rltb. destruct (Rlt_dec x y); [lra | reflexivity]. Qed.

Lemma Rleb_true (x y : R) : x <= y -> Rleb x y = true.
Proof. intros H. unfold Rleb. destruct (Rle_dec x y); [reflexivity | lra]. Qed.

Lemma Rleb_false (x y : R) : y < x -> Rleb x y = false.
Proof. intros H. unfold Rleb. destruct (Rle_dec x y); [lra | reflexivity]. Qed.

End RuntimeFacts.

(* ===================================================================== *)
(** * Great-circle distance *)
(* ===================================================================== *)

Section Haversine.

Lemma sin_half_sq (x : R) : sin (x / 2) ^ 2 = (1 - cos x) / 2.
Proof.
  replace (cos x) with (cos (2 * (x / 2))) by (f_equal; lra).
  rewrite cos_2a_sin. simpl. lra.
Qed.

Lemma sin_cos_sq (x : R) : sin x * sin x + cos x * cos x = 1.
Proof. pose proof (sin2_cos2 x) as H. unfold Rsqr in H. exact H. Qed.

(** The unit vectors of two positions have a scalar product in [-1, 1]. *)
Lemma unit_dot_range (f1 l1 f2 l2 : R) :
  -1 <= cos f1 * cos l1 * (cos f2 * cos l2)
        + cos f1 * sin l1 * (cos f2 * sin l2) + sin f1 * sin f2 <= 1.
Proof.
  pose proof (sin_cos_sq f1) as F1. pose proof (sin_cos_sq f2) as F2.
  pose proof (sin_cos_sq l1) as L1. pose proof (sin_cos_sq l2) as L2.
  set (a := cos f1) in *. set (b := sin f1) in *.
  set (c := cos f2) in *. set (d := sin f2) in *.
  set (u := cos l1) in *. set (v := sin l1) in *.
  set (w := cos l2) in *. set (z := sin l2) in *.
  assert (N1 : a * u * (a * u) + a * v * (a * v) + b * b = 1).
  { replace (a * u * (a * u) + a * v * (a * v) + b * b)
      with (a * a * (v * v + u * u) + b * b) by ring.
    rewrite L1. lra. }
  assert (N2 : c * w * (c * w) + c * z * (c * z) + d * d = 1).
  { replace (c * w * (c * w) + c * z * (c * z) + d * d)
      with (c * c * (z * z + w * w) + d * d) by ring.
    rewrite L2. lra. }
  pose proof (Rle_0_sqr (a * u - c * w)) as Q1.
  pose proof (Rle_0_sqr (a * v - c * z)) as Q2.
  pose proof (Rle_0_sqr (b - d)) as Q3.
  pose proof (Rle_0_sqr (a * u + c * w)) as Q4.
  pose proof (Rle_0_sqr (a * v + c * z)) as Q5.
  pose proof (Rle_0_sqr (b + d)) as Q6.
  unfold Rsqr in *. split; lra.
Qed.

Lemma haversine_a_dot (p q : LatLon) :
  haversine_a p q =
  (1 - (cos (radians (get_lat p)) * cos (radians (get_lon p))
          * (cos (radians (get_lat q)) * cos (radians (get_lon q)))
        + cos (radians (get_lat p)) * sin (radians (get_lon p))
          * (cos (radians (get_lat q)) * sin (radians (get_lon q)))
        + sin (radians (get_lat p)) * sin (radians (get_lat q)))) / 2.
Proof.
  unfold haversine_a. rewrite !sin_half_sq, !cos_minus. lra.
Qed.

Lemma haversine_a_range (p q : LatLon) : 0 <= haversine_a p q <= 1.
Proof.
  rewrite haversine_a_dot.
  pose proof (unit_dot_range (radians (get_lat p)) (radians (get_lon p))
                             (radians (get_lat q)) (radians (get_lon q))).
  lra.
Qed.

Lemma haversine_a_sym (p q : LatLon) : haversine_a p q = haversine_a q p.
Proof. rewrite !haversine_a_dot. lra. Qed.

Lemma spherical_distance_eq (p q : LatLon) :
  spherical_distance p q =
  Ok (EARTH_RADIUS_KM
      * (2 * atan2 (sqrt (haversine_a p q)) (sqrt (1 - haversine_a p q)))).
Proof.
  pose proof (haversine_a_range p q) as [H0 H1].
  unfold spherical_distance. fold (haversine_a p q).
  rewrite py_sqrt_ok by lra. cbn [bind].
  rewrite py_sqrt_ok by lra. reflexivity.
Qed.

(** The only exception of [spherical_distance] is that of a square
    root. *)
Lemma spherical_distance_raises (p q : LatLon) (e : exn) :
  spherical_distance p q = Raise e ->
  e = ValueError (Msg "math domain error").
Proof.
  unfold spherical_distance, py_sqrt.
  repeat match goal with
         | |- context [Rlt_dec ?a ?b] => destruct (Rlt_dec a b)
         end; cbn [bind]; intros H; try discriminate;
    injection H as <-; reflexivity.
Qed.

End Haversine.

(** C9. The great-circle distance is symmetric: for all positions [a]
    and [b], [spherical_distance a b] and [spherical_distance b a] have
    the same outcome, the same number of kilometres. *)
Theorem spherical_distance_symmetric (a b : LatLon) :
  spherical_distance a b = spherical_distance b a.
Proof.
  unfold spherical_distance.
  replace (sin ((radians (get_lat b) - radians (get_lat a)) / 2) ^ 2)
    with (sin ((radians (get_lat a) - radians (get_lat b)) / 2) ^ 2).
  - replace (sin ((radians (get_lon b) - radians (get_lon a)) / 2) ^ 2)
      with (sin ((radians (get_lon a) - radians (get_lon b)) / 2) ^ 2).
    + rewrite (Rmult_comm (cos (radians (get_lat a)))). reflexivity.
    + replace ((radians (get_lon a) - radians (get_lon b)) / 2)
        with (- ((radians (get_lon b) - radians (get_lon a)) / 2)) by lra.
      rewrite sin_neg. ring.
  - replace ((radians (get_lat a) - radians (get_lat b)) / 2)
      with (- ((radians (get_lat b) - radians (get_lat a)) / 2)) by lra.
    rewrite sin_neg. ring.
Qed.

(* ===================================================================== *)
(** * Conversions between positions and vectors *)
(* ===================================================================== *)

Section Conversions.

Lemma to_rectangular_unit (p : LatLon) :
  exists x y z, to_rectangular p = [x; y; z] /\ x ^ 2 + y ^ 2 + z ^ 2 = 1.
Proof.
  unfold to_rectangular. do 3 eexists. split; [reflexivity |].
  pose proof (sin_cos_sq (radians (get_lat p))).
  pose proof (sin_cos_sq (radians (get_lon p))).
  set (a := cos (radians (get_lat p))) in *.
  set (b := sin (radians (get_lat p))) in *.
  set (u := cos (radians (get_lon p))) in *.
  set (v := sin (radians (get_lon p))) in *.
  replace ((a * u) ^ 2 + (a * v) ^ 2 + b ^ 2)
    with (a * a * (v * v + u * u) + b * b) by ring.
  rewrite H0. lra.
Qed.

Lemma sum_sq_nonneg (x y z : R) : 0 <= x ^ 2 + y ^ 2 + z ^ 2.
Proof. pose proof (pow2_ge_0 x). pose proof (pow2_ge_0 y).
       pose proof (pow2_ge_0 z). lra. Qed.

(** [to_latlon] on a vector that is not the zero vector. *)
Lemma to_latlon_nonzero (x y z : R) :
  x ^ 2 + y ^ 2 + z ^ 2 <> 0 ->
  let m := sqrt (x ^ 2 + y ^ 2 + z ^ 2) in
  to_latlon [x; y; z] =
  Ok (mkLatLon
        (degrees (atan2 (z / m) (sqrt ((x / m) ^ 2 + (y / m) ^ 2))))
        (degrees (atan2 (y / m) (x / m)))).
Proof.
  intros Hnz m.
  pose proof (sum_sq_nonneg x y z) as Hge.
  assert (Hm : m <> 0).
  { unfold m. intros E. apply sqrt_eq_0 in E; [contradiction | exact Hge]. }
  unfold to_latlon. cbn [unpack3 bind].
  rewrite py_sqrt_ok by exact Hge. cbn [bind]. fold m.
  destruct (Req_dec_T m 0) as [E | _]; [contradiction |].
  rewrite !py_div_ok by exact Hm. cbn [bind].
  rewrite py_sqrt_ok.
  - reflexivity.
  - pose proof (pow2_ge_0 (x / m)). pose proof (pow2_ge_0 (y / m)). lra.
Qed.

(** [to_latlon] on the zero vector raises. *)
Lemma to_latlon_zero (x y z : R) :
  x ^ 2 + y ^ 2 + z ^ 2 = 0 ->
  to_latlon [x; y; z] =
  Raise (ValueError (Msg "Zero vector cannot be converted to LatLon")).
Proof.
  intros Hz. unfold to_latlon. cbn [unpack3 bind].
  rewrite Hz, py_sqrt_ok by lra. cbn [bind]. rewrite sqrt_0.
  destruct (Req_dec_T 0 0) as [_ | N]; [reflexivity | contradiction].
Qed.

End Conversions.


(** [spherical_distance (LatLon 8 360) (LatLon (-8) 180)] in binary64.
    The two positions are antipodal.  The library returns
    [0.019369152030840567] for [sin(dlat/2)**2], [0.9902680687415704] for
    both cosines and [1.0] for [sin(dlon/2)**2]; the haversine term comes
    out as [1.0000000000000002], [1 - a] is negative and [sqrt] raises.
    The same values, and the same exception, are met with the longitude
    0 in place of 360. *)
Example haversine_term_above_one :
  Binary64.haversine_roots
    (SpecFloat.S754_finite false 5582777975588868 (-58))
    (SpecFloat.S754_finite false 8919541810762874 (-53))
    (SpecFloat.S754_finite false 8919541810762874 (-53))
    (Binary64.of_int 1)
  = Raise (ValueError (Msg "math domain error")).
Proof. vm_compute. reflexivity. Qed.

(** From 90 degrees east to 90 degrees west on the equator the library
    returns [0.0], [1.0], [1.0] and [1.0]: the haversine term is [1.0]
    and [atan2] is called on [1.0] and [0.0]. *)
Example haversine_term_one :
  Binary64.haversine_roots (Binary64.of_int 0) (Binary64.of_int 1)
                           (Binary64.of_int 1) (Binary64.of_int 1)
  = Ok (Binary64.of_int 1, Binary64.of_int 0).
Proof. vm_compute. reflexivity. Qed.

(* ===================================================================== *)
(** * Construction-time validation *)
(* ===================================================================== *)

(** C6. Construction rejects bad input with [ValueError]: a [Sight]
    whose declination is outside [[-90, 90]] (the declination message),
    a [Sight] whose observed altitude is outside [(0, 90)] (some
    [ValueError], whichever check of the constructor fires first; the
    altitude message when the declination and the time string are
    accepted), and a [SightCollection] of fewer than two sights.  In each
    case the constructor itself returns the exception. *)
Theorem construction_rejects_invalid
    (fromisoformat : string -> option datetime)
    (ra dec altitude : R) (time : string)
    (observer_height temperature pressure : R)
    (apply_refraction apply_dip : bool) (sights : list Sight) :
  (~ (-90 <= dec <= 90) ->
     Sight_init fromisoformat ra dec altitude time observer_height
                temperature pressure apply_refraction apply_dip
     = Raise (ValueError
                (MsgGot "Declination must be between -90 and +90, got " dec)))
  /\ (~ (0 < altitude < 90) ->
      exists m,
        Sight_init fromisoformat ra dec altitude time observer_height
                   temperature pressure apply_refraction apply_dip
        = Raise (ValueError m))
  /\ (~ (0 < altitude < 90) -> -90 <= dec <= 90 ->
      fromisoformat time <> None ->
      Sight_init fromisoformat ra dec altitude time observer_height
                 temperature pressure apply_refraction apply_dip
      = Raise (ValueError
                 (MsgGot "Altitude must be between 0 and 90 degrees, got "
                         altitude)))
  /\ ((List.length sights < 2)%nat ->
      SightCollection_init sights
      = Raise (ValueError (Msg "SightCollection requires at least 2 sights"))).
Proof.
  split; [| split; [| split]].
  - intros Hdec. unfold Sight_init.
    destruct (Rle_dec (-90) dec) as [Hl | Hl].
    + rewrite (Rleb_true _ _ Hl), (Rleb_false dec 90) by lra. reflexivity.
    + rewrite (Rleb_false (-90) dec) by lra. reflexivity.
  - intros Halt. unfold Sight_init.
    destruct (negb (Rleb (-90) dec && Rleb dec 90)); [eexists; reflexivity |].
    unfold parse_time. destruct (fromisoformat time); cbn [bind];
      [| eexists; reflexivity].
    destruct (Rlt_dec 0 altitude) as [Hl | Hl].
    + rewrite (Rltb_true _ _ Hl), (Rltb_false altitude 90) by lra.
      eexists; reflexivity.
    + rewrite (Rltb_false 0 altitude) by lra. eexists; reflexivity.
  - intros Halt [D1 D2] Hp. unfold Sight_init.
    rewrite (Rleb_true _ _ D1), (Rleb_true _ _ D2). cbn [andb negb].
    unfold parse_time. destruct (fromisoformat time); [| contradiction].
    cbn [bind].
    destruct (Rlt_dec 0 altitude) as [Hl | Hl].
    + rewrite (Rltb_true _ _ Hl), (Rltb_false altitude 90) by lra.
      reflexivity.
    + rewrite (Rltb_false 0 altitude) by lra. reflexivity.
  - intros Hlen. unfold SightCollection_init.
    destruct (Nat.ltb_spec (List.length sights) 2); [reflexivity | lia].
Qed.

(** The examples of the design document: declination 95, altitude 0, a
    collection of one sight. *)
Lemma construction_rejects_invalid_witness :
  Sight_init fromisoformat_seconds 0 95 45 "2024-05-05T22:00:00" 0 10 101
             true true
  = Raise (ValueError
             (MsgGot "Declination must be between -90 and +90, got " 95))
  /\ Sight_init fromisoformat_seconds 0 10 0 "2024-05-05T22:00:00" 0 10 101
                true true
     = Raise (ValueError
                (MsgGot "Altitude must be between 0 and 90 degrees, got " 0))
  /\ SightCollection_init
       [mkSight 0 0 j2000 45 0 10 101 45 0]
     = Raise (ValueError (Msg "SightCollection requires at least 2 sights")).
Proof.
  split; [| split].
  - apply (construction_rejects_invalid fromisoformat_seconds 0 95 45
             "2024-05-05T22:00:00" 0 10 101 true true []). lra.
  - apply (construction_rejects_invalid fromisoformat_seconds 0 10 0
             "2024-05-05T22:00:00" 0 10 101 true true []);
      [lra | lra | discriminate].
  - apply (construction_rejects_invalid fromisoformat_seconds 0 0 0
             "" 0 0 0 true true [mkSight 0 0 j2000 45 0 10 101 45 0]).
    simpl. lia.
Defined.

(* ===================================================================== *)
(** * Hour angles *)
(* ===================================================================== *)

Section HourAngle.

Lemma py_mod_range (x y : R) : 0 < y -> 0 <= py_mod x y < y.
Proof.
  intros Hy. unfold py_mod.
  pose proof (Zfloor_bound (x / y)) as [Hl Hu].
  set (k := IZR (Zfloor (x / y))) in *.
  assert (E : x = x / y * y) by (field; lra).
  split.
  - assert (k * y <= x / y * y) by (apply Rmult_le_compat_r; lra). lra.
  - assert (x / y * y < (k + 1) * y) by (apply Rmult_lt_compat_r; lra). lra.
Qed.

Lemma py_mod_eq (x y : R) (k : Z) :
  0 < y -> IZR k * y <= x < (IZR k + 1) * y -> py_mod x y = x - IZR k * y.
Proof.
  intros Hy [Hl Hu]. unfold py_mod.
  rewrite (Zfloor_eq k); [reflexivity |].
  split.
  - apply (Rmult_le_reg_r y); [exact Hy |].
    replace (x / y * y) with x by (field; lra). exact Hl.
  - apply (Rmult_lt_reg_r y); [exact Hy |].
    replace (x / y * y) with x by (field; lra). exact Hu.
Qed.

Lemma py_mod_normalized360 (x : R) : normalized360 x (py_mod x 360).
Proof.
  split.
  - apply py_mod_range. lra.
  - exists (Zfloor (x / 360)). unfold py_mod. lra.
Qed.

(** Normalisation into [[0, 360)] has one result only. *)
Lemma normalized360_unique (x y1 y2 : R) :
  normalized360 x y1 -> normalized360 x y2 -> y1 = y2.
Proof.
  intros [R1 [k1 E1]] [R2 [k2 E2]].
  assert (D : y1 - y2 = IZR (k2 - k1) * 360) by (rewrite minus_IZR; lra).
  assert (K : (k2 - k1 = 0)%Z).
  { assert (-1 < IZR (k2 - k1) < 1) as [Hl Hu] by (split; nra).
    apply lt_IZR in Hl. apply lt_IZR in Hu. lia. }
  rewrite K in D. lra.
Qed.

Lemma sub_microseconds_naive (t1 t2 : datetime) :
  tzinfo t1 = None -> tzinfo t2 = None ->
  sub_microseconds t1 t2
  = Ok (((toordinal t1 - toordinal t2) * 86400
         + (second t1 + minute t1 * 60 + hour t1 * 3600
            - (second t2 + minute t2 * 60 + hour t2 * 3600))) * 1000000
        + (microsecond t1 - microsecond t2))%Z.
Proof. intros H1 H2. unfold sub_microseconds. rewrite H1, H2. reflexivity. Qed.

Lemma calculate_gha_naive (ra : R) (t : datetime) :
  tzinfo t = None -> is_ok (calculate_gha ra t).
Proof.
  intros H. unfold calculate_gha, days_since_j2000, total_seconds_between.
  rewrite sub_microseconds_naive by (exact H || reflexivity).
  cbn [bind]. eexists. reflexivity.
Qed.

Lemma calculate_gha_aware (ra : R) (t : datetime) (offset : Z) :
  tzinfo t = Some offset ->
  calculate_gha ra t
  = Raise (TypeError
             (Msg "can't subtract offset-naive and offset-aware datetimes")).
Proof.
  intros H. unfold calculate_gha, days_since_j2000, total_seconds_between,
    sub_microseconds.
  rewrite H. reflexivity.
Qed.

Lemma calculate_gha_ok_naive (ra : R) (t : datetime) (g : R) :
  calculate_gha ra t = Ok g -> tzinfo t = None.
Proof.
  destruct (tzinfo t) as [offset |] eqn:H; [| reflexivity].
  rewrite (calculate_gha_aware ra t offset H). discriminate.
Qed.

Lemma calculate_gha_range (ra : R) (t : datetime) (g : R) :
  calculate_gha ra t = Ok g -> 0 <= g < 360.
Proof.
  unfold calculate_gha.
  destruct (days_since_j2000 t) as [d | e]; cbn [bind]; [| discriminate].
  intros E. injection E as <-. apply py_mod_range. lra.
Qed.

End HourAngle.

Section Calendar.

Local Open Scope Z_scope.

Lemma days_before_year_count (n : nat) :
  days_before_year (Z.of_nat n + 1) = days_of_years n.
Proof.
  induction n as [| n IH]; [reflexivity |].
  cbn [days_of_years]. rewrite <- IH.
  unfold days_before_year, year_length, gregorian_leap.
  rewrite Nat2Z.inj_succ. unfold Z.succ.
  set (y := Z.of_nat n + 1).
  assert (Hy : 1 <= y) by (unfold y; lia).
  replace (y + 1 - 1) with y by lia.
  destruct (Z.eqb_spec (y mod 4) 0) as [H4 | H4];
    destruct (Z.eqb_spec (y mod 100) 0) as [H100 | H100];
    destruct (Z.eqb_spec (y mod 400) 0) as [H400 | H400];
    cbn [andb orb negb];
    Z.div_mod_to_equations; lia.
Qed.

Lemma days_before_month_count (y m : Z) :
  1 <= m <= 12 ->
  days_before_month y m
  = fold_right Z.add 0 (firstn (Z.to_nat (m - 1)) (month_lengths y)).
Proof.
  intros H.
  assert (C : m = 1 \/ m = 2 \/ m = 3 \/ m = 4 \/ m = 5 \/ m = 6 \/ m = 7
              \/ m = 8 \/ m = 9 \/ m = 10 \/ m = 11 \/ m = 12) by lia.
  unfold days_before_month, month_lengths, is_leap, gregorian_leap.
  repeat (destruct C as [-> | C]; [
    cbn [Z.to_nat Z.sub Z.add Z.opp Z.pos_sub Pos.to_nat Pos.iter_op
         Nat.add firstn fold_right nth DAYS_BEFORE_MONTH Z.ltb Z.compare
         Pos.compare Pos.compare_cont andb Pos.pred_double Z.succ_double
         Z.pred_double Z.double];
    destruct ((y mod 4 =? 0) && (negb (y mod 100 =? 0) || (y mod 400 =? 0)));
    reflexivity |]).
  subst m. 
  cbn [Z.to_nat Z.sub Z.add Z.opp Z.pos_sub Pos.to_nat Pos.iter_op
       Nat.add firstn fold_right nth DAYS_BEFORE_MONTH Z.ltb Z.compare
       Pos.compare Pos.compare_cont andb Pos.pred_double Z.succ_double
       Z.pred_double Z.double].
  destruct ((y mod 4 =? 0) && (negb (y mod 100 =? 0) || (y mod 400 =? 0)));
    reflexivity.
Qed.

(** The ordinal of the run-time is the day counted out. *)
Lemma toordinal_day_number (t : datetime) :
  1 <= year t -> 1 <= month t <= 12 ->
  toordinal t = day_number (year t) (month t) (day t).
Proof.
  intros Hy Hm. unfold toordinal, day_number.
  rewrite days_before_month_count by exact Hm.
  rewrite <- days_before_year_count.
  rewrite Z2Nat.id by lia.
  replace (year t - 1 + 1) with (year t) by lia. reflexivity.
Qed.

End Calendar.

Lemma days_since_j2000_elapsed (t : datetime) :
  (1 <= year t)%Z -> (1 <= month t <= 12)%Z -> tzinfo t = None ->
  days_since_j2000 t = Ok (days_since_epoch t).
Proof.
  intros Hy Hm Hn. unfold days_since_j2000, total_seconds_between.
  rewrite sub_microseconds_naive by (exact Hn || reflexivity).
  cbn [bind]. f_equal.
  rewrite (toordinal_day_number t Hy Hm).
  rewrite (toordinal_day_number j2000) by (cbn; lia).
  unfold days_since_epoch. cbn [year month day hour minute second
    microsecond j2000].
  rewrite plus_IZR, mult_IZR, minus_IZR, plus_IZR, mult_IZR, minus_IZR.
  rewrite <- !minus_IZR.
  set (dn := (day_number (year t) (month t) (day t)
              - day_number 2000 1 1)%Z).
  rewrite !minus_IZR, !plus_IZR, !mult_IZR. cbn [IZR IPR IPR_2].
  field.
Qed.

(** C8, as the code has it.  For a naive observation time the Greenwich
    hour angle follows the stated steps: with [days] the days elapsed
    since 2000-01-01T12:00:00, counted on the calendar, the sidereal time
    is [280.46061837 + 360.98564736629 * days] plus 15 degrees for each
    hour of the time of day, reduced by whole turns to a value between 0
    and 360; the result is that angle minus the right ascension, again
    reduced by whole turns to a value between 0 and 360. *)
Theorem calculate_gha_steps (ra : R) (t : datetime) :
  (1 <= year t)%Z -> (1 <= month t <= 12)%Z -> tzinfo t = None ->
  exists gmst gha,
    calculate_gha ra t = Ok gha
    /\ reduced360
         (280.46061837 + 360.98564736629 * days_since_epoch t
          + 15 * hours_of_day t) gmst
    /\ reduced360 (gmst - ra) gha.
Proof.
  intros Hy Hm Hn. unfold calculate_gha.
  rewrite (days_since_j2000_elapsed t Hy Hm Hn). cbn [bind].
  fold (hours_of_day t).
  set (x := 280.46061837 + 360.98564736629 * days_since_epoch t
            + hours_since_midnight t * 15).
  exists (py_mod x 360), (py_mod (py_mod x 360 - ra) 360).
  split; [reflexivity |].
  assert (Red : forall y, reduced360 y (py_mod y 360)).
  { intros y. pose proof (py_mod_range y 360). split; [lra |].
    exists (Zfloor (y / 360)). reflexivity. }
  split; [| apply Red].
  replace (280.46061837 + 360.98564736629 * days_since_epoch t
           + 15 * hours_of_day t) with x
    by (unfold x, hours_of_day, hours_since_midnight; ring).
  apply Red.
Qed.

Lemma calculate_gha_steps_witness :
  exists gmst gha,
    calculate_gha 101.2875 (mkDatetime 2024 5 5 22 0 0 0 None) = Ok gha
    /\ reduced360
         (280.46061837
          + 360.98564736629
            * days_since_epoch (mkDatetime 2024 5 5 22 0 0 0 None)
          + 15 * hours_of_day (mkDatetime 2024 5 5 22 0 0 0 None)) gmst
    /\ reduced360 (gmst - 101.2875) gha.
Proof.
  apply (calculate_gha_steps 101.2875 (mkDatetime 2024 5 5 22 0 0 0 None));
    cbn [year month tzinfo]; [lia | lia | reflexivity].
Defined.

(** At two inputs the hour angle is not computed as C8 states it.  For
    an aware observation time, here the epoch itself given in UTC, the
    subtraction from the naive epoch raises [TypeError].  And in binary64
    the remainder can be 360 itself: at the epoch and for the right
    ascension 100.46061837000003 the difference [gmst - ra] is a
    negative number so small that adding 360 to its remainder rounds to
    360. *)
Lemma calculate_gha_claim_fails :
  calculate_gha 0 (mkDatetime 2000 1 1 12 0 0 0 (Some 0%Z))
  = Raise (TypeError
             (Msg "can't subtract offset-naive and offset-aware datetimes"))
  /\ Binary64.calculate_gha (Binary64.literal 10046061837000003 14) j2000
     = Ok (Binary64.of_int 360).
Proof. split; [reflexivity | vm_compute; reflexivity]. Qed.

Example days_since_epoch_ex :
  days_since_epoch (mkDatetime 2024 5 5 22 0 0 0 None) = 8891 + 10 / 24.
Proof.
  unfold days_since_epoch.
  cbn [year month day hour minute second microsecond].
  replace (day_number 2024 5 5 - day_number 2000 1 1)%Z with 8891%Z
    by (vm_compute; reflexivity).
  replace (22 * 3600 + 0 * 60 + 0 - 12 * 3600)%Z with 36000%Z by reflexivity.
  lra.
Qed.

(** The local hour angle for the hour angle [0.0] at the longitude
    [-1e-20] is [360.0]. *)
Example binary64_lha_360 :
  Binary64.calculate_lha (Binary64.of_int 0) (Binary64.literal (-1) 20)
  = Binary64.of_int 360.
Proof. vm_compute. reflexivity. Qed.

Example binary64_gha_ex :
  Binary64.calculate_gha (Binary64.literal 1012875 4)
                         (mkDatetime 2024 5 5 22 0 0 0 None)
  = Ok (SpecFloat.S754_finite false 8862878372737844 (-47)).
Proof. vm_compute. reflexivity. Qed.

(* ===================================================================== *)
(** * Geographic position of a body *)
(* ===================================================================== *)

Section GeographicPosition.

Lemma add_while_below_stop (x : R) : -180 <= x -> add_while_below x = x.
Proof.
  intros H. simp add_while_below.
  destruct (Rlt_dec x (-180)); [lra | reflexivity].
Qed.

Lemma add_while_below_step (x : R) :
  x < -180 -> add_while_below x = add_while_below (x + 360).
Proof.
  intros H. rewrite add_while_below_equation_1.
  destruct (Rlt_dec x (-180)); [reflexivity | lra].
Qed.

Lemma sub_while_above_stop (x : R) : x <= 180 -> sub_while_above x = x.
Proof.
  intros H. simp sub_while_above.
  destruct (Rlt_dec 180 x); [lra | reflexivity].
Qed.

Lemma sub_while_above_step (x : R) :
  180 < x -> sub_while_above x = sub_while_above (x - 360).
Proof.
  intros H. rewrite sub_while_above_equation_1.
  destruct (Rlt_dec 180 x); [reflexivity | lra].
Qed.

(** A sight that comes out of the constructor has its hour angle in
    [[0, 360)] and its declination in [[-90, 90]]. *)
Lemma Sight_init_invariant
    (fromisoformat : string -> option datetime)
    (ra0 dec0 altitude : R) (iso : string)
    (height temp press : R)
    (apply_refraction apply_dip : bool) (s : Sight) :
  Sight_init fromisoformat ra0 dec0 altitude iso height
             temp press apply_refraction apply_dip = Ok s ->
  0 <= gha s < 360 /\ -90 <= dec s <= 90
  /\ 0 < observed_altitude s < 90.
Proof.
  unfold Sight_init.
  destruct (Rle_dec (-90) dec0) as [Hl | Hl];
    [rewrite (Rleb_true _ _ Hl) | rewrite Rleb_false by lra; discriminate].
  destruct (Rle_dec dec0 90) as [Hu | Hu];
    [rewrite (Rleb_true _ _ Hu) | rewrite Rleb_false by lra; discriminate].
  cbn [andb negb].
  destruct (parse_time fromisoformat iso) as [t | e]; [| discriminate].
  cbn [bind].
  destruct (Rlt_dec 0 altitude) as [Al | Al];
    [rewrite (Rltb_true _ _ Al) | rewrite Rltb_false by lra; discriminate].
  destruct (Rlt_dec altitude 90) as [Au | Au];
    [rewrite (Rltb_true _ _ Au) | rewrite Rltb_false by lra; discriminate].
  cbn [andb negb].
  match goal with |- bind ?c _ = _ -> _ => destruct c as [c1 | e] end;
    [| discriminate].
  cbn [bind].
  match goal with |- bind ?c _ = _ -> _ => destruct c as [c2 | e] end;
    [| discriminate].
  cbn [bind].
  destruct (calculate_gha ra0 t) as [g | e] eqn:G; cbn [bind];
    [| discriminate].
  intros E. injection E as <-. cbn.
  split; [apply (calculate_gha_range ra0 t g G) | lra].
Qed.

End GeographicPosition.

(** C7 (as the code has it). For a sight whose hour angle lies in
    [[0, 360)], [get_gp] returns the declination as latitude and, as
    longitude, [- gha] when [gha <= 180] and [360 - gha] otherwise: the
    longitude lies in [[-180, 180)]. *)
Theorem get_gp_longitude (s : Sight) :
  0 <= gha s < 360 ->
  get_lat (get_gp s) = dec s
  /\ get_lon (get_gp s) = (if Rle_dec (gha s) 180 then - gha s
                           else 360 - gha s)
  /\ -180 <= get_lon (get_gp s) < 180.
Proof.
  intros [H0 H360]. unfold get_gp, get_lat, get_lon. cbn [lat lon].
  split; [reflexivity |].
  destruct (Rle_dec (gha s) 180) as [Hle | Hgt].
  - rewrite add_while_below_stop by lra.
    rewrite sub_while_above_stop by lra. lra.
  - rewrite add_while_below_step by lra.
    rewrite add_while_below_stop by lra.
    rewrite sub_while_above_stop by lra. lra.
Qed.

Section ExampleSights.

Lemma parse_epoch_iso : parse_time fromisoformat_seconds epoch_iso = Ok j2000.
Proof. reflexivity. Qed.

Lemma calculate_gha_epoch (ra : R) :
  calculate_gha ra j2000 = Ok (py_mod (100.46061837 - ra) 360).
Proof.
  unfold calculate_gha, days_since_j2000, total_seconds_between,
    hours_since_midnight.
  replace (sub_microseconds j2000 j2000) with (Ok 0%Z) by reflexivity.
  cbn [bind hour minute second j2000].
  match goal with |- Ok (py_mod (py_mod ?x 360 - _) 360) = _ =>
    rewrite (py_mod_eq x 360 1) by lra
  end.
  f_equal. f_equal. lra.
Qed.

Lemma plain_sight_eq (ra dec altitude : R) :
  -90 <= dec <= 90 -> 0 < altitude < 90 ->
  plain_sight ra dec altitude =
  Ok (mkSight (py_mod ra 360) dec j2000 altitude 0 10 101 altitude
              (py_mod (100.46061837 - ra) 360)).
Proof.
  intros [D1 D2] [A1 A2]. unfold plain_sight, Sight_init.
  rewrite (Rleb_true _ _ D1), (Rleb_true _ _ D2).
  rewrite (Rltb_true _ _ A1), (Rltb_true _ _ A2).
  rewrite parse_epoch_iso. cbn [andb negb bind].
  rewrite calculate_gha_epoch. reflexivity.
Qed.

End ExampleSights.

(** The sight of a body on the meridian of Greenwich. *)
Lemma get_gp_longitude_witness :
  exists s,
    plain_sight 100.46061837 0 45 = Ok s
    /\ get_lat (get_gp s) = 0 /\ get_lon (get_gp s) = 0.
Proof.
  eexists. split; [apply plain_sight_eq; lra |].
  match goal with |- get_lat (get_gp ?s) = _ /\ _ =>
    assert (G : gha s = 0)
      by (cbn [gha]; rewrite (py_mod_eq _ 360 0) by lra; lra);
    destruct (get_gp_longitude s) as (L1 & L2 & _);
      [rewrite G; lra |];
    rewrite L1, L2, G
  end.
  split; [reflexivity |].
  destruct (Rle_dec 0 180); lra.
Defined.

(** C7, the claim as stated fails: the sight of a body with right
    ascension 280.46061837 taken at 2000-01-01T12:00:00 has hour angle
    180, and [get_gp] gives it the longitude -180, outside [(-180, 180]]. *)
Lemma longitude_minus_180_reached :
  exists s,
    plain_sight 280.46061837 0 45 = Ok s
    /\ 0 <= gha s < 360
    /\ get_lon (get_gp s) = -180
    /\ ~ (-180 < get_lon (get_gp s) <= 180).
Proof.
  eexists. split; [apply plain_sight_eq; lra |].
  match goal with |- 0 <= gha ?s < 360 /\ _ =>
    assert (G : gha s = 180)
      by (cbn [gha]; rewrite (py_mod_eq _ 360 (-1)) by lra; lra)
  end.
  assert (L : forall s : Sight, gha s = 180 -> get_lon (get_gp s) = -180).
  { intros s E. unfold get_gp, get_lon. cbn [lon]. rewrite E.
    rewrite add_while_below_stop by lra.
    rewrite sub_while_above_stop by lra. reflexivity. }
  rewrite (L _ G). rewrite G. repeat split; lra.
Qed.

(* ===================================================================== *)
(** * Circle-of-position solver *)
(* ===================================================================== *)

Section CircleIntersection.

Lemma normalize_vect_eval (a b c m a' b' c' : R) :
  a ^ 2 + b ^ 2 + c ^ 2 = m * m -> 0 < m ->
  a = a' * m -> b = b' * m -> c = c' * m ->
  normalize_vect [a; b; c] = Ok [a'; b'; c'].
Proof.
  intros Hm Hpos Ha Hb Hc. unfold normalize_vect.
  cbn [map py_sum fold_left].
  replace (0 + a ^ 2 + b ^ 2 + c ^ 2) with (Rsqr m) by (unfold Rsqr; lra).
  rewrite py_sqrt_ok by apply Rle_0_sqr. cbn [bind].
  rewrite sqrt_Rsqr by lra.
  destruct (Req_dec_T m 0) as [E | _]; [lra |].
  cbn [mapM]. rewrite !py_div_ok by lra. cbn [bind].
  f_equal. f_equal; [| f_equal; [| f_equal]]; field_simplify_eq; lra.
Qed.

Lemma normalize_vect_zero :
  normalize_vect [0; 0; 0] = Ok [0; 0; 0].
Proof.
  unfold normalize_vect. cbn [map py_sum fold_left].
  replace (0 + 0 ^ 2 + 0 ^ 2 + 0 ^ 2) with 0 by lra.
  rewrite py_sqrt_ok by lra. cbn [bind]. rewrite sqrt_0.
  destruct (Req_dec_T 0 0) as [_ | N]; [reflexivity | contradiction].
Qed.

Lemma to_latlon_unit (x y z : R) :
  x ^ 2 + y ^ 2 + z ^ 2 = 1 ->
  to_latlon [x; y; z] =
  Ok (mkLatLon (degrees (atan2 z (sqrt (x ^ 2 + y ^ 2))))
               (degrees (atan2 y x))).
Proof.
  intros H. rewrite to_latlon_nonzero by lra. cbv zeta.
  rewrite H, sqrt_1. unfold Rdiv. rewrite Rinv_1, !Rmult_1_r. reflexivity.
Qed.

(** The solver up to its three classification tests. *)
Lemma circle_intersection_classified
    (gp1 : LatLon) (dist1 : R) (gp2 : LatLon) (dist2 : R) :
  no_intersection_class (dist1 / EARTH_RADIUS_KM) (dist2 / EARTH_RADIUS_KM)
                        (angular_separation gp1 gp2) ->
  calculate_circle_intersection gp1 dist1 gp2 dist2 = Ok None.
Proof.
  intros Hc. unfold calculate_circle_intersection.
  unfold to_rectangular at 1 2.
  cbn [mapM bind idx nth_error range seq Nat.sub].
  match goal with |- context [py_acos ?x] =>
    change x with (py_max (-1) (py_min 1
      (dot_product (to_rectangular gp1) (to_rectangular gp2))))
  end.
  rewrite py_acos_ok by apply clamp_bounds. cbn [bind].
  fold (angular_separation gp1 gp2).
  set (d := angular_separation gp1 gp2) in *.
  set (r1 := dist1 / EARTH_RADIUS_KM) in *.
  set (r2 := dist2 / EARTH_RADIUS_KM) in *.
  unfold Rltb.
  destruct (Rlt_dec (r1 + r2) d) as [|N1]; [reflexivity |].
  destruct (Rlt_dec d (Rabs (r1 - r2))) as [|N2]; [reflexivity |].
  destruct Hc as [H | [H | [H0 H]]]; [lra | lra |].
  destruct (Req_dec_T d 0) as [|N3]; [| contradiction].
  destruct (Rlt_dec 1e-10 (Rabs (r1 - r2))) as [|N4]; [reflexivity | lra].
Qed.

(** Past the three tests the solver is its second half. *)
Lemma circle_intersection_unclassified
    (gp1 : LatLon) (dist1 : R) (gp2 : LatLon) (dist2 : R) :
  ~ no_intersection_class (dist1 / EARTH_RADIUS_KM) (dist2 / EARTH_RADIUS_KM)
                          (angular_separation gp1 gp2) ->
  calculate_circle_intersection gp1 dist1 gp2 dist2 =
  intersection_points (to_rectangular gp1) (to_rectangular gp2)
    (dist1 / EARTH_RADIUS_KM) (dist2 / EARTH_RADIUS_KM)
    (angular_separation gp1 gp2).
Proof.
  intros Hc. unfold calculate_circle_intersection.
  unfold to_rectangular at 1 2.
  cbn [mapM bind idx nth_error range seq Nat.sub].
  match goal with |- context [py_acos ?x] =>
    change x with (py_max (-1) (py_min 1
      (dot_product (to_rectangular gp1) (to_rectangular gp2))))
  end.
  rewrite py_acos_ok by apply clamp_bounds. cbn [bind].
  fold (angular_separation gp1 gp2).
  unfold no_intersection_class in Hc.
  set (d := angular_separation gp1 gp2) in *.
  set (r1 := dist1 / EARTH_RADIUS_KM) in *.
  set (r2 := dist2 / EARTH_RADIUS_KM) in *.
  unfold Rltb.
  destruct (Rlt_dec (r1 + r2) d) as [L1|N1]; [exfalso; apply Hc; left; lra |].
  destruct (Rlt_dec d (Rabs (r1 - r2))) as [L2|N2];
    [exfalso; apply Hc; right; left; lra |].
  destruct (Req_dec_T d 0) as [E|N3]; [| reflexivity].
  destruct (Rlt_dec 1e-10 (Rabs (r1 - r2))) as [L4|N4];
    [exfalso; apply Hc; right; right; split; lra | reflexivity].
Qed.

Lemma intersection_points_zero_divisor (vec1 vec2 : list R) (r1 r2 d : R) :
  sin r2 * sin d = 0 ->
  intersection_points vec1 vec2 r1 r2 d = Raise ZeroDivisionError.
Proof.
  intros H. unfold intersection_points.
  rewrite (py_div_zero _ _ H). reflexivity.
Qed.

(** The second half never answers "no intersection": it returns two
    points or raises. *)
Lemma intersection_points_not_none (vec1 vec2 : list R) (r1 r2 d : R) :
  intersection_points vec1 vec2 r1 r2 d <> Ok None.
Proof.
  unfold intersection_points.
  repeat match goal with
         | |- bind ?c _ <> _ => destruct c; cbn [bind]; [| discriminate]
         end.
  discriminate.
Qed.

(** The test on coinciding centres is covered by the one before it. *)
Lemma no_intersection_class_two_tests (r1 r2 d : R) :
  no_intersection_class r1 r2 d <-> d > r1 + r2 \/ d < Rabs (r1 - r2).
Proof.
  unfold no_intersection_class. split.
  - intros [H | [H | [H0 H]]]; [left; exact H | right; exact H |].
    right. lra.
  - intros [H | H]; [left; exact H | right; left; exact H].
Qed.

Lemma no_intersection_class_dec (r1 r2 d : R) :
  {no_intersection_class r1 r2 d} + {~ no_intersection_class r1 r2 d}.
Proof.
  destruct (Rlt_dec (r1 + r2) d) as [H1 | H1].
  - left. left. lra.
  - destruct (Rlt_dec d (Rabs (r1 - r2))) as [H2 | H2].
    + left. right. left. exact H2.
    + right. rewrite no_intersection_class_two_tests. intros [H | H]; lra.
Qed.

(** The solver answers "no intersection" exactly on the three tests. *)
Lemma circle_intersection_none_iff
    (gp1 : LatLon) (dist1 : R) (gp2 : LatLon) (dist2 : R) :
  calculate_circle_intersection gp1 dist1 gp2 dist2 = Ok None <->
  no_intersection_class (dist1 / EARTH_RADIUS_KM) (dist2 / EARTH_RADIUS_KM)
                        (angular_separation gp1 gp2).
Proof.
  split.
  - intros H.
    destruct (no_intersection_class_dec (dist1 / EARTH_RADIUS_KM)
                (dist2 / EARTH_RADIUS_KM)
                (angular_separation gp1 gp2)) as [C | C];
      [exact C |].
    rewrite circle_intersection_unclassified in H by exact C.
    exfalso. exact (intersection_points_not_none _ _ _ _ _ H).
  - apply circle_intersection_classified.
Qed.

(** Evaluation of the second half, one step per hypothesis. *)
Lemma intersection_points_eval
    (x1 y1 z1 x2 y2 z2 r1 r2 d a px py pz : R) (i1 i2 : list R)
    (p1 p2 : LatLon) :
  sin r2 * sin d <> 0 ->
  acos (py_max (-1) (py_min 1 ((cos r1 - cos r2 * cos d) / (sin r2 * sin d))))
  = a ->
  normalize_vect [y1 * z2 - z1 * y2; z1 * x2 - x1 * z2; x1 * y2 - y1 * x2]
  = Ok [px; py; pz] ->
  normalize_vect [x1 * cos a + px * sin a * sin d;
                  y1 * cos a + py * sin a * sin d;
                  z1 * cos a + pz * sin a * sin d] = Ok i1 ->
  normalize_vect [x1 * cos a - px * sin a * sin d;
                  y1 * cos a - py * sin a * sin d;
                  z1 * cos a - pz * sin a * sin d] = Ok i2 ->
  to_latlon i1 = Ok p1 ->
  to_latlon i2 = Ok p2 ->
  intersection_points [x1; y1; z1] [x2; y2; z2] r1 r2 d = Ok (Some (p1, p2)).
Proof.
  intros Hs Ha Hp H1 H2 L1 L2. unfold intersection_points.
  rewrite py_div_ok by exact Hs. cbn [bind].
  rewrite py_acos_ok by apply clamp_bounds. cbn [bind]. rewrite Ha.
  cbn [idx nth_error bind]. rewrite Hp.
  cbn [mapM bind idx nth_error range seq Nat.sub].
  rewrite H1. cbn [bind]. rewrite H2. cbn [bind].
  rewrite L1. cbn [bind]. rewrite L2. reflexivity.
Qed.

End CircleIntersection.

(* ===================================================================== *)
(** * Worked examples *)
(* ===================================================================== *)

Section WorkedExamples.

Lemma get_gp_eq (s : Sight) :
  0 <= gha s < 360 ->
  get_gp s = mkLatLon (dec s) (if Rle_dec (gha s) 180 then - gha s
                               else 360 - gha s).
Proof.
  intros [H0 H360]. unfold get_gp. f_equal.
  destruct (Rle_dec (gha s) 180) as [Hle | Hgt].
  - rewrite add_while_below_stop by lra.
    rewrite sub_while_above_stop by lra. reflexivity.
  - rewrite add_while_below_step by lra.
    rewrite add_while_below_stop by lra.
    rewrite sub_while_above_stop by lra. lra.
Qed.

Lemma pole_sight_eq : pole_sight = Ok pole.
Proof.
  unfold pole_sight, Sight_init.
  rewrite !Rleb_true, !Rltb_true by lra.
  rewrite parse_epoch_iso. cbn [andb negb bind].
  unfold horizon_dip. destruct (Rle_dec 1 0) as [F | _]; [lra |].
  rewrite py_sqrt_ok by lra. cbn [bind]. rewrite sqrt_1.
  rewrite calculate_gha_epoch. cbn [bind].
  rewrite !(py_mod_eq _ 360 0) by lra.
  unfold pole. f_equal. f_equal; lra.
Qed.

Lemma meridian_sight_eq : meridian_sight = Ok meridian.
Proof.
  unfold meridian_sight. rewrite plain_sight_eq by lra.
  rewrite !(py_mod_eq _ 360 0) by lra.
  unfold meridian. f_equal. f_equal; lra.
Qed.

Lemma antimeridian_sight_eq : antimeridian_sight = Ok antimeridian.
Proof.
  unfold antimeridian_sight. rewrite plain_sight_eq by lra.
  rewrite (py_mod_eq 280.46061837 360 0) by lra.
  rewrite (py_mod_eq _ 360 (-1)) by lra.
  unfold antimeridian. f_equal. f_equal; lra.
Qed.

Lemma get_gp_pole : get_gp pole = mkLatLon 90 0.
Proof.
  rewrite get_gp_eq by (cbn; lra). cbn [gha dec pole].
  destruct (Rle_dec 0 180); [f_equal; lra | lra].
Qed.

Lemma get_gp_meridian : get_gp meridian = mkLatLon 0 0.
Proof.
  rewrite get_gp_eq by (cbn; lra). cbn [gha dec meridian].
  destruct (Rle_dec 0 180); [f_equal; lra | lra].
Qed.

Lemma get_gp_antimeridian : get_gp antimeridian = mkLatLon 0 (-180).
Proof.
  rewrite get_gp_eq by (cbn; lra). cbn [gha dec antimeridian].
  destruct (Rle_dec 180 180); [reflexivity | lra].
Qed.

Lemma radius_pole : get_distance_from_gp pole / EARTH_RADIUS_KM = PI / 2.
Proof.
  unfold get_distance_from_gp, radians, EARTH_RADIUS_KM.
  cbn [corrected_altitude pole]. lra.
Qed.

Lemma radius_meridian :
  get_distance_from_gp meridian / EARTH_RADIUS_KM = PI / 4.
Proof.
  unfold get_distance_from_gp, radians, EARTH_RADIUS_KM.
  cbn [corrected_altitude meridian]. lra.
Qed.

Lemma radius_antimeridian :
  get_distance_from_gp antimeridian / EARTH_RADIUS_KM = PI / 4.
Proof.
  unfold get_distance_from_gp, radians, EARTH_RADIUS_KM.
  cbn [corrected_altitude antimeridian]. lra.
Qed.

Lemma to_rectangular_eval (la lo f l : R) :
  radians la = f -> radians lo = l ->
  to_rectangular (mkLatLon la lo) = [cos f * cos l; cos f * sin l; sin f].
Proof. intros <- <-. reflexivity. Qed.

Lemma to_rectangular_90_0 : to_rectangular (mkLatLon 90 0) = [0; 0; 1].
Proof.
  rewrite (to_rectangular_eval 90 0 (PI / 2) 0) by (unfold radians; lra).
  rewrite cos_PI2, sin_PI2, cos_0, sin_0. repeat f_equal; lra.
Qed.

Lemma to_rectangular_0_0 : to_rectangular (mkLatLon 0 0) = [1; 0; 0].
Proof.
  rewrite (to_rectangular_eval 0 0 0 0) by (unfold radians; lra).
  rewrite cos_0, sin_0. repeat f_equal; lra.
Qed.

Lemma to_rectangular_0_m180 : to_rectangular (mkLatLon 0 (-180)) = [-1; 0; 0].
Proof.
  rewrite (to_rectangular_eval 0 (-180) 0 (- PI)) by (unfold radians; lra).
  rewrite cos_neg, sin_neg, cos_PI, sin_PI, cos_0, sin_0.
  repeat f_equal; lra.
Qed.

Lemma to_rectangular_0_90 : to_rectangular (mkLatLon 0 90) = [0; 1; 0].
Proof.
  rewrite (to_rectangular_eval 0 90 0 (PI / 2)) by (unfold radians; lra).
  rewrite cos_PI2, sin_PI2, cos_0, sin_0. repeat f_equal; lra.
Qed.

Lemma to_rectangular_0_m90 : to_rectangular (mkLatLon 0 (-90)) = [0; -1; 0].
Proof.
  rewrite (to_rectangular_eval 0 (-90) 0 (- (PI / 2)))
    by (unfold radians; lra).
  rewrite cos_neg, sin_neg, cos_PI2, sin_PI2, cos_0, sin_0.
  repeat f_equal; lra.
Qed.

Lemma degrees_PI2 : degrees (PI / 2) = 90.
Proof. unfold degrees. pose proof PI_RGT_0. field. lra. Qed.

Lemma atan2_0_1 : atan2 0 1 = 0.
Proof.
  unfold atan2. destruct (Rlt_dec 0 1); [| lra].
  replace (0 / 1) with 0 by lra. apply atan_0.
Qed.

Lemma atan2_1_0 : atan2 1 0 = PI / 2.
Proof.
  unfold atan2. destruct (Rlt_dec 0 0); [lra |].
  destruct (Rlt_dec 0 1); [reflexivity | lra].
Qed.

Lemma atan2_m1_0 : atan2 (-1) 0 = - (PI / 2).
Proof.
  unfold atan2. destruct (Rlt_dec 0 0); [lra |].
  destruct (Rlt_dec 0 (-1)); [lra |].
  destruct (Rlt_dec (-1) 0); [reflexivity | lra].
Qed.

Lemma to_latlon_0_1_0 : to_latlon [0; 1; 0] = Ok (mkLatLon 0 90).
Proof.
  rewrite to_latlon_unit by lra.
  replace (0 ^ 2 + 1 ^ 2) with 1 by lra.
  rewrite sqrt_1, atan2_0_1, atan2_1_0, degrees_PI2.
  unfold degrees. rewrite Rmult_0_l. reflexivity.
Qed.

Lemma to_latlon_0_m1_0 : to_latlon [0; -1; 0] = Ok (mkLatLon 0 (-90)).
Proof.
  rewrite to_latlon_unit by lra.
  replace (0 ^ 2 + (-1) ^ 2) with 1 by lra.
  rewrite sqrt_1, atan2_0_1, atan2_m1_0.
  f_equal. f_equal.
  - unfold degrees. lra.
  - pose proof degrees_PI2. unfold degrees in *. lra.
Qed.

End WorkedExamples.

Section PairExamples.

Lemma angular_separation_eval (gp1 gp2 : LatLon)
    (x1 y1 z1 x2 y2 z2 c d : R) :
  to_rectangular gp1 = [x1; y1; z1] -> to_rectangular gp2 = [x2; y2; z2] ->
  x1 * x2 + y1 * y2 + z1 * z2 = c -> -1 <= c <= 1 -> acos c = d ->
  angular_separation gp1 gp2 = d.
Proof.
  intros E1 E2 Hc Hr Hd. unfold angular_separation, dot_product.
  rewrite E1, E2. cbn [nth py_sum fold_left].
  replace (0 + x1 * x2 + y1 * y2 + z1 * z2) with c by lra.
  rewrite clamp_id by exact Hr. exact Hd.
Qed.

Lemma acos_m1 : acos (-1) = PI.
Proof. replace (-1) with (Ropp 1) by lra. rewrite acos_opp, acos_1. lra. Qed.

Lemma Rabs_PI4 : Rabs (PI / 2 - PI / 4) = PI / 4.
Proof. pose proof PI_RGT_0. rewrite Rabs_pos_eq; lra. Qed.

Lemma sin_PI4_pos : 0 < sin (PI / 4).
Proof.
  rewrite sin_PI4. apply Rdiv_lt_0_compat; [lra |].
  apply sqrt_lt_R0. lra.
Qed.

(** The pole sight against a sight whose unit vector is [(x, 0, 0)] with
    [x] equal to 1 or -1 and whose radius is [PI / 4]: the solver returns
    the points at longitude 90 and -90 on the equator, the first being
    the one on the side of [(0, x, 0)]. *)
Lemma pole_pair_east (gp2 : LatLon) (dist2 : R) :
  to_rectangular gp2 = [1; 0; 0] -> dist2 / EARTH_RADIUS_KM = PI / 4 ->
  calculate_circle_intersection (get_gp pole) (get_distance_from_gp pole)
                                gp2 dist2
  = Ok (Some (mkLatLon 0 90, mkLatLon 0 (-90))).
Proof.
  intros E2 R2. pose proof PI_RGT_0 as Hpi. pose proof sin_PI4_pos as Hs.
  assert (D : angular_separation (get_gp pole) gp2 = PI / 2).
  { rewrite get_gp_pole.
    apply (angular_separation_eval _ _ 0 0 1 1 0 0 0);
      [apply to_rectangular_90_0 | exact E2 | lra | lra | apply acos_0]. }
  rewrite circle_intersection_unclassified; rewrite D, radius_pole, R2.
  2:{ unfold no_intersection_class. rewrite Rabs_PI4. lra. }
  rewrite get_gp_pole, to_rectangular_90_0, E2.
  apply (intersection_points_eval _ _ _ _ _ _ _ _ _ (PI / 2) 0 1 0
           [0; 1; 0] [0; -1; 0]).
  - rewrite sin_PI2. lra.
  - rewrite cos_PI2, sin_PI2.
    replace ((0 - cos (PI / 4) * 0) / (sin (PI / 4) * 1)) with 0
      by (field; lra).
    rewrite clamp_id by lra. apply acos_0.
  - apply (normalize_vect_eval _ _ _ 1); lra.
  - rewrite cos_PI2, sin_PI2. apply (normalize_vect_eval _ _ _ 1); lra.
  - rewrite cos_PI2, sin_PI2. apply (normalize_vect_eval _ _ _ 1); lra.
  - apply to_latlon_0_1_0.
  - apply to_latlon_0_m1_0.
Qed.

Lemma pole_pair_west (gp2 : LatLon) (dist2 : R) :
  to_rectangular gp2 = [-1; 0; 0] -> dist2 / EARTH_RADIUS_KM = PI / 4 ->
  calculate_circle_intersection (get_gp pole) (get_distance_from_gp pole)
                                gp2 dist2
  = Ok (Some (mkLatLon 0 (-90), mkLatLon 0 90)).
Proof.
  intros E2 R2. pose proof PI_RGT_0 as Hpi. pose proof sin_PI4_pos as Hs.
  assert (D : angular_separation (get_gp pole) gp2 = PI / 2).
  { rewrite get_gp_pole.
    apply (angular_separation_eval _ _ 0 0 1 (-1) 0 0 0);
      [apply to_rectangular_90_0 | exact E2 | lra | lra | apply acos_0]. }
  rewrite circle_intersection_unclassified; rewrite D, radius_pole, R2.
  2:{ unfold no_intersection_class. rewrite Rabs_PI4. lra. }
  rewrite get_gp_pole, to_rectangular_90_0, E2.
  apply (intersection_points_eval _ _ _ _ _ _ _ _ _ (PI / 2) 0 (-1) 0
           [0; -1; 0] [0; 1; 0]).
  - rewrite sin_PI2. lra.
  - rewrite cos_PI2, sin_PI2.
    replace ((0 - cos (PI / 4) * 0) / (sin (PI / 4) * 1)) with 0
      by (field; lra).
    rewrite clamp_id by lra. apply acos_0.
  - apply (normalize_vect_eval _ _ _ 1); lra.
  - rewrite cos_PI2, sin_PI2. apply (normalize_vect_eval _ _ _ 1); lra.
  - rewrite cos_PI2, sin_PI2. apply (normalize_vect_eval _ _ _ 1); lra.
  - apply to_latlon_0_m1_0.
  - apply to_latlon_0_1_0.
Qed.

Lemma pair_pole_meridian :
  calculate_circle_intersection
    (get_gp pole) (get_distance_from_gp pole)
    (get_gp meridian) (get_distance_from_gp meridian)
  = Ok (Some (mkLatLon 0 90, mkLatLon 0 (-90))).
Proof.
  apply pole_pair_east; [| apply radius_meridian].
  rewrite get_gp_meridian. apply to_rectangular_0_0.
Qed.

Lemma pair_pole_antimeridian :
  calculate_circle_intersection
    (get_gp pole) (get_distance_from_gp pole)
    (get_gp antimeridian) (get_distance_from_gp antimeridian)
  = Ok (Some (mkLatLon 0 (-90), mkLatLon 0 90)).
Proof.
  apply pole_pair_west; [| apply radius_antimeridian].
  rewrite get_gp_antimeridian. apply to_rectangular_0_m180.
Qed.

(** The two equatorial sights are too far apart for their circles to
    meet. *)
Lemma pair_meridian_antimeridian :
  calculate_circle_intersection
    (get_gp meridian) (get_distance_from_gp meridian)
    (get_gp antimeridian) (get_distance_from_gp antimeridian)
  = Ok None.
Proof.
  pose proof PI_RGT_0 as Hpi.
  apply circle_intersection_classified.
  rewrite radius_meridian, radius_antimeridian.
  rewrite get_gp_meridian, get_gp_antimeridian.
  rewrite (angular_separation_eval _ _ 1 0 0 (-1) 0 0 (-1) PI
             to_rectangular_0_0 to_rectangular_0_m180)
    by (lra || apply acos_m1).
  left. lra.
Qed.

End PairExamples.

(* ===================================================================== *)
(** * Away from the zero divisor the solver returns two points *)
(* ===================================================================== *)

Section TwoPoints.

(** Cauchy-Schwarz for two unit vectors. *)
Lemma unit_vectors_dot (x1 y1 z1 x2 y2 z2 : R) :
  x1 ^ 2 + y1 ^ 2 + z1 ^ 2 = 1 -> x2 ^ 2 + y2 ^ 2 + z2 ^ 2 = 1 ->
  -1 <= x1 * x2 + y1 * y2 + z1 * z2 <= 1.
Proof.
  intros U1 U2.
  pose proof (pow2_ge_0 (x1 - x2)). pose proof (pow2_ge_0 (y1 - y2)).
  pose proof (pow2_ge_0 (z1 - z2)). pose proof (pow2_ge_0 (x1 + x2)).
  pose proof (pow2_ge_0 (y1 + y2)). pose proof (pow2_ge_0 (z1 + z2)).
  split; nra.
Qed.

Lemma rotated_norm (x y z px py pz ca sb : R) :
  x ^ 2 + y ^ 2 + z ^ 2 = 1 -> px ^ 2 + py ^ 2 + pz ^ 2 = 1 ->
  x * px + y * py + z * pz = 0 ->
  (x * ca + px * sb) ^ 2 + (y * ca + py * sb) ^ 2 + (z * ca + pz * sb) ^ 2
  = ca ^ 2 + sb ^ 2.
Proof.
  intros U P O.
  replace ((x * ca + px * sb) ^ 2 + (y * ca + py * sb) ^ 2
           + (z * ca + pz * sb) ^ 2)
    with (ca ^ 2 * (x ^ 2 + y ^ 2 + z ^ 2)
          + sb ^ 2 * (px ^ 2 + py ^ 2 + pz ^ 2)
          + 2 * ca * sb * (x * px + y * py + z * pz)) by ring.
  rewrite U, P, O. ring.
Qed.

Lemma pow2_pos (x : R) : x <> 0 -> 0 < x ^ 2.
Proof.
  intros H. pose proof (Rlt_0_sqr x H) as P. unfold Rsqr in P.
  replace (x ^ 2) with (x * x) by ring. exact P.
Qed.

Lemma rotated_nonzero (ca sa s : R) :
  ca ^ 2 + sa ^ 2 = 1 -> s <> 0 -> 0 < ca ^ 2 + (sa * s) ^ 2.
Proof.
  intros H Hs.
  assert (0 < s ^ 2) by (apply pow2_pos; exact Hs).
  pose proof (pow2_ge_0 ca). pose proof (pow2_ge_0 (sa * s)).
  destruct (Req_dec_T ca 0) as [-> | N].
  - replace ((sa * s) ^ 2) with (sa ^ 2 * s ^ 2) by ring.
    assert (sa ^ 2 = 1) by lra. nra.
  - assert (0 < ca ^ 2) by (apply pow2_pos; exact N). lra.
Qed.

(** Normalising a non-zero vector and converting it gives a position. *)
Lemma normalize_to_latlon_eval (x y z n : R) :
  x ^ 2 + y ^ 2 + z ^ 2 = n -> 0 < n ->
  exists (u : list R) (p : LatLon),
    normalize_vect [x; y; z] = Ok u /\ to_latlon u = Ok p.
Proof.
  intros E Hn. set (m := sqrt n).
  assert (Hm : 0 < m) by (apply sqrt_lt_R0; exact Hn).
  assert (Hmm : m * m = n) by (apply sqrt_sqrt; lra).
  exists [x / m; y / m; z / m]. eexists. split.
  - apply (normalize_vect_eval x y z m); [lra | exact Hm | | |]; field; lra.
  - apply to_latlon_unit.
    replace ((x / m) ^ 2 + (y / m) ^ 2 + (z / m) ^ 2)
      with ((x ^ 2 + y ^ 2 + z ^ 2) / (m * m)) by (field; lra).
    rewrite E, Hmm. field. lra.
Qed.

Lemma intersection_points_two_points
    (x1 y1 z1 x2 y2 z2 r1 r2 : R) :
  x1 ^ 2 + y1 ^ 2 + z1 ^ 2 = 1 -> x2 ^ 2 + y2 ^ 2 + z2 ^ 2 = 1 ->
  let d := acos (x1 * x2 + y1 * y2 + z1 * z2) in
  sin r2 * sin d <> 0 ->
  exists p1 p2,
    intersection_points [x1; y1; z1] [x2; y2; z2] r1 r2 d
    = Ok (Some (p1, p2)).
Proof.
  intros U1 U2 d Hs.
  set (c := x1 * x2 + y1 * y2 + z1 * z2) in *.
  assert (Hc : -1 <= c <= 1) by (apply unit_vectors_dot; assumption).
  assert (Hsd : sin d <> 0) by (intros E; apply Hs; rewrite E; ring).
  assert (Hsin : sin d = sqrt (1 - c ^ 2)).
  { unfold d. rewrite sin_acos by exact Hc. unfold Rsqr. f_equal. ring. }
  assert (Hpos : 0 < 1 - c ^ 2).
  { assert (0 <= 1 - c ^ 2) by nra.
    destruct (Req_dec_T (1 - c ^ 2) 0) as [E | N]; [| lra].
    exfalso. apply Hsd. rewrite Hsin, E. apply sqrt_0. }
  set (m := sqrt (1 - c ^ 2)).
  assert (Hm : 0 < m) by (apply sqrt_lt_R0; exact Hpos).
  assert (Hmm : m * m = 1 - c ^ 2) by (apply sqrt_sqrt; lra).
  set (cx := y1 * z2 - z1 * y2). set (cy := z1 * x2 - x1 * z2).
  set (cz := x1 * y2 - y1 * x2).
  assert (Hcross : cx ^ 2 + cy ^ 2 + cz ^ 2 = 1 - c ^ 2).
  { replace (cx ^ 2 + cy ^ 2 + cz ^ 2)
      with ((x1 ^ 2 + y1 ^ 2 + z1 ^ 2) * (x2 ^ 2 + y2 ^ 2 + z2 ^ 2) - c ^ 2)
      by (unfold cx, cy, cz, c; ring).
    rewrite U1, U2. ring. }
  set (a := acos (py_max (-1) (py_min 1
                    ((cos r1 - cos r2 * cos d) / (sin r2 * sin d))))).
  assert (Hunit : cos a ^ 2 + sin a ^ 2 = 1).
  { pose proof (sin_cos_sq a). lra. }
  assert (P : (cx / m) ^ 2 + (cy / m) ^ 2 + (cz / m) ^ 2 = 1).
  { replace ((cx / m) ^ 2 + (cy / m) ^ 2 + (cz / m) ^ 2)
      with ((cx ^ 2 + cy ^ 2 + cz ^ 2) / (m * m)) by (field; lra).
    rewrite Hcross, Hmm. field. lra. }
  assert (O : x1 * (cx / m) + y1 * (cy / m) + z1 * (cz / m) = 0).
  { unfold cx, cy, cz. field. lra. }
  assert (O' : x1 * (- (cx / m)) + y1 * (- (cy / m)) + z1 * (- (cz / m)) = 0)
    by lra.
  assert (P' : (- (cx / m)) ^ 2 + (- (cy / m)) ^ 2 + (- (cz / m)) ^ 2 = 1)
    by (rewrite <- P; ring).
  pose proof (rotated_nonzero (cos a) (sin a) (sin d) Hunit Hsd) as Hn.
  destruct (normalize_to_latlon_eval
              (x1 * cos a + cx / m * sin a * sin d)
              (y1 * cos a + cy / m * sin a * sin d)
              (z1 * cos a + cz / m * sin a * sin d)
              (cos a ^ 2 + (sin a * sin d) ^ 2)) as (u1 & p1 & N1 & L1);
    [| exact Hn |].
  { rewrite <- (rotated_norm x1 y1 z1 (cx / m) (cy / m) (cz / m)
                  (cos a) (sin a * sin d) U1 P O). ring. }
  destruct (normalize_to_latlon_eval
              (x1 * cos a - cx / m * sin a * sin d)
              (y1 * cos a - cy / m * sin a * sin d)
              (z1 * cos a - cz / m * sin a * sin d)
              (cos a ^ 2 + (sin a * sin d) ^ 2)) as (u2 & p2 & N2 & L2);
    [| exact Hn |].
  { rewrite <- (rotated_norm x1 y1 z1 (- (cx / m)) (- (cy / m)) (- (cz / m))
                  (cos a) (sin a * sin d) U1 P' O'). ring. }
  exists p1, p2.
  apply (intersection_points_eval x1 y1 z1 x2 y2 z2 r1 r2 d a
           (cx / m) (cy / m) (cz / m) u1 u2 p1 p2);
    [exact Hs | reflexivity | | exact N1 | exact N2 | exact L1 | exact L2].
  apply (normalize_vect_eval _ _ _ m); [fold cx cy cz; lra | exact Hm | | |];
    fold cx cy cz; field; lra.
Qed.

(** Past the three tests, and unless [sin r2 * sin d] is zero, the
    solver returns two points. *)
Lemma circle_intersection_two_points
    (gp1 : LatLon) (dist1 : R) (gp2 : LatLon) (dist2 : R) :
  ~ no_intersection_class (dist1 / EARTH_RADIUS_KM) (dist2 / EARTH_RADIUS_KM)
                          (angular_separation gp1 gp2) ->
  sin (dist2 / EARTH_RADIUS_KM) * sin (angular_separation gp1 gp2) <> 0 ->
  exists p1 p2,
    calculate_circle_intersection gp1 dist1 gp2 dist2 = Ok (Some (p1, p2)).
Proof.
  intros Hc Hs. rewrite circle_intersection_unclassified by exact Hc.
  destruct (to_rectangular_unit gp1) as (x1 & y1 & z1 & E1 & U1).
  destruct (to_rectangular_unit gp2) as (x2 & y2 & z2 & E2 & U2).
  assert (D : angular_separation gp1 gp2
              = acos (x1 * x2 + y1 * y2 + z1 * z2)).
  { apply (angular_separation_eval gp1 gp2 x1 y1 z1 x2 y2 z2
             (x1 * x2 + y1 * y2 + z1 * z2) _ E1 E2 eq_refl);
      [| reflexivity].
    apply unit_vectors_dot; assumption. }
  rewrite D in *. rewrite E1, E2.
  apply intersection_points_two_points; assumption.
Qed.

End TwoPoints.

(* ===================================================================== *)
(** * Fix combiner *)
(* ===================================================================== *)

Section FixCombiner.

Lemma forM_app {A S : Type} (l1 l2 : list A) (body : A -> S -> result S)
    (s : S) :
  forM (l1 ++ l2) body s = bind (forM l1 body s) (forM l2 body).
Proof.
  revert s. induction l1 as [| a l1 IH]; intros s; cbn [forM app bind].
  - reflexivity.
  - destruct (body a s) as [s' | e]; cbn [bind]; [apply IH | reflexivity].
Qed.

Lemma forM_ext {A S : Type} (l : list A) (f g : A -> S -> result S) (s : S) :
  (forall a s', f a s' = g a s') -> forM l f s = forM l g s.
Proof.
  intros E. revert s. induction l as [| a l IH]; intros s; cbn [forM].
  - reflexivity.
  - rewrite E. destruct (g a s); cbn [bind]; [apply IH | reflexivity].
Qed.

(** The choice made in the loops is [closest_candidate]. *)
Lemma choice_eq (est : option LatLon) (int1 int2 : LatLon) :
  match est with
  | Some e =>
      dist_to_int1 <- spherical_distance e int1 ;;
      dist_to_int2 <- spherical_distance e int2 ;;
      Ok (if Rltb dist_to_int1 dist_to_int2 then int1 else int2)
  | None => Ok int1
  end = Ok (closest_candidate est int1 int2).
Proof.
  destruct est as [e |]; [| reflexivity].
  rewrite !spherical_distance_eq. cbn [bind].
  unfold closest_candidate, great_circle_km, Rltb.
  destruct (Rlt_dec _ _); reflexivity.
Qed.

Lemma multi_sight_pair_step (c : SightCollection) (est : option LatLon)
    (i j : nat) (si sj : Sight) (positions : list LatLon) :
  nth_error (sights c) i = Some si -> nth_error (sights c) j = Some sj ->
  multi_sight_pair c est i j positions = pair_step est (si, sj) positions.
Proof.
  intros Hi Hj. unfold multi_sight_pair, pair_step, chosen_point, idx.
  rewrite Hi, Hj. cbn [bind fst snd]. fold (pair_intersection si sj).
  destruct (pair_intersection si sj) as [[[int1 int2] |] | e];
    cbn [bind]; [| reflexivity | reflexivity].
  rewrite choice_eq. reflexivity.
Qed.

Lemma forM_pair_step (est : option LatLon) (prs : list (Sight * Sight))
    (positions : list LatLon) :
  forM prs (pair_step est) positions =
  (ps <- chosen_points est prs ;; Ok (positions ++ ps)).
Proof.
  revert positions.
  induction prs as [| pr prs IH]; intros positions;
    cbn [forM chosen_points bind].
  - rewrite app_nil_r. reflexivity.
  - unfold pair_step at 1.
    destruct (chosen_point est pr) as [[p |] | e]; cbn [bind];
      [| | reflexivity].
    + rewrite IH. destruct (chosen_points est prs); cbn [bind];
        [rewrite <- app_assoc | ]; reflexivity.
    + rewrite IH. destruct (chosen_points est prs); reflexivity.
Qed.

(** The inner loop over [j] visits the sights after the [i]-th. *)
Lemma inner_loop_pairs (c : SightCollection) (est : option LatLon)
    (i : nat) (si : Sight) (rest : list Sight) :
  nth_error (sights c) i = Some si ->
  forall (j : nat) (positions : list LatLon),
    skipn j (sights c) = rest ->
    forM (seq j (List.length rest))
         (fun j positions => multi_sight_pair c est i j positions) positions
    = forM (map (pair si) rest) (pair_step est) positions.
Proof.
  intros Hi. induction rest as [| sj rest IH]; intros j positions Hs.
  - reflexivity.
  - cbn [List.length seq map forM].
    assert (Hj : nth_error (sights c) j = Some sj).
    { rewrite <- (firstn_skipn j (sights c)) at 1. rewrite Hs.
      assert (L : List.length (firstn j (sights c)) = j).
      { apply firstn_length_le.
        assert (List.length (skipn j (sights c)) = S (List.length rest))
          by (rewrite Hs; reflexivity).
        rewrite length_skipn in H. lia. }
      rewrite nth_error_app2 by lia. rewrite L, Nat.sub_diag. reflexivity. }
    rewrite (multi_sight_pair_step c est i j si sj positions Hi Hj).
    destruct (pair_step est (si, sj) positions); cbn [bind]; [| reflexivity].
    apply IH.
    replace (S j) with (1 + j)%nat by lia.
    rewrite <- skipn_skipn, Hs. reflexivity.
Qed.

(** The outer loop from index [i] on visits the pairs of the sights from
    the [i]-th on. *)
Lemma outer_loop_pairs (c : SightCollection) (est : option LatLon)
    (rest : list Sight) :
  forall (i : nat) (positions : list LatLon),
    skipn i (sights c) = rest ->
    forM (seq i (List.length rest))
         (fun i positions =>
            forM (range (i + 1) (List.length (sights c)))
                 (fun j positions => multi_sight_pair c est i j positions)
                 positions)
         positions
    = forM (pairs rest) (pair_step est) positions.
Proof.
  induction rest as [| si rest IH]; intros i positions Hs.
  - reflexivity.
  - cbn [List.length seq forM pairs].
    assert (Hlen : List.length (sights c) = (i + S (List.length rest))%nat).
    { assert (List.length (skipn i (sights c)) = S (List.length rest))
        by (rewrite Hs; reflexivity).
      rewrite length_skipn in H. lia. }
    assert (Hi : nth_error (sights c) i = Some si).
    { rewrite <- (firstn_skipn i (sights c)) at 1. rewrite Hs.
      assert (L : List.length (firstn i (sights c)) = i)
        by (apply firstn_length_le; lia).
      rewrite nth_error_app2 by lia. rewrite L, Nat.sub_diag. reflexivity. }
    assert (Hs' : skipn (i + 1) (sights c) = rest).
    { replace (i + 1)%nat with (1 + i)%nat by lia.
      rewrite <- skipn_skipn, Hs. reflexivity. }
    unfold range at 1.
    replace (List.length (sights c) - (i + 1))%nat with (List.length rest)
      by lia.
    rewrite (inner_loop_pairs c est i si rest Hi (i + 1)%nat positions Hs').
    rewrite forM_app.
    destruct (forM (map (pair si) rest) (pair_step est) positions);
      cbn [bind]; [| reflexivity].
    apply IH. replace (S i) with (i + 1)%nat by lia. exact Hs'.
Qed.

(** The two nested loops compute the chosen points of all pairs. *)
Lemma multi_sight_positions_pairs (c : SightCollection)
    (est : option LatLon) :
  multi_sight_positions c est = chosen_points est (pairs (sights c)).
Proof.
  unfold multi_sight_positions. cbv zeta. unfold range at 1.
  rewrite Nat.sub_0_r.
  rewrite (outer_loop_pairs c est (sights c) 0 [] eq_refl).
  rewrite forM_pair_step.
  destruct (chosen_points est (pairs (sights c))); reflexivity.
Qed.

End FixCombiner.

Section MeanVector.

Lemma column_eval (ps : list LatLon) (i : nat) :
  (i < 3)%nat ->
  mapM (fun vec => idx vec i) (map to_rectangular ps)
  = Ok (map (fun v => nth i v 0) (map to_rectangular ps)).
Proof.
  intros Hi. induction ps as [| p ps IH]; cbn [map mapM].
  - reflexivity.
  - rewrite IH.
    destruct i as [| [| [| i]]]; [reflexivity | reflexivity | reflexivity | lia].
Qed.

Lemma vector_sum_from (ps : list LatLon) (a b c : R) :
  forM (map to_rectangular ps) (fun v acc => add_vecs acc v) [a; b; c]
  = Ok [fold_left Rplus (map (fun v => nth 0 v 0) (map to_rectangular ps)) a;
        fold_left Rplus (map (fun v => nth 1 v 0) (map to_rectangular ps)) b;
        fold_left Rplus (map (fun v => nth 2 v 0) (map to_rectangular ps)) c].
Proof.
  revert a b c. induction ps as [| p ps IH]; intros a b c.
  - reflexivity.
  - cbn [map forM]. unfold add_vecs at 1, to_rectangular at 1.
    cbn [mapM bind idx nth_error range seq Nat.sub].
    rewrite IH. reflexivity.
Qed.

(** The three column sums of the vectors of a list of positions. *)
Lemma vector_sum_columns (ps : list LatLon) :
  vector_sum (map to_rectangular ps)
  = Ok [py_sum (map (fun v => nth 0 v 0) (map to_rectangular ps));
        py_sum (map (fun v => nth 1 v 0) (map to_rectangular ps));
        py_sum (map (fun v => nth 2 v 0) (map to_rectangular ps))].
Proof. apply vector_sum_from. Qed.

(** The averaging comprehension of [_calculate_multi_sight_fix] is the
    mean vector. *)
Lemma average_is_mean_vector (ps : list LatLon) :
  ps <> [] ->
  mapM (fun i =>
          column <- mapM (fun vec => idx vec i) (map to_rectangular ps) ;;
          py_div (py_sum column) (INR (List.length (map to_rectangular ps))))
       (range 0 3)
  = mean_vector (map to_rectangular ps).
Proof.
  intros Hne.
  assert (Hn : INR (List.length (map to_rectangular ps)) <> 0).
  { apply not_0_INR. rewrite length_map. destruct ps; [contradiction | discriminate]. }
  unfold mean_vector. rewrite vector_sum_columns.
  cbn [mapM bind range seq Nat.sub mult_scalar_vect map].
  rewrite !column_eval by lia. cbn [bind map].
  rewrite !py_div_ok by exact Hn. cbn [bind].
  f_equal. f_equal; [| f_equal; [| f_equal]]; field; exact Hn.
Qed.

Lemma normalize_to_latlon_zero (x y z : R) :
  x ^ 2 + y ^ 2 + z ^ 2 = 0 ->
  (u <- normalize_vect [x; y; z] ;; to_latlon u)
  = Raise (ValueError (Msg "Zero vector cannot be converted to LatLon")).
Proof.
  intros H. unfold normalize_vect. cbn [map py_sum fold_left].
  replace (0 + x ^ 2 + y ^ 2 + z ^ 2) with 0 by lra.
  rewrite py_sqrt_ok by lra. cbn [bind]. rewrite sqrt_0.
  destruct (Req_dec_T 0 0) as [_ | N]; [| contradiction].
  cbn [bind]. apply to_latlon_zero. exact H.
Qed.

Lemma normalize_to_latlon_ok (x y z : R) :
  x ^ 2 + y ^ 2 + z ^ 2 <> 0 ->
  is_ok (u <- normalize_vect [x; y; z] ;; to_latlon u).
Proof.
  intros H. pose proof (sum_sq_nonneg x y z) as Hge.
  set (m := sqrt (x ^ 2 + y ^ 2 + z ^ 2)).
  assert (Hm : 0 < m) by (apply sqrt_lt_R0; lra).
  assert (Hmm : m * m = x ^ 2 + y ^ 2 + z ^ 2) by (apply sqrt_sqrt; lra).
  rewrite (normalize_vect_eval x y z m (x / m) (y / m) (z / m));
    [| lra | exact Hm | field; lra | field; lra | field; lra].
  cbn [bind]. rewrite to_latlon_unit.
  - eexists. reflexivity.
  - replace ((x / m) ^ 2 + (y / m) ^ 2 + (z / m) ^ 2)
      with ((x ^ 2 + y ^ 2 + z ^ 2) / (m * m)) by (field; lra).
    rewrite Hmm. field. lra.
Qed.

Lemma sum_sq_zero (x y z : R) :
  x ^ 2 + y ^ 2 + z ^ 2 = 0 <-> x = 0 /\ y = 0 /\ z = 0.
Proof.
  split.
  - intros H. pose proof (pow2_ge_0 x). pose proof (pow2_ge_0 y).
    pose proof (pow2_ge_0 z).
    assert (x ^ 2 = 0) by lra. assert (y ^ 2 = 0) by lra.
    assert (z ^ 2 = 0) by lra.
    repeat split; nra.
  - intros (-> & -> & ->). lra.
Qed.

(** With at least one position, the mean position is computed unless
    the unit vectors cancel, and then [to_latlon] refuses the zero
    vector. *)
Lemma mean_position_cases (ps : list LatLon) :
  ps <> [] ->
  (vector_sum (map to_rectangular ps) = Ok [0; 0; 0]
   /\ mean_position ps
      = Raise (ValueError (Msg "Zero vector cannot be converted to LatLon")))
  \/ (vector_sum (map to_rectangular ps) <> Ok [0; 0; 0]
      /\ is_ok (mean_position ps)).
Proof.
  intros Hne.
  assert (Hn : INR (List.length (map to_rectangular ps)) <> 0).
  { apply not_0_INR. rewrite length_map. destruct ps; [contradiction | discriminate]. }
  unfold mean_position, mean_vector. rewrite vector_sum_columns.
  cbn [bind mult_scalar_vect map].
  set (n := INR (List.length (map to_rectangular ps))) in *.
  set (sx := py_sum (map (fun v => nth 0 v 0) (map to_rectangular ps))).
  set (sy := py_sum (map (fun v => nth 1 v 0) (map to_rectangular ps))).
  set (sz := py_sum (map (fun v => nth 2 v 0) (map to_rectangular ps))).
  destruct (Req_dec_T (sx ^ 2 + sy ^ 2 + sz ^ 2) 0) as [Z | NZ].
  - left. apply sum_sq_zero in Z. destruct Z as (Zx & Zy & Zz).
    rewrite Zx, Zy, Zz. split; [reflexivity |].
    apply normalize_to_latlon_zero. lra.
  - right. split.
    + intros E. injection E as Ex Ey Ez. apply NZ.
      rewrite Ex, Ey, Ez. lra.
    + apply normalize_to_latlon_ok.
      replace ((1 / n * sx) ^ 2 + (1 / n * sy) ^ 2 + (1 / n * sz) ^ 2)
        with ((sx ^ 2 + sy ^ 2 + sz ^ 2) * (/ n * / n)) by (field; exact Hn).
      apply Rmult_integral_contrapositive_currified; [exact NZ |].
      apply Rmult_integral_contrapositive_currified;
        apply Rinv_neq_0_compat; exact Hn.
Qed.

(** [_calculate_multi_sight_fix] in terms of the chosen points. *)
Lemma calculate_multi_sight_fix_eq (c : SightCollection)
    (est : option LatLon) :
  calculate_multi_sight_fix c est =
  (positions <- chosen_points est (pairs (sights c)) ;;
   match positions with
   | [] => Raise (ValueError (Msg "No valid intersections found"))
   | _ :: _ => mean_position positions
   end).
Proof.
  unfold calculate_multi_sight_fix. rewrite multi_sight_positions_pairs.
  destruct (chosen_points est (pairs (sights c))) as [ps | e];
    cbn [bind]; [| reflexivity].
  destruct ps as [| p ps]; [reflexivity |].
  cbn [List.length Nat.eqb]. cbv zeta.
  rewrite average_is_mean_vector by discriminate. reflexivity.
Qed.

Lemma get_intersections_multi (c : SightCollection) (est : option LatLon) :
  (3 <= List.length (sights c))%nat ->
  get_intersections c est = calculate_multi_sight_fix c est.
Proof.
  intros H. unfold get_intersections.
  destruct (Nat.eqb_spec (List.length (sights c)) 2); [lia | reflexivity].
Qed.

End MeanVector.

(** When the loops of the N-sight fix complete with the non-empty list
    [positions], the fix is the mean position of these points: each is
    converted to its unit vector, the vectors are averaged component by
    component, the mean is normalised and converted back to latitude and
    longitude. *)
Lemma multi_sight_fix_mean_position (c : SightCollection)
    (est : option LatLon) (positions : list LatLon) :
  (3 <= List.length (sights c))%nat ->
  multi_sight_positions c est = Ok positions ->
  positions <> [] ->
  get_intersections c est = mean_position positions.
Proof.
  intros Hn Hc Hne. rewrite multi_sight_positions_pairs in Hc.
  rewrite get_intersections_multi by exact Hn.
  rewrite calculate_multi_sight_fix_eq, Hc. cbn [bind].
  destruct positions; [contradiction | reflexivity].
Qed.

Section FixFailure.

Lemma chosen_points_contributions (est : option LatLon)
    (prs : list (Sight * Sight)) :
  Forall completes prs ->
  chosen_points est prs = Ok (flat_map (contribution est) prs).
Proof.
  induction 1 as [| pr prs [r Hr] _ IH]; cbn [chosen_points flat_map].
  - reflexivity.
  - unfold chosen_point, contribution. rewrite Hr, IH. cbn [bind].
    destruct r as [[int1 int2] |]; reflexivity.
Qed.

End FixFailure.

Section ThreeSights.

Lemma three_sights_init :
  SightCollection_init [pole; meridian; antimeridian] = Ok three_sights.
Proof. reflexivity. Qed.

Lemma three_sights_pairs :
  pairs (sights three_sights)
  = [(pole, meridian); (pole, antimeridian); (meridian, antimeridian)].
Proof. reflexivity. Qed.

Lemma three_sights_complete : Forall completes (pairs (sights three_sights)).
Proof.
  rewrite three_sights_pairs.
  repeat constructor; unfold completes, pair_intersection; cbn [fst snd].
  - rewrite pair_pole_meridian. eexists. reflexivity.
  - rewrite pair_pole_antimeridian. eexists. reflexivity.
  - rewrite pair_meridian_antimeridian. eexists. reflexivity.
Qed.

Lemma three_sights_contributions (est : option LatLon) :
  flat_map (contribution est) (pairs (sights three_sights))
  = [closest_candidate est (mkLatLon 0 90) (mkLatLon 0 (-90));
     closest_candidate est (mkLatLon 0 (-90)) (mkLatLon 0 90)].
Proof.
  rewrite three_sights_pairs. cbn [flat_map]. unfold contribution.
  unfold pair_intersection. cbn [fst snd].
  rewrite pair_pole_meridian, pair_pole_antimeridian,
    pair_meridian_antimeridian.
  reflexivity.
Qed.

Lemma haversine_a_same (p : LatLon) : haversine_a p p = 0.
Proof.
  unfold haversine_a.
  replace ((radians (get_lat p) - radians (get_lat p)) / 2) with 0 by lra.
  replace ((radians (get_lon p) - radians (get_lon p)) / 2) with 0 by lra.
  rewrite sin_0. ring.
Qed.

Lemma great_circle_km_same (p : LatLon) : great_circle_km p p = 0.
Proof.
  unfold great_circle_km. rewrite haversine_a_same, Rminus_0_r.
  rewrite sqrt_0, sqrt_1, atan2_0_1. ring.
Qed.

Lemma haversine_a_opposite :
  haversine_a (mkLatLon 0 90) (mkLatLon 0 (-90)) = 1.
Proof.
  unfold haversine_a, get_lat, get_lon. cbn [lat lon].
  replace ((radians 0 - radians 0) / 2) with 0 by lra.
  replace (radians 0) with 0 by (unfold radians; lra).
  replace ((radians (-90) - radians 90) / 2) with (- (PI / 2))
    by (unfold radians; lra).
  rewrite sin_neg, sin_PI2, sin_0, cos_0. ring.
Qed.

Lemma great_circle_km_opposite :
  great_circle_km (mkLatLon 0 90) (mkLatLon 0 (-90)) = EARTH_RADIUS_KM * PI.
Proof.
  unfold great_circle_km. rewrite haversine_a_opposite.
  replace (1 - 1) with 0 by lra.
  rewrite sqrt_0, sqrt_1, atan2_1_0. lra.
Qed.

(** With the estimate at 90 degrees east on the equator both pairs keep
    the candidate at that very place. *)
Lemma closest_to_east :
  closest_candidate (Some (mkLatLon 0 90)) (mkLatLon 0 90) (mkLatLon 0 (-90))
  = mkLatLon 0 90
  /\ closest_candidate (Some (mkLatLon 0 90)) (mkLatLon 0 (-90))
                       (mkLatLon 0 90)
     = mkLatLon 0 90.
Proof.
  pose proof PI_RGT_0 as Hpi. unfold closest_candidate.
  rewrite great_circle_km_same, great_circle_km_opposite.
  unfold EARTH_RADIUS_KM.
  destruct (Rlt_dec 0 (6371 * PI)) as [_ | N]; [| nra].
  destruct (Rlt_dec (6371 * PI) 0) as [F | _]; [nra |].
  split; reflexivity.
Qed.

End ThreeSights.

(* ===================================================================== *)
(** * Two-sight fix *)
(* ===================================================================== *)

Section TwoSightFix.

Lemma calculate_two_sight_fix_eq (c : SightCollection) (s1 s2 : Sight)
    (est : option LatLon) :
  sights c = [s1; s2] ->
  calculate_two_sight_fix c est =
  (r <- pair_intersection s1 s2 ;;
   match r with
   | Some (int1, int2) => Ok (closest_candidate est int1 int2)
   | None =>
       Raise (ValueError (Msg "No intersection found - circles don't meet"))
   end).
Proof.
  intros E. unfold calculate_two_sight_fix. rewrite E.
  cbn [idx nth_error bind]. fold (pair_intersection s1 s2).
  destruct (pair_intersection s1 s2) as [[[int1 int2] |] | e];
    cbn [bind]; [| reflexivity | reflexivity].
  apply choice_eq.
Qed.

Lemma get_intersections_two (c : SightCollection) (s1 s2 : Sight)
    (est : option LatLon) :
  sights c = [s1; s2] ->
  get_intersections c est = calculate_two_sight_fix c est.
Proof. intros E. unfold get_intersections. rewrite E. reflexivity. Qed.

End TwoSightFix.

(* ===================================================================== *)
(** * The unguarded division of the solver *)
(* ===================================================================== *)

Section UnguardedDivision.

(** A position is at angular separation 0 from itself. *)
Lemma angular_separation_same (gp : LatLon) : angular_separation gp gp = 0.
Proof.
  destruct (to_rectangular_unit gp) as (x & y & z & E & U).
  apply (angular_separation_eval gp gp x y z x y z 1 0 E E);
    [lra | lra | apply acos_1].
Qed.

Lemma coincident_unclassified (r : R) :
  0 <= r -> ~ no_intersection_class r r 0.
Proof.
  intros Hr. rewrite no_intersection_class_two_tests.
  replace (r - r) with 0 by lra. rewrite Rabs_R0. lra.
Qed.

End UnguardedDivision.

(** C2, on the code: an input that none of the three tests rejects and
    for which [sin r2 * sin d] is zero gets neither answer of the
    solver: it raises [ZeroDivisionError]. *)
Theorem unclassified_zero_divisor_raises
    (gp1 : LatLon) (dist1 : R) (gp2 : LatLon) (dist2 : R) :
  ~ no_intersection_class (dist1 / EARTH_RADIUS_KM) (dist2 / EARTH_RADIUS_KM)
                          (angular_separation gp1 gp2) ->
  sin (dist2 / EARTH_RADIUS_KM) * sin (angular_separation gp1 gp2) = 0 ->
  calculate_circle_intersection gp1 dist1 gp2 dist2 = Raise ZeroDivisionError.
Proof.
  intros Hc Hz. rewrite circle_intersection_unclassified by exact Hc.
  apply intersection_points_zero_divisor. exact Hz.
Qed.

(** Twice the same circle of 1000 km around the position (0, 0). *)
Lemma unclassified_zero_divisor_raises_witness :
  calculate_circle_intersection (mkLatLon 0 0) 1000 (mkLatLon 0 0) 1000
  = Raise ZeroDivisionError.
Proof.
  apply unclassified_zero_divisor_raises.
  - rewrite angular_separation_same. apply coincident_unclassified.
    unfold EARTH_RADIUS_KM. lra.
  - rewrite angular_separation_same, sin_0. ring.
Defined.

(** C3, on the code: two circles of position with the same centre and
    the same radius pass the three tests, and the division by
    [sin r2 * sin d] then raises [ZeroDivisionError]. *)
Theorem coincident_circles_raise (gp : LatLon) (dist : R) :
  0 <= dist ->
  calculate_circle_intersection gp dist gp dist = Raise ZeroDivisionError.
Proof.
  intros Hd.
  rewrite circle_intersection_unclassified; rewrite angular_separation_same.
  - apply intersection_points_zero_divisor. rewrite sin_0. ring.
  - apply coincident_unclassified. unfold EARTH_RADIUS_KM.
    apply Rmult_le_pos; [exact Hd |].
    apply Rlt_le, Rinv_0_lt_compat. lra.
Qed.

(** Twice the same circle of 5000 km around the position (0, 0). *)
Lemma coincident_circles_raise_witness :
  calculate_circle_intersection (mkLatLon 0 0) 5000 (mkLatLon 0 0) 5000
  = Raise ZeroDivisionError.
Proof. apply coincident_circles_raise. lra. Defined.

(** The same happens with a circle of radius zero that lies on the other
    circle: here the equator, around the pole, and the point of the
    equator at longitude 0. *)
Lemma zero_radius_raises :
  calculate_circle_intersection (mkLatLon 90 0) (PI / 2 * EARTH_RADIUS_KM)
                                (mkLatLon 0 0) 0
  = Raise ZeroDivisionError.
Proof.
  pose proof PI_RGT_0 as Hpi.
  assert (D : angular_separation (mkLatLon 90 0) (mkLatLon 0 0) = PI / 2).
  { apply (angular_separation_eval _ _ 0 0 1 1 0 0 0);
      [apply to_rectangular_90_0 | apply to_rectangular_0_0 | lra | lra
       | apply acos_0]. }
  assert (R1 : PI / 2 * EARTH_RADIUS_KM / EARTH_RADIUS_KM = PI / 2)
    by (unfold EARTH_RADIUS_KM; lra).
  assert (R2 : 0 / EARTH_RADIUS_KM = 0) by (unfold EARTH_RADIUS_KM; lra).
  rewrite circle_intersection_unclassified; rewrite D, R1, R2.
  - apply intersection_points_zero_divisor. rewrite sin_0. ring.
  - rewrite no_intersection_class_two_tests.
    replace (PI / 2 - 0) with (PI / 2) by lra.
    rewrite Rabs_pos_eq by lra. lra.
Qed.

Section DuplicateSight.

(** In exact arithmetic the same sight entered twice makes the two-sight
    fix raise [ZeroDivisionError], and makes the fix of a larger
    collection raise it too, whatever the other sights are.  (In binary64
    this is so for the example sights, not for every sight.) *)
Lemma pair_intersection_same (s : Sight) :
  corrected_altitude s <= 90 ->
  pair_intersection s s = Raise ZeroDivisionError.
Proof.
  intros H. unfold pair_intersection.
  rewrite circle_intersection_unclassified; rewrite angular_separation_same.
  - apply intersection_points_zero_divisor. rewrite sin_0. ring.
  - apply coincident_unclassified.
    unfold get_distance_from_gp, radians, EARTH_RADIUS_KM.
    pose proof PI_RGT_0.
    replace ((90 - corrected_altitude s) * (PI / 180) * 6371 / 6371)
      with ((90 - corrected_altitude s) * (PI / 180)) by lra.
    apply Rmult_le_pos; lra.
Qed.

Lemma duplicate_sight_two_fix (s : Sight) (est : option LatLon) :
  corrected_altitude s <= 90 ->
  get_intersections (mkSightCollection [s; s]) est = Raise ZeroDivisionError.
Proof.
  intros H. rewrite (get_intersections_two _ s s) by reflexivity.
  rewrite (calculate_two_sight_fix_eq _ s s) by reflexivity.
  rewrite pair_intersection_same by exact H. reflexivity.
Qed.

Lemma duplicate_sight_multi_fix (s : Sight) (others : list Sight)
    (est : option LatLon) :
  corrected_altitude s <= 90 -> others <> [] ->
  get_intersections (mkSightCollection (s :: s :: others)) est
  = Raise ZeroDivisionError.
Proof.
  intros H Hne. rewrite get_intersections_multi
    by (destruct others; [contradiction | cbn; lia]).
  rewrite calculate_multi_sight_fix_eq.
  cbn [sights pairs map app chosen_points]. unfold chosen_point at 1.
  cbn [fst snd]. rewrite pair_intersection_same by exact H. reflexivity.
Qed.

End DuplicateSight.

(** C4, on the code: the three sights [pole], [pole], [meridian] come
    out of the constructor and make a collection; the pair of [pole] and
    [meridian] intersects; and yet the fix is not the mean position of
    the chosen points, with or without an estimated position: the first
    pair is twice the same circle, the solver raises
    [ZeroDivisionError] on it, and the exception ends the fix. *)
Theorem multi_sight_fix_coincident_pair (est : option LatLon) :
  pole_sight = Ok pole /\ meridian_sight = Ok meridian
  /\ SightCollection_init [pole; pole; meridian]
     = Ok (mkSightCollection [pole; pole; meridian])
  /\ intersects (pole, meridian)
  /\ get_intersections (mkSightCollection [pole; pole; meridian]) est
     = Raise ZeroDivisionError.
Proof.
  split; [apply pole_sight_eq |]. split; [apply meridian_sight_eq |].
  split; [reflexivity |]. split.
  - unfold intersects, pair_intersection. cbn [fst snd].
    rewrite pair_pole_meridian. do 2 eexists. reflexivity.
  - apply duplicate_sight_multi_fix; [cbn [pole corrected_altitude]; lra |].
    discriminate.
Qed.

(** C5, on the code.  A pair whose circles do not intersect is skipped:
    the round of the loops for it leaves the list of positions as it
    is.  But the fix also raises when a pair yields a valid
    intersection: of the sights [pole], [pole], [antimeridian], all
    three out of the constructor, the second and the third pair
    intersect, and the fix raises [ZeroDivisionError], with or without
    an estimated position, because the solver raises it on the first
    pair, twice the same circle. *)
Theorem multi_sight_fix_raises_despite_intersection :
  (forall (c : SightCollection) (est : option LatLon) (i j : nat)
          (si sj : Sight) (positions : list LatLon),
      nth_error (sights c) i = Some si ->
      nth_error (sights c) j = Some sj ->
      pair_intersection si sj = Ok None ->
      multi_sight_pair c est i j positions = Ok positions)
  /\ pole_sight = Ok pole /\ antimeridian_sight = Ok antimeridian
  /\ SightCollection_init [pole; pole; antimeridian]
     = Ok (mkSightCollection [pole; pole; antimeridian])
  /\ intersects (pole, antimeridian)
  /\ forall est : option LatLon,
       get_intersections (mkSightCollection [pole; pole; antimeridian]) est
       = Raise ZeroDivisionError.
Proof.
  split.
  { intros c est i j si sj positions Hi Hj H.
    unfold multi_sight_pair, idx. rewrite Hi, Hj. cbn [bind].
    fold (pair_intersection si sj). rewrite H. reflexivity. }
  split; [apply pole_sight_eq |]. split; [apply antimeridian_sight_eq |].
  split; [reflexivity |]. split.
  - unfold intersects, pair_intersection. cbn [fst snd].
    rewrite pair_pole_antimeridian. do 2 eexists. reflexivity.
  - intros est.
    apply duplicate_sight_multi_fix; [cbn [pole corrected_altitude]; lra |].
    discriminate.
Qed.

(* ===================================================================== *)
(** * The angle function [atan2] *)
(* ===================================================================== *)

Section Atan2.

Lemma atan2_bound (y x : R) : - PI < atan2 y x <= PI.
Proof.
  pose proof PI_RGT_0 as Hpi. pose proof (atan_bound (y / x)) as [Al Au].
  unfold atan2.
  destruct (Rlt_dec 0 x) as [Hx | Hx]; [lra |].
  destruct (Rlt_dec x 0) as [Hx' | Hx'].
  - destruct (Rlt_dec y 0) as [Hy | Hy].
    + assert (0 < y / x).
      { unfold Rdiv. replace (y * / x) with ((- y) * / (- x))
          by (field; lra).
        apply Rmult_lt_0_compat; [lra | apply Rinv_0_lt_compat; lra]. }
      assert (0 < atan (y / x))
        by (rewrite <- atan_0; apply atan_increasing; assumption).
      lra.
    + assert (y / x <= 0).
      { unfold Rdiv. replace (y * / x) with (- (y * / (- x)))
          by (field; lra).
        assert (0 <= y * / - x); [| lra].
        apply Rmult_le_pos; [lra |].
        apply Rlt_le, Rinv_0_lt_compat; lra. }
      assert (atan (y / x) <= 0).
      { destruct (Req_dec_T (y / x) 0) as [-> | N];
          [rewrite atan_0; lra |].
        rewrite <- atan_0. apply Rlt_le, atan_increasing. lra. }
      lra.
  - destruct (Rlt_dec 0 y); [lra |]. destruct (Rlt_dec y 0); lra.
Qed.

Lemma sqrt_one_plus_sq (x y : R) :
  x <> 0 -> sqrt (1 + (y / x)²) = sqrt (x ^ 2 + y ^ 2) / Rabs x.
Proof.
  intros Hx.
  assert (Ha : 0 < Rabs x) by (apply Rabs_pos_lt; exact Hx).
  replace (1 + (y / x)²) with ((x ^ 2 + y ^ 2) / (Rabs x)²).
  - unfold Rdiv. rewrite sqrt_mult_alt.
    + f_equal. rewrite sqrt_inv. f_equal. apply sqrt_Rsqr. lra.
    + pose proof (pow2_ge_0 x). pose proof (pow2_ge_0 y). lra.
  - rewrite <- Rsqr_abs. unfold Rsqr. field. exact Hx.
Qed.

(** The angle [atan2 y x] points to [(x, y)]. *)
Lemma atan2_cos_sin (y x : R) :
  x ^ 2 + y ^ 2 <> 0 ->
  cos (atan2 y x) = x / sqrt (x ^ 2 + y ^ 2)
  /\ sin (atan2 y x) = y / sqrt (x ^ 2 + y ^ 2).
Proof.
  intros Hnz.
  assert (Hr : 0 < sqrt (x ^ 2 + y ^ 2)).
  { apply sqrt_lt_R0. pose proof (pow2_ge_0 x). pose proof (pow2_ge_0 y).
    lra. }
  unfold atan2.
  destruct (Rlt_dec 0 x) as [Hx | Hx].
  - rewrite cos_atan, sin_atan, sqrt_one_plus_sq by lra.
    rewrite Rabs_pos_eq by lra. split; field; lra.
  - destruct (Rlt_dec x 0) as [Hx' | Hx'].
    + assert (E : atan (y / x) - PI = atan (y / x) + PI - 2 * PI) by lra.
      assert (C : cos (atan (y / x) + PI) = x / sqrt (x ^ 2 + y ^ 2)).
      { rewrite neg_cos, cos_atan, sqrt_one_plus_sq by lra.
        rewrite Rabs_left by lra. field. lra. }
      assert (S : sin (atan (y / x) + PI) = y / sqrt (x ^ 2 + y ^ 2)).
      { rewrite neg_sin, sin_atan, sqrt_one_plus_sq by lra.
        rewrite Rabs_left by lra. field. lra. }
      destruct (Rlt_dec y 0); [| split; assumption].
      rewrite E. unfold Rminus.
      rewrite <- (cos_period _ 1), <- (sin_period _ 1). simpl INR.
      replace (atan (y / x) + PI + - (2 * PI) + 2 * 1 * PI)
        with (atan (y / x) + PI) by lra.
      split; assumption.
    + assert (x = 0) by lra. subst x.
      replace (0 ^ 2 + y ^ 2) with (y ^ 2) in * by ring.
      destruct (Rlt_dec 0 y) as [Hy | Hy].
      * rewrite sqrt_pow2 by lra. rewrite cos_PI2, sin_PI2.
        split; field; lra.
      * destruct (Rlt_dec y 0) as [Hy' | Hy'].
        -- replace (y ^ 2) with ((- y) ^ 2) by ring.
           rewrite sqrt_pow2 by lra.
           rewrite cos_neg, sin_neg, cos_PI2, sin_PI2. split; field; lra.
        -- exfalso. assert (y = 0) by lra. subst y. apply Hnz. ring.
Qed.

Lemma cos_one_zero (x : R) : - (2 * PI) < x < 2 * PI -> cos x = 1 -> x = 0.
Proof.
  intros [Hl Hu] Hc. pose proof PI_RGT_0 as Hpi.
  assert (Hs : sin x = 0).
  { pose proof (sin_cos_sq x) as H. rewrite Hc in H. nra. }
  destruct (sin_eq_0_0 x Hs) as [k Hk].
  assert (Hk1 : (-2 < k < 2)%Z).
  { split; apply lt_IZR; nra. }
  assert (k = -1 \/ k = 0 \/ k = 1)%Z as [-> | [-> | ->]] by lia.
  - exfalso. replace x with (- PI) in Hc by lra.
    rewrite cos_neg, cos_PI in Hc. lra.
  - lra.
  - exfalso. replace x with PI in Hc by lra. rewrite cos_PI in Hc. lra.
Qed.

(** An angle of [(- PI, PI]] is determined by its cosine and sine. *)
Lemma angle_unique (a b : R) :
  - PI < a <= PI -> - PI < b <= PI ->
  cos a = cos b -> sin a = sin b -> a = b.
Proof.
  intros Ha Hb Hc Hs.
  assert (cos (a - b) = 1).
  { rewrite cos_minus, Hc, Hs. pose proof (sin_cos_sq b). lra. }
  assert (a - b = 0) by (apply cos_one_zero; [lra | assumption]).
  lra.
Qed.

(** [atan2] recovers the angle of a point given in polar form. *)
Lemma atan2_polar (r t : R) :
  0 < r -> - PI < t <= PI -> atan2 (r * sin t) (r * cos t) = t.
Proof.
  intros Hr Ht.
  assert (Hn : (r * cos t) ^ 2 + (r * sin t) ^ 2 = r ^ 2).
  { pose proof (sin_cos_sq t).
    replace ((r * cos t) ^ 2 + (r * sin t) ^ 2)
      with (r ^ 2 * (sin t * sin t + cos t * cos t)) by ring.
    rewrite H. ring. }
  destruct (atan2_cos_sin (r * sin t) (r * cos t)) as [C S].
  { rewrite Hn. apply Rgt_not_eq. apply pow_lt. exact Hr. }
  rewrite Hn, sqrt_pow2 in C, S by lra.
  apply angle_unique; [apply atan2_bound | exact Ht | |].
  - rewrite C. field. lra.
  - rewrite S. field. lra.
Qed.

Lemma degrees_radians (x : R) : degrees (radians x) = x.
Proof. unfold degrees, radians. pose proof PI_RGT_0. field. lra. Qed.

Lemma radians_degrees (x : R) : radians (degrees x) = x.
Proof. unfold degrees, radians. pose proof PI_RGT_0. field. lra. Qed.

Lemma radians_lt (a b : R) : a < b -> radians a < radians b.
Proof.
  intros H. unfold radians. apply Rmult_lt_compat_r; [| exact H].
  pose proof PI_RGT_0. lra.
Qed.

Lemma radians_le (a b : R) : a <= b -> radians a <= radians b.
Proof.
  intros H. unfold radians. apply Rmult_le_compat_r; [| exact H].
  pose proof PI_RGT_0. lra.
Qed.

Lemma radians_90 : radians 90 = PI / 2.
Proof. unfold radians. lra. Qed.

Lemma radians_180 : radians 180 = PI.
Proof. unfold radians. lra. Qed.

Lemma radians_opp (a : R) : radians (- a) = - radians a.
Proof. unfold radians. ring. Qed.

Lemma degrees_lt (a b : R) : a < b -> degrees a < degrees b.
Proof.
  intros H. unfold degrees. apply Rmult_lt_compat_r; [| exact H].
  pose proof PI_RGT_0. apply Rdiv_lt_0_compat; lra.
Qed.

Lemma degrees_le (a b : R) : a <= b -> degrees a <= degrees b.
Proof.
  intros H. unfold degrees. apply Rmult_le_compat_r; [| exact H].
  pose proof PI_RGT_0. apply Rlt_le, Rdiv_lt_0_compat; lra.
Qed.

Lemma degrees_PI : degrees PI = 180.
Proof. unfold degrees. pose proof PI_RGT_0. field. lra. Qed.

Lemma degrees_opp (a : R) : degrees (- a) = - degrees a.
Proof. unfold degrees. ring. Qed.

Lemma to_latlon_bounds (vec : list R) (p : LatLon) :
  to_latlon vec = Ok p ->
  -90 <= get_lat p <= 90 /\ -180 < get_lon p <= 180.
Proof.
  pose proof PI_RGT_0 as Hpi.
  destruct vec as [| x [| y [| z [| w vec]]]]; try discriminate.
  destruct (Req_dec_T (x ^ 2 + y ^ 2 + z ^ 2) 0) as [Z | NZ].
  - rewrite to_latlon_zero by exact Z. discriminate.
  - rewrite to_latlon_nonzero by exact NZ. cbv zeta.
    set (m := sqrt (x ^ 2 + y ^ 2 + z ^ 2)).
    set (h := sqrt ((x / m) ^ 2 + (y / m) ^ 2)).
    intros E.
    apply (f_equal (fun r => match r with Ok q => q | Raise _ => p end)) in E.
    subst p. unfold get_lat, get_lon. cbn [lat lon].
    assert (Hh : 0 <= h) by apply sqrt_pos.
    assert (A : - (PI / 2) <= atan2 (z / m) h <= PI / 2).
    { unfold atan2. pose proof (atan_bound (z / m / h)).
      destruct (Rlt_dec 0 h); [lra |].
      destruct (Rlt_dec h 0); [lra |].
      destruct (Rlt_dec 0 (z / m)); [lra |].
      destruct (Rlt_dec (z / m) 0); lra. }
    pose proof (atan2_bound (y / m) (x / m)) as B.
    destruct A as [A1 A2]. destruct B as [B1 B2].
    apply degrees_le in A1, A2, B2. apply degrees_lt in B1.
    rewrite degrees_opp in A1, B1.
    rewrite degrees_PI2 in A1, A2. rewrite degrees_PI in B1, B2.
    lra.
Qed.

End Atan2.

(* ===================================================================== *)
(** * Round trips between positions and vectors *)
(* ===================================================================== *)

(** X1. Converting a position to its unit vector and back gives the
    position again, for every latitude strictly between -90 and 90 and
    every longitude in (-180, 180]. *)
Theorem to_latlon_to_rectangular (la lo : R) :
  -90 < la < 90 -> -180 < lo <= 180 ->
  to_latlon (to_rectangular (mkLatLon la lo)) = Ok (mkLatLon la lo).
Proof.
  intros Hlat Hlon. pose proof PI_RGT_0 as Hpi.
  unfold to_rectangular, get_lat, get_lon. cbn [lat lon].
  assert (Hf : - (PI / 2) < radians la < PI / 2).
  { rewrite <- radians_90, <- radians_opp. split; apply radians_lt; lra. }
  assert (Hl : - PI < radians lo <= PI).
  { rewrite <- radians_180, <- radians_opp.
    split; [apply radians_lt | apply radians_le]; lra. }
  set (f := radians la) in *. set (l := radians lo) in *.
  assert (Hc : 0 < cos f) by (apply cos_gt_0; lra).
  pose proof (sin_cos_sq f) as Sf. pose proof (sin_cos_sq l) as Sl.
  assert (Hxy : (cos f * cos l) ^ 2 + (cos f * sin l) ^ 2 = cos f ^ 2).
  { replace ((cos f * cos l) ^ 2 + (cos f * sin l) ^ 2)
      with (cos f ^ 2 * (sin l * sin l + cos l * cos l)) by ring.
    rewrite Sl. ring. }
  rewrite to_latlon_unit by (rewrite Hxy; lra).
  rewrite Hxy, sqrt_pow2 by lra.
  replace (atan2 (sin f) (cos f)) with (atan2 (1 * sin f) (1 * cos f))
    by (f_equal; ring).
  rewrite atan2_polar by lra.
  rewrite atan2_polar by lra.
  unfold f, l. rewrite !degrees_radians. reflexivity.
Qed.

Lemma to_latlon_to_rectangular_witness :
  to_latlon (to_rectangular (mkLatLon 25 50)) = Ok (mkLatLon 25 50).
Proof. apply to_latlon_to_rectangular; lra. Defined.

Section VectorRoundTrip.

Lemma to_latlon_then_to_rectangular (x y z : R) :
  x ^ 2 + y ^ 2 + z ^ 2 <> 0 ->
  exists p,
    to_latlon [x; y; z] = Ok p
    /\ to_rectangular p = [x / sqrt (x ^ 2 + y ^ 2 + z ^ 2);
                           y / sqrt (x ^ 2 + y ^ 2 + z ^ 2);
                           z / sqrt (x ^ 2 + y ^ 2 + z ^ 2)].
Proof.
  intros Hnz. pose proof (sum_sq_nonneg x y z) as Hge.
  rewrite to_latlon_nonzero by exact Hnz. cbv zeta.
  set (m := sqrt (x ^ 2 + y ^ 2 + z ^ 2)).
  assert (Hm : 0 < m) by (apply sqrt_lt_R0; lra).
  assert (Hmm : m * m = x ^ 2 + y ^ 2 + z ^ 2) by (apply sqrt_sqrt; lra).
  set (ux := x / m). set (uy := y / m). set (uz := z / m).
  assert (U : ux ^ 2 + uy ^ 2 + uz ^ 2 = 1).
  { unfold ux, uy, uz.
    replace ((x / m) ^ 2 + (y / m) ^ 2 + (z / m) ^ 2)
      with ((x ^ 2 + y ^ 2 + z ^ 2) / (m * m)) by (field; lra).
    rewrite Hmm. field. lra. }
  assert (Hh0 : 0 <= ux ^ 2 + uy ^ 2).
  { pose proof (pow2_ge_0 ux). pose proof (pow2_ge_0 uy). lra. }
  set (h := sqrt (ux ^ 2 + uy ^ 2)).
  assert (Hh : 0 <= h) by apply sqrt_pos.
  assert (Hhh : h ^ 2 = ux ^ 2 + uy ^ 2).
  { unfold h. replace (sqrt (ux ^ 2 + uy ^ 2) ^ 2)
      with (sqrt (ux ^ 2 + uy ^ 2) * sqrt (ux ^ 2 + uy ^ 2)) by ring.
    apply sqrt_sqrt. exact Hh0. }
  eexists. split; [reflexivity |].
  unfold to_rectangular, get_lat, get_lon.
  cbn [lat lon].
  rewrite !radians_degrees.
  destruct (atan2_cos_sin uz h) as [CA SA]; [rewrite Hhh, U; lra |].
  rewrite Hhh, U, sqrt_1 in CA, SA.
  rewrite CA, SA.
  destruct (Req_dec_T (ux ^ 2 + uy ^ 2) 0) as [Z | NZ].
  - assert (h = 0) by (unfold h; rewrite Z; apply sqrt_0).
    assert (ux = 0 /\ uy = 0) as [Zx Zy].
    { pose proof (pow2_ge_0 ux). pose proof (pow2_ge_0 uy).
      split; nra. }
    rewrite H, Zx, Zy. f_equal; [| f_equal; [| f_equal]]; lra.
  - assert (0 < h).
    { unfold h. apply sqrt_lt_R0. lra. }
    destruct (atan2_cos_sin uy ux NZ) as [CB SB].
    fold h in CB, SB. rewrite CB, SB.
    f_equal; [| f_equal; [| f_equal]]; field; lra.
Qed.

(** A position that [to_latlon] returns is a result of [to_latlon] on
    its own unit vector. *)
Lemma to_latlon_fixed_point (vec : list R) (p : LatLon) :
  to_latlon vec = Ok p -> to_latlon (to_rectangular p) = Ok p.
Proof.
  intros E.
  destruct vec as [| x [| y [| z [| w vec]]]]; try discriminate.
  destruct (Req_dec_T (x ^ 2 + y ^ 2 + z ^ 2) 0) as [Z | NZ].
  - rewrite to_latlon_zero in E by exact Z. discriminate.
  - destruct (to_latlon_then_to_rectangular x y z NZ) as (q & Eq & Er).
    rewrite E in Eq. injection Eq as <-. rewrite Er.
    pose proof (sum_sq_nonneg x y z) as Hge.
    set (m := sqrt (x ^ 2 + y ^ 2 + z ^ 2)) in *.
    assert (Hm : 0 < m) by (apply sqrt_lt_R0; lra).
    assert (Hmm : m * m = x ^ 2 + y ^ 2 + z ^ 2) by (apply sqrt_sqrt; lra).
    rewrite to_latlon_unit.
    + rewrite <- E. rewrite to_latlon_nonzero by exact NZ. reflexivity.
    + replace ((x / m) ^ 2 + (y / m) ^ 2 + (z / m) ^ 2)
        with ((x ^ 2 + y ^ 2 + z ^ 2) / (m * m)) by (field; lra).
      rewrite Hmm. field. lra.
Qed.

End VectorRoundTrip.

(** X2. Converting a vector to a position and back gives the vector
    scaled to unit length, and converting once more gives the same
    position: the positions that [to_latlon] returns, the poles
    included, are fixed by the round trip. *)
Theorem to_rectangular_to_latlon (vec : list R) (p : LatLon) :
  to_latlon vec = Ok p ->
  (exists x y z,
     vec = [x; y; z]
     /\ to_rectangular p = [x / sqrt (x ^ 2 + y ^ 2 + z ^ 2);
                            y / sqrt (x ^ 2 + y ^ 2 + z ^ 2);
                            z / sqrt (x ^ 2 + y ^ 2 + z ^ 2)])
  /\ to_latlon (to_rectangular p) = Ok p.
Proof.
  intros E. split; [| apply (to_latlon_fixed_point vec); exact E].
  destruct vec as [| x [| y [| z [| w vec]]]]; try discriminate.
  exists x, y, z. split; [reflexivity |].
  destruct (Req_dec_T (x ^ 2 + y ^ 2 + z ^ 2) 0) as [Z | NZ].
  - rewrite to_latlon_zero in E by exact Z. discriminate.
  - destruct (to_latlon_then_to_rectangular x y z NZ) as (q & Eq & Er).
    rewrite E in Eq. injection Eq as <-. exact Er.
Qed.

Lemma to_rectangular_to_latlon_witness :
  to_latlon [0; 1; 0] = Ok (mkLatLon 0 90)
  /\ to_latlon (to_rectangular (mkLatLon 0 90)) = Ok (mkLatLon 0 90).
Proof.
  split; [apply to_latlon_0_1_0 |].
  apply (to_rectangular_to_latlon [0; 1; 0]). apply to_latlon_0_1_0.
Defined.

(** X3. [to_latlon] raises [ValueError] on a list that does not have
    exactly three components, and on the zero vector; a position it
    returns comes from three components that are not all zero, and has
    its latitude in [-90, 90] and its longitude in [-180, 180]. *)
Theorem to_latlon_outcomes (vec : list R) :
  (List.length vec <> 3%nat ->
   exists m, to_latlon vec = Raise (ValueError m))
  /\ (vec = [0; 0; 0] ->
      to_latlon vec
      = Raise (ValueError (Msg "Zero vector cannot be converted to LatLon")))
  /\ (forall p, to_latlon vec = Ok p ->
      (exists x y z, vec = [x; y; z] /\ ~ (x = 0 /\ y = 0 /\ z = 0))
      /\ -90 <= get_lat p <= 90 /\ -180 <= get_lon p <= 180).
Proof.
  split; [| split].
  - destruct vec as [| x [| y [| z [| w vec]]]]; cbn [List.length];
      intros N; try (eexists; reflexivity).
    contradiction.
  - intros ->. apply to_latlon_zero. lra.
  - intros p H. pose proof (to_latlon_bounds vec p H) as B.
    split; [| lra].
    destruct vec as [| x [| y [| z [| w vec]]]]; try discriminate.
    exists x, y, z. split; [reflexivity |].
    intros (-> & -> & ->).
    rewrite to_latlon_zero in H by lra. discriminate.
Qed.

(* ===================================================================== *)
(** * Vectors of any length *)
(* ===================================================================== *)

Section ListVectors.

Lemma fold_left_Rplus_acc (l : list R) (a : R) :
  fold_left Rplus l a = a + fold_left Rplus l 0.
Proof.
  revert a. induction l as [| v l IH]; intros a; cbn [fold_left].
  - lra.
  - rewrite (IH (a + v)), (IH (0 + v)). lra.
Qed.

Lemma py_sum_cons (v : R) (l : list R) : py_sum (v :: l) = v + py_sum l.
Proof.
  unfold py_sum. cbn [fold_left]. rewrite fold_left_Rplus_acc. lra.
Qed.

Lemma sum_squares_nonneg (vec : list R) :
  0 <= py_sum (map (fun v => v ^ 2) vec).
Proof.
  induction vec as [| v vec IH]; cbn [map].
  - unfold py_sum. cbn. lra.
  - rewrite py_sum_cons. pose proof (pow2_ge_0 v). lra.
Qed.

Lemma mapM_py_div (vec : list R) (m : R) :
  m <> 0 ->
  mapM (fun v => py_div v m) vec = Ok (map (fun v => v / m) vec).
Proof.
  intros Hm. induction vec as [| v vec IH]; cbn [mapM map].
  - reflexivity.
  - rewrite py_div_ok by exact Hm. cbn [bind]. rewrite IH. reflexivity.
Qed.

End ListVectors.

(** X6. [add_vecs] adds the first three components and ignores the rest;
    it raises [IndexError] as soon as one argument has fewer than three
    components. *)
Theorem add_vecs_three (vec1 vec2 : list R) :
  ((3 <= List.length vec1)%nat /\ (3 <= List.length vec2)%nat ->
   add_vecs vec1 vec2
   = Ok [nth 0 vec1 0 + nth 0 vec2 0; nth 1 vec1 0 + nth 1 vec2 0;
         nth 2 vec1 0 + nth 2 vec2 0])
  /\ ((List.length vec1 < 3)%nat \/ (List.length vec2 < 3)%nat ->
      add_vecs vec1 vec2 = Raise IndexError).
Proof.
  unfold add_vecs. split.
  - intros [H1 H2].
    destruct vec1 as [| a1 [| b1 [| c1 vec1]]]; cbn in H1; try lia.
    destruct vec2 as [| a2 [| b2 [| c2 vec2]]]; cbn in H2; try lia.
    reflexivity.
  - intros [H | H].
    + destruct vec1 as [| a1 [| b1 [| c1 vec1]]]; cbn in H; try lia;
        try reflexivity;
        destruct vec2 as [| a2 [| b2 [| c2 vec2]]]; reflexivity.
    + destruct vec2 as [| a2 [| b2 [| c2 vec2]]]; cbn in H; try lia;
        destruct vec1 as [| a1 [| b1 [| c1 vec1]]]; reflexivity.
Qed.

(* ===================================================================== *)
(** * The great-circle distance as an arc *)
(* ===================================================================== *)

Section DistanceArc.

Lemma angular_separation_dot (p q : LatLon) :
  angular_separation p q = acos (1 - 2 * haversine_a p q).
Proof.
  rewrite haversine_a_dot.
  pose proof (unit_dot_range (radians (get_lat p)) (radians (get_lon p))
                             (radians (get_lat q)) (radians (get_lon q))) as Hr.
  unfold angular_separation, dot_product, to_rectangular.
  cbn [nth py_sum fold_left].
  rewrite clamp_id by lra. f_equal. lra.
Qed.

(** [2 * atan2 (sqrt a) (sqrt (1 - a))] is the angle whose cosine is
    [1 - 2 a]. *)
Lemma haversine_angle (a : R) :
  0 <= a <= 1 -> 2 * atan2 (sqrt a) (sqrt (1 - a)) = acos (1 - 2 * a).
Proof.
  intros [H0 H1]. pose proof PI_RGT_0 as Hpi.
  set (t := atan2 (sqrt a) (sqrt (1 - a))).
  assert (Hsum : sqrt (1 - a) ^ 2 + sqrt a ^ 2 = 1).
  { replace (sqrt (1 - a) ^ 2) with (sqrt (1 - a) * sqrt (1 - a)) by ring.
    replace (sqrt a ^ 2) with (sqrt a * sqrt a) by ring.
    rewrite !sqrt_sqrt by lra. lra. }
  destruct (atan2_cos_sin (sqrt a) (sqrt (1 - a))) as [C S];
    [rewrite Hsum; lra |].
  rewrite Hsum, sqrt_1 in C, S. fold t in C, S.
  assert (Ht : 0 <= t <= PI / 2).
  { unfold t, atan2. pose proof (sqrt_pos a). pose proof (sqrt_pos (1 - a)).
    destruct (Rlt_dec 0 (sqrt (1 - a))) as [Hx | Hx].
    - pose proof (atan_bound (sqrt a / sqrt (1 - a))).
      assert (0 <= sqrt a / sqrt (1 - a)).
      { apply Rmult_le_pos; [lra |].
        apply Rlt_le, Rinv_0_lt_compat. exact Hx. }
      assert (0 <= atan (sqrt a / sqrt (1 - a))).
      { destruct (Req_dec_T (sqrt a / sqrt (1 - a)) 0) as [-> | N];
          [rewrite atan_0; lra |].
        rewrite <- atan_0. apply Rlt_le, atan_increasing. lra. }
      lra.
    - destruct (Rlt_dec (sqrt (1 - a)) 0); [lra |].
      destruct (Rlt_dec 0 (sqrt a)); [lra |].
      destruct (Rlt_dec (sqrt a) 0); lra. }
  rewrite <- (acos_cos (2 * t)) by lra.
  f_equal. rewrite cos_2a_sin, S.
  replace (2 * (sqrt a / 1) * (sqrt a / 1)) with (2 * (sqrt a * sqrt a))
    by (field).
  rewrite sqrt_sqrt by lra. reflexivity.
Qed.

(** The haversine formula gives the arc of the law of cosines. *)
Lemma haversine_is_arc (p q : LatLon) :
  great_circle_km p q = great_circle_arc_km p q.
Proof.
  unfold great_circle_km, great_circle_arc_km, central_angle, EARTH_RADIUS_KM.
  rewrite haversine_angle by apply haversine_a_range.
  rewrite haversine_a_dot. cbv zeta. unfold radians.
  f_equal. f_equal.
  replace (get_lon q * PI / 180 - get_lon p * PI / 180)
    with (get_lon q * (PI / 180) - get_lon p * (PI / 180)) by lra.
  replace (get_lat p * PI / 180) with (get_lat p * (PI / 180)) by lra.
  replace (get_lat q * PI / 180) with (get_lat q * (PI / 180)) by lra.
  rewrite cos_minus. lra.
Qed.

Lemma cos_turn (x : R) : cos (x + 2 * PI) = cos x.
Proof.
  rewrite <- (cos_period x 1). f_equal. simpl INR. lra.
Qed.

Lemma sin_turn (x : R) : sin (x + 2 * PI) = sin x.
Proof.
  rewrite <- (sin_period x 1). f_equal. simpl INR. lra.
Qed.

End DistanceArc.



(** X8. Longitudes count modulo 360 in the great-circle distance: a
    whole turn added to or taken from the longitude of either position
    leaves the distance unchanged. *)
Theorem spherical_distance_whole_turn (p : LatLon) (la lo : R) :
  spherical_distance p (mkLatLon la (lo + 360))
  = spherical_distance p (mkLatLon la lo)
  /\ spherical_distance p (mkLatLon la (lo - 360))
     = spherical_distance p (mkLatLon la lo)
  /\ spherical_distance (mkLatLon la (lo + 360)) p
     = spherical_distance (mkLatLon la lo) p.
Proof.
  assert (P : forall x, radians (x + 360) = radians x + 2 * PI)
    by (intros x; unfold radians; lra).
  assert (A : forall a b x, haversine_a a (mkLatLon b (x + 360))
                            = haversine_a a (mkLatLon b x)).
  { intros a b x. rewrite !haversine_a_dot. unfold get_lat, get_lon.
    cbn [lat lon]. rewrite P, cos_turn, sin_turn.
    reflexivity. }
  assert (B : forall a b x, haversine_a (mkLatLon b (x + 360)) a
                            = haversine_a (mkLatLon b x) a).
  { intros a b x. rewrite (haversine_a_sym _ a), A. apply haversine_a_sym. }
  rewrite !spherical_distance_eq.
  split; [rewrite A; reflexivity | split; [| rewrite B; reflexivity]].
  rewrite <- (A p la (lo - 360)).
  replace (lo - 360 + 360) with lo by lra. reflexivity.
Qed.

(* ===================================================================== *)
(** * The candidate the two-sight fix keeps *)
(* ===================================================================== *)

(** C1, on the code.  For a collection of exactly two sights whose
    circles of position intersect in the candidates [int1] and [int2]:
    without an estimated position the fix is [int1]; with an estimate
    [est] the fix calls [spherical_distance] from [est] to [int1], then
    to [int2], and an exception of either call is the outcome of the
    fix; when both calls return, each number is the great-circle
    distance of the two positions (the arc of the spherical law of
    cosines), and the fix is the candidate with the smaller one, [int2]
    when the two are equal. *)
Theorem two_sight_fix_selects_closest (c : SightCollection) (s1 s2 : Sight)
    (int1 int2 : LatLon) :
  sights c = [s1; s2] ->
  pair_intersection s1 s2 = Ok (Some (int1, int2)) ->
  get_intersections c None = Ok int1
  /\ (forall est : LatLon,
        get_intersections c (Some est)
        = (d1 <- spherical_distance est int1 ;;
           d2 <- spherical_distance est int2 ;;
           Ok (if Rltb d1 d2 then int1 else int2)))
  /\ (forall (est : LatLon) (d1 d2 : R),
        spherical_distance est int1 = Ok d1 ->
        spherical_distance est int2 = Ok d2 ->
        d1 = great_circle_arc_km est int1
        /\ d2 = great_circle_arc_km est int2
        /\ (d1 < d2 -> get_intersections c (Some est) = Ok int1)
        /\ (d2 <= d1 -> get_intersections c (Some est) = Ok int2)).
Proof.
  intros E H.
  assert (G : forall est,
             get_intersections c est
             = match est with
               | Some est =>
                   d1 <- spherical_distance est int1 ;;
                   d2 <- spherical_distance est int2 ;;
                   Ok (if Rltb d1 d2 then int1 else int2)
               | None => Ok int1
               end).
  { intros est. rewrite (get_intersections_two c s1 s2) by exact E.
    unfold calculate_two_sight_fix. rewrite E. cbn [idx nth_error bind].
    fold (pair_intersection s1 s2). rewrite H. reflexivity. }
  assert (A : forall p q d, spherical_distance p q = Ok d ->
                            d = great_circle_arc_km p q).
  { intros p q d Hd. rewrite spherical_distance_eq in Hd.
    injection Hd as <-. apply haversine_is_arc. }
  split; [apply (G None) |]. split; [intros est; apply (G (Some est)) |].
  intros est d1 d2 H1 H2.
  split; [apply A; exact H1 |]. split; [apply A; exact H2 |].
  rewrite (G (Some est)), H1, H2. cbn [bind]. unfold Rltb.
  destruct (Rlt_dec d1 d2); split; intros; (reflexivity || lra).
Qed.

(** The first two example sights: without estimate the fix is the first
    candidate, at 90 degrees east; with the estimate at 90 degrees west
    it is the second candidate. *)
Lemma two_sight_fix_selects_closest_witness :
  SightCollection_init [pole; meridian] = Ok two_sights
  /\ get_intersections two_sights None = Ok (mkLatLon 0 90)
  /\ get_intersections two_sights (Some (mkLatLon 0 (-90)))
     = Ok (mkLatLon 0 (-90)).
Proof.
  split; [reflexivity |].
  destruct (two_sight_fix_selects_closest two_sights pole meridian
              (mkLatLon 0 90) (mkLatLon 0 (-90)) eq_refl pair_pole_meridian)
    as (HN & _ & HS).
  split; [exact HN |].
  destruct (HS (mkLatLon 0 (-90)) _ _
              (spherical_distance_eq _ _) (spherical_distance_eq _ _))
    as (_ & _ & _ & Hle).
  apply Hle.
  fold (great_circle_km (mkLatLon 0 (-90)) (mkLatLon 0 90)).
  fold (great_circle_km (mkLatLon 0 (-90)) (mkLatLon 0 (-90))).
  rewrite great_circle_km_same.
  unfold great_circle_km. rewrite haversine_a_sym, haversine_a_opposite.
  replace (1 - 1) with 0 by lra.
  rewrite sqrt_0, sqrt_1, atan2_1_0.
  pose proof PI_RGT_0. unfold EARTH_RADIUS_KM. lra.
Defined.

(** The distance the fix asks for can fail.  For the two sights of
    Sirius and Canopus taken at 30 and 40.2 degrees from a height of ten
    metres on 2024-05-05 at 22:00:00, and the estimate at the antipode
    of the first candidate, the library returns [0.0045566400218448695]
    for [sin(dlat/2)**2], [0.997719078688062] for both cosines and [1.0]
    for [sin(dlon/2)**2]: in binary64 the haversine term is
    [1.0000000000000002], and [sqrt] raises on [1 - a]. *)
Example antipodal_estimate_raises :
  Binary64.haversine_roots
    (SpecFloat.S754_finite false 5253448269937163 (-60))
    (SpecFloat.S754_finite false 8986654541999981 (-53))
    (SpecFloat.S754_finite false 8986654541999981 (-53))
    (Binary64.of_int 1)
  = Raise (ValueError (Msg "math domain error")).
Proof. vm_compute. reflexivity. Qed.

(* ===================================================================== *)
(** * Hour angles, whole turns *)
(* ===================================================================== *)

Section WholeTurns.

Lemma py_mod_in_range (x : R) : 0 <= x < 360 -> py_mod x 360 = x.
Proof. intros H. rewrite (py_mod_eq x 360 0) by lra. lra. Qed.

Lemma py_mod_idempotent (x : R) : py_mod (py_mod x 360) 360 = py_mod x 360.
Proof. apply py_mod_in_range. apply py_mod_range. lra. Qed.

End WholeTurns.

(** X9. The local hour angle is the sum of the Greenwich hour angle and
    the longitude reduced by whole turns to a value between 0 and 360,
    both bounds included; on the meridian of Greenwich it is the
    Greenwich hour angle itself when that lies in [0, 360). *)
Theorem calculate_lha_reduced (g observer_lon : R) :
  0 <= calculate_lha g observer_lon <= 360
  /\ (exists k : Z,
         calculate_lha g observer_lon = g + observer_lon - IZR k * 360)
  /\ (0 <= g < 360 -> calculate_lha g 0 = g).
Proof.
  unfold calculate_lha.
  pose proof (py_mod_range (g + observer_lon) 360) as Hr.
  split; [lra |]. split.
  - exists (Zfloor ((g + observer_lon) / 360)). reflexivity.
  - intros H. rewrite Rplus_0_r. apply py_mod_in_range. exact H.
Qed.

(** X11. For a sight whose hour angle lies between 0 and 360, both bounds
    included (the remainder of a binary64 division can be 360 itself),
    [get_gp] returns the declination as latitude and, as longitude,
    [- gha] when [gha <= 180] and [360 - gha] otherwise: a longitude in
    [-180, 180), which is 0 for the hour angle 360. *)
Theorem get_gp_closed_interval (s : Sight) :
  0 <= gha s <= 360 ->
  get_lat (get_gp s) = dec s
  /\ get_lon (get_gp s) = (if Rle_dec (gha s) 180 then - gha s
                           else 360 - gha s)
  /\ -180 <= get_lon (get_gp s) < 180
  /\ (gha s = 360 -> get_lon (get_gp s) = 0).
Proof.
  intros [H0 H360].
  assert (E : get_gp s = mkLatLon (dec s) (if Rle_dec (gha s) 180
                                           then - gha s else 360 - gha s)).
  { destruct (Rlt_dec (gha s) 360) as [Hlt | Hge].
    - apply get_gp_eq. lra.
    - assert (G : gha s = 360) by lra.
      unfold get_gp. rewrite G.
      rewrite add_while_below_step by lra.
      rewrite add_while_below_stop by lra.
      rewrite sub_while_above_stop by lra.
      destruct (Rle_dec 360 180); [lra |]. f_equal. lra. }
  rewrite E. unfold get_lat, get_lon. cbn [lat lon].
  split; [reflexivity |]. split; [reflexivity |].
  destruct (Rle_dec (gha s) 180); split; lra.
Qed.

Lemma get_gp_closed_interval_witness :
  get_lat (get_gp (mkSight 0 10 j2000 45 0 10 101 45 360)) = 10
  /\ get_lon (get_gp (mkSight 0 10 j2000 45 0 10 101 45 360)) = 0.
Proof.
  destruct (get_gp_closed_interval (mkSight 0 10 j2000 45 0 10 101 45 360))
    as (L1 & _ & _ & L2); [cbn [gha]; lra |].
  split; [exact L1 | apply L2; reflexivity].
Defined.

(* ===================================================================== *)
(** * Corrections of the observed altitude *)
(* ===================================================================== *)

Section Corrections.

Lemma horizon_dip_eq (h : R) :
  horizon_dip h = Ok (if Rle_dec h 0 then 0 else 1.76 * sqrt h / 60).
Proof.
  unfold horizon_dip. destruct (Rle_dec h 0) as [H | H]; [reflexivity |].
  rewrite py_sqrt_ok by lra. reflexivity.
Qed.

Lemma horizon_dip_nonneg (h d : R) : horizon_dip h = Ok d -> 0 <= d.
Proof.
  rewrite horizon_dip_eq. intros E.
  apply (f_equal (fun r => match r with Ok q => q | Raise _ => d end)) in E.
  subst d. destruct (Rle_dec h 0); [lra |].
  pose proof (sqrt_pos h). lra.
Qed.

(** The angle whose tangent enters the refraction, in radians, when the
    altitude plus its Bennett term stays below 90 degrees. *)
Lemma bennett_angle (h : R) :
  0 < h -> h + 7.31 / (h + 4.4) < 90 ->
  0 < radians (h + 7.31 / (h + 4.4)) < PI / 2.
Proof.
  intros H0 H90.
  assert (0 < 7.31 / (h + 4.4)) by (apply Rdiv_lt_0_compat; lra).
  split.
  - replace 0 with (radians 0) by (unfold radians; lra).
    apply radians_lt. lra.
  - rewrite <- radians_90. apply radians_lt. exact H90.
Qed.

Lemma atmospheric_refraction_eq (h T P : R) :
  0 < h -> h + 7.31 / (h + 4.4) < 90 -> T + 273.15 <> 0 ->
  atmospheric_refraction h T P =
  Ok (1 / tan (radians (h + 7.31 / (h + 4.4))) * (P / 101)
      * (283 / (T + 273.15)) / 60).
Proof.
  intros H0 H90 HT.
  assert (Hq : 0 < 7.31 / (h + 4.4)) by (apply Rdiv_lt_0_compat; lra).
  destruct (bennett_angle h H0 H90) as [A0 A1].
  pose proof (tan_gt_0 _ A0 A1) as Htan.
  unfold atmospheric_refraction.
  destruct (Rle_dec h 0); [lra |]. destruct (Rle_dec 90 h); [lra |].
  rewrite py_div_ok by lra. cbn [bind].
  rewrite py_div_ok by lra. cbn [bind].
  rewrite py_div_ok by exact HT. reflexivity.
Qed.

End Corrections.

(** X12. The horizon dip never raises; it is 0 for a height that is not
    positive, positive for a positive height, and it does not decrease
    when the height grows. *)
Theorem horizon_dip_monotone (h1 h2 : R) :
  exists d1 d2,
    horizon_dip h1 = Ok d1 /\ horizon_dip h2 = Ok d2
    /\ (h1 <= 0 -> d1 = 0)
    /\ (0 < h1 -> 0 < d1)
    /\ (h1 <= h2 -> d1 <= d2).
Proof.
  rewrite !horizon_dip_eq. do 2 eexists.
  split; [reflexivity |]. split; [reflexivity |].
  pose proof (sqrt_pos h1) as P1. pose proof (sqrt_pos h2) as P2.
  destruct (Rle_dec h1 0) as [L1 | G1].
  - split; [reflexivity |]. split; [lra |].
    intros _. destruct (Rle_dec h2 0); lra.
  - split; [lra |].
    assert (0 < sqrt h1) by (apply sqrt_lt_R0; lra).
    split; [lra |].
    intros Hle. destruct (Rle_dec h2 0); [lra |].
    assert (sqrt h1 <= sqrt h2) by (apply sqrt_le_1; lra). lra.
Qed.

(** X13. The refraction is 0 for an altitude outside (0, 90).  For an
    altitude whose Bennett angle [h + 7.31 / (h + 4.4)] stays below 90
    degrees, a positive pressure and a temperature above absolute zero
    it is computed and positive, and it is proportional to the
    pressure. *)
Theorem atmospheric_refraction_sign (h T P : R) :
  (h <= 0 \/ 90 <= h -> atmospheric_refraction h T P = Ok 0)
  /\ (0 < h -> h + 7.31 / (h + 4.4) < 90 -> -273.15 < T ->
      exists r1,
        atmospheric_refraction h T 1 = Ok r1 /\ 0 < r1
        /\ atmospheric_refraction h T P = Ok (P * r1)).
Proof.
  split.
  - intros [H | H]; unfold atmospheric_refraction.
    + destruct (Rle_dec h 0); [reflexivity | lra].
    + destruct (Rle_dec h 0); [reflexivity |].
      destruct (Rle_dec 90 h); [reflexivity | lra].
  - intros H0 H90 HT.
    destruct (bennett_angle h H0 H90) as [A0 A1].
    pose proof (tan_gt_0 _ A0 A1) as Htan.
    rewrite !atmospheric_refraction_eq by lra.
    eexists. split; [reflexivity |]. split.
    + assert (0 < 1 / tan (radians (h + 7.31 / (h + 4.4))))
        by (apply Rdiv_lt_0_compat; lra).
      assert (0 < 283 / (T + 273.15)) by (apply Rdiv_lt_0_compat; lra).
      apply Rdiv_lt_0_compat; [| lra].
      apply Rmult_lt_0_compat; [| assumption].
      apply Rmult_lt_0_compat; [assumption | lra].
    + f_equal. field. split; lra.
Qed.

(** X14. The temperature is not validated: at -273.15 degrees Celsius
    the refraction divides by zero, and so does the construction of a
    sight with refraction applied, although declination, time and
    altitude are all accepted. *)
Theorem Sight_init_absolute_zero
    (fromisoformat : string -> option datetime)
    (ra0 dec0 altitude : R) (iso : string) (height press : R)
    (apply_dip : bool) :
  -90 <= dec0 <= 90 -> fromisoformat iso <> None ->
  0 < altitude -> altitude + 7.31 / (altitude + 4.4) < 90 ->
  atmospheric_refraction altitude (-273.15) press = Raise ZeroDivisionError
  /\ Sight_init fromisoformat ra0 dec0 altitude iso height (-273.15) press
                true apply_dip
     = Raise ZeroDivisionError.
Proof.
  intros [D1 D2] Hp H0 H90.
  assert (Hq : 0 < 7.31 / (altitude + 4.4))
    by (apply Rdiv_lt_0_compat; lra).
  assert (E : atmospheric_refraction altitude (-273.15) press
              = Raise ZeroDivisionError).
  { destruct (bennett_angle altitude H0 H90) as [A0 A1].
    pose proof (tan_gt_0 _ A0 A1) as Htan.
    unfold atmospheric_refraction.
    destruct (Rle_dec altitude 0); [lra |].
    destruct (Rle_dec 90 altitude); [lra |].
    rewrite py_div_ok by lra. cbn [bind].
    rewrite py_div_ok by lra. cbn [bind].
    rewrite py_div_zero by lra. reflexivity. }
  split; [exact E |].
  unfold Sight_init.
  rewrite (Rleb_true _ _ D1), (Rleb_true _ _ D2). cbn [andb negb].
  unfold parse_time. destruct (fromisoformat iso); [| contradiction].
  cbn [bind].
  rewrite (Rltb_true 0 altitude), (Rltb_true altitude 90) by lra.
  cbn [andb negb]. rewrite E. reflexivity.
Qed.

Lemma Sight_init_absolute_zero_witness :
  atmospheric_refraction 45 (-273.15) 101 = Raise ZeroDivisionError
  /\ Sight_init fromisoformat_seconds 101.2875 (-16.7161) 45
                "2024-05-05T22:00:00" 10 (-273.15) 101 true true
     = Raise ZeroDivisionError.
Proof.
  apply Sight_init_absolute_zero; [lra | discriminate | lra | lra].
Defined.

(* ===================================================================== *)
(** * What a constructed sight satisfies *)
(* ===================================================================== *)

Section SightInversion.

Lemma Sight_init_inv
    (fromisoformat : string -> option datetime)
    (ra0 dec0 altitude : R) (iso : string) (height temp press : R)
    (apply_refraction apply_dip : bool) (s : Sight) :
  Sight_init fromisoformat ra0 dec0 altitude iso height temp press
             apply_refraction apply_dip = Ok s ->
  -90 <= dec0 <= 90 /\ 0 < altitude < 90
  /\ exists t refraction dip g,
       fromisoformat iso = Some t
       /\ (if apply_refraction
           then atmospheric_refraction altitude temp press = Ok refraction
           else refraction = 0)
       /\ (if apply_dip && Rltb 0 height
           then horizon_dip height = Ok dip else dip = 0)
       /\ calculate_gha ra0 t = Ok g
       /\ s = mkSight (py_mod ra0 360) dec0 t altitude height temp press
                      (altitude - refraction - dip) g.
Proof.
  unfold Sight_init.
  destruct (Rle_dec (-90) dec0) as [Hl | Hl];
    [rewrite (Rleb_true _ _ Hl) | rewrite Rleb_false by lra; discriminate].
  destruct (Rle_dec dec0 90) as [Hu | Hu];
    [rewrite (Rleb_true _ _ Hu) | rewrite Rleb_false by lra; discriminate].
  cbn [andb negb]. unfold parse_time.
  destruct (fromisoformat iso) as [t |]; [| discriminate]. cbn [bind].
  destruct (Rlt_dec 0 altitude) as [Al | Al];
    [rewrite (Rltb_true _ _ Al) | rewrite Rltb_false by lra; discriminate].
  destruct (Rlt_dec altitude 90) as [Au | Au];
    [rewrite (Rltb_true _ _ Au) | rewrite Rltb_false by lra; discriminate].
  cbn [andb negb]. intros E.
  split; [lra |]. split; [lra |]. exists t.
  destruct apply_refraction.
  - destruct (atmospheric_refraction altitude temp press) as [r | e];
      [| discriminate].
    cbn [bind] in E.
    destruct (apply_dip && Rltb 0 height).
    + destruct (horizon_dip height) as [d | e]; [| discriminate].
      cbn [bind] in E.
      destruct (calculate_gha ra0 t) as [g | e]; [| discriminate].
      cbn [bind] in E. exists r, d, g. injection E as <-. repeat split.
    + cbn [bind] in E.
      destruct (calculate_gha ra0 t) as [g | e]; [| discriminate].
      cbn [bind] in E. exists r, 0, g. injection E as <-.
      repeat split. f_equal. lra.
  - cbn [bind] in E.
    destruct (apply_dip && Rltb 0 height).
    + destruct (horizon_dip height) as [d | e]; [| discriminate].
      cbn [bind] in E.
      destruct (calculate_gha ra0 t) as [g | e]; [| discriminate].
      cbn [bind] in E. exists 0, d, g. injection E as <-.
      repeat split. f_equal. lra.
    + cbn [bind] in E.
      destruct (calculate_gha ra0 t) as [g | e]; [| discriminate].
      cbn [bind] in E. exists 0, 0, g. injection E as <-.
      repeat split. f_equal. lra.
Qed.

End SightInversion.

(** X15. A sight that the constructor returns keeps its inputs and is in
    range: declination and observed altitude are the given ones, in
    [-90, 90] and (0, 90); the stored right ascension is the given one
    reduced by whole turns to a value between 0 and 360; the time is the
    parsed one and is naive; the stored hour angle is the one computed
    from the given right ascension at that time and lies between 0 and
    360; the geographic position has its latitude in [-90, 90] and its
    longitude in [-180, 180); and without refraction the corrected
    altitude is at most the observed one, so that the distance from the
    geographic position is positive. *)
Theorem Sight_init_postconditions
    (fromisoformat : string -> option datetime)
    (ra0 dec0 altitude : R) (iso : string) (height temp press : R)
    (apply_refraction apply_dip : bool) (s : Sight) :
  Sight_init fromisoformat ra0 dec0 altitude iso height temp press
             apply_refraction apply_dip = Ok s ->
  dec s = dec0 /\ -90 <= dec0 <= 90
  /\ observed_altitude s = altitude /\ 0 < altitude < 90
  /\ 0 <= ra s <= 360 /\ (exists k : Z, ra s = ra0 - IZR k * 360)
  /\ fromisoformat iso = Some (time s) /\ tzinfo (time s) = None
  /\ calculate_gha ra0 (time s) = Ok (gha s) /\ 0 <= gha s <= 360
  /\ -90 <= get_lat (get_gp s) <= 90
  /\ -180 <= get_lon (get_gp s) < 180
  /\ (apply_refraction = false ->
      corrected_altitude s <= altitude /\ 0 < get_distance_from_gp s).
Proof.
  intros E. pose proof PI_RGT_0 as Hpi.
  destruct (Sight_init_inv _ _ _ _ _ _ _ _ _ _ _ E)
    as (Hd & Ha & t & r & d & g & Ht & Hr & Hdip & Hg & ->).
  cbn [ra gha time dec observed_altitude corrected_altitude].
  split; [reflexivity |]. split; [exact Hd |].
  split; [reflexivity |]. split; [exact Ha |].
  pose proof (py_mod_range ra0 360) as Hra.
  split; [lra |].
  split; [exists (Zfloor (ra0 / 360)); reflexivity |].
  split; [exact Ht |].
  split; [exact (calculate_gha_ok_naive _ _ _ Hg) |].
  split; [exact Hg |].
  pose proof (calculate_gha_range ra0 t g Hg) as Rg.
  split; [lra |].
  rewrite get_gp_eq by exact Rg. unfold get_lat, get_lon.
  cbn [lat lon dec gha].
  split; [exact Hd |]. split.
  - destruct (Rle_dec g 180); lra.
  - intros ->. subst r.
    assert (0 <= d).
    { destruct (apply_dip && Rltb 0 height);
        [apply (horizon_dip_nonneg height); exact Hdip | lra]. }
    split; [lra |].
    unfold get_distance_from_gp, radians, EARTH_RADIUS_KM.
    cbn [corrected_altitude].
    apply Rmult_lt_0_compat; [| lra].
    apply Rmult_lt_0_compat; [lra |].
    apply Rdiv_lt_0_compat; lra.
Qed.

Lemma Sight_init_postconditions_witness :
  exists s,
    plain_sight 101.2875 (-16.7161) 55.5 = Ok s
    /\ dec s = -16.7161 /\ 0 <= ra s <= 360 /\ 0 <= gha s <= 360.
Proof.
  eexists. split; [apply plain_sight_eq; lra |].
  match goal with |- dec ?s = _ /\ _ =>
    destruct (Sight_init_postconditions fromisoformat_seconds
                101.2875 (-16.7161) 55.5 epoch_iso 0 10 101 false false s)
      as (H1 & _ & _ & _ & H2 & _ & _ & _ & _ & H3 & _)
  end.
  - apply plain_sight_eq; lra.
  - split; [exact H1 |]. split; assumption.
Defined.

(* ===================================================================== *)
(** * Outcomes of the solver *)
(* ===================================================================== *)

Section SolverOutcomes.

(** The two points of the second half of the solver are results of
    [to_latlon]. *)
Lemma intersection_points_from_to_latlon
    (vec1 vec2 : list R) (r1 r2 d : R) (p1 p2 : LatLon) :
  intersection_points vec1 vec2 r1 r2 d = Ok (Some (p1, p2)) ->
  exists v1 v2, to_latlon v1 = Ok p1 /\ to_latlon v2 = Ok p2.
Proof.
  unfold intersection_points.
  repeat match goal with
         | |- bind ?c _ = _ -> _ =>
             let E := fresh "E" in
             destruct c eqn:E; cbn [bind]; [| discriminate]
         end.
  intros H. injection H as <- <-. eauto.
Qed.

Lemma solver_points_in_range
    (gp1 : LatLon) (dist1 : R) (gp2 : LatLon) (dist2 : R) (p1 p2 : LatLon) :
  calculate_circle_intersection gp1 dist1 gp2 dist2 = Ok (Some (p1, p2)) ->
  (-90 <= get_lat p1 <= 90 /\ -180 < get_lon p1 <= 180)
  /\ (-90 <= get_lat p2 <= 90 /\ -180 < get_lon p2 <= 180).
Proof.
  intros H.
  destruct (no_intersection_class_dec (dist1 / EARTH_RADIUS_KM)
              (dist2 / EARTH_RADIUS_KM) (angular_separation gp1 gp2))
    as [C | C].
  - rewrite circle_intersection_classified in H by exact C. discriminate.
  - rewrite circle_intersection_unclassified in H by exact C.
    destruct (intersection_points_from_to_latlon _ _ _ _ _ _ _ H)
      as (v1 & v2 & L1 & L2).
    split; [apply (to_latlon_bounds v1) | apply (to_latlon_bounds v2)];
      assumption.
Qed.

Lemma angular_separation_sym (p q : LatLon) :
  angular_separation p q = angular_separation q p.
Proof. rewrite !angular_separation_dot, haversine_a_sym. reflexivity. Qed.

Lemma two_sight_fix_bounds (c : SightCollection) (est : option LatLon)
    (p : LatLon) :
  calculate_two_sight_fix c est = Ok p ->
  -90 <= get_lat p <= 90 /\ -180 < get_lon p <= 180.
Proof.
  unfold calculate_two_sight_fix.
  destruct (idx (sights c) 0) as [s1 | e]; cbn [bind]; [| discriminate].
  destruct (idx (sights c) 1) as [s2 | e]; cbn [bind]; [| discriminate].
  destruct (calculate_circle_intersection _ _ _ _)
    as [[[int1 int2] |] | e] eqn:E; cbn [bind]; try discriminate.
  destruct (solver_points_in_range _ _ _ _ _ _ E) as [R1 R2].
  rewrite choice_eq. intros H. injection H as <-.
  unfold closest_candidate. destruct est as [e |]; [| exact R1].
  destruct (Rlt_dec _ _); assumption.
Qed.

Lemma multi_sight_fix_bounds (c : SightCollection) (est : option LatLon)
    (p : LatLon) :
  calculate_multi_sight_fix c est = Ok p ->
  -90 <= get_lat p <= 90 /\ -180 < get_lon p <= 180.
Proof.
  unfold calculate_multi_sight_fix.
  destruct (multi_sight_positions c est) as [ps | e]; cbn [bind];
    [| discriminate].
  destruct (List.length ps =? 0)%nat; [discriminate |]. cbv zeta.
  match goal with |- bind ?a _ = _ -> _ =>
    destruct a as [avg | e]; cbn [bind]; [| discriminate]
  end.
  destruct (normalize_vect avg) as [u | e]; cbn [bind]; [| discriminate].
  apply to_latlon_bounds.
Qed.

End SolverOutcomes.

(** X16. The solver has three outcomes: no intersection; two positions,
    both with latitude in [-90, 90] and longitude in [-180, 180]; or an
    exception, and then it is [ZeroDivisionError]: the solver raises no
    [ValueError] and no [IndexError]. *)
Theorem circle_intersection_outcomes
    (gp1 : LatLon) (dist1 : R) (gp2 : LatLon) (dist2 : R) :
  (forall p1 p2 : LatLon,
      calculate_circle_intersection gp1 dist1 gp2 dist2 = Ok (Some (p1, p2)) ->
      (-90 <= get_lat p1 <= 90 /\ -180 <= get_lon p1 <= 180)
      /\ (-90 <= get_lat p2 <= 90 /\ -180 <= get_lon p2 <= 180))
  /\ (forall e : exn,
        calculate_circle_intersection gp1 dist1 gp2 dist2 = Raise e ->
        e = ZeroDivisionError).
Proof.
  split.
  - intros p1 p2 E.
    pose proof (solver_points_in_range gp1 dist1 gp2 dist2 p1 p2 E). lra.
  - intros e H.
    destruct (no_intersection_class_dec (dist1 / EARTH_RADIUS_KM)
                (dist2 / EARTH_RADIUS_KM) (angular_separation gp1 gp2))
      as [C | C].
    + rewrite circle_intersection_classified in H by exact C. discriminate.
    + destruct (Req_dec_T (sin (dist2 / EARTH_RADIUS_KM)
                           * sin (angular_separation gp1 gp2)) 0)
        as [Z | NZ].
      * rewrite circle_intersection_unclassified in H by exact C.
        rewrite intersection_points_zero_divisor in H by exact Z.
        injection H as <-. reflexivity.
      * destruct (circle_intersection_two_points gp1 dist1 gp2 dist2 C NZ)
          as (p1 & p2 & E).
        rewrite E in H. discriminate.
Qed.

(** X17. Whether the solver reports no intersection does not depend on
    the order of the two circles. *)
Theorem circle_intersection_none_sym
    (gp1 : LatLon) (dist1 : R) (gp2 : LatLon) (dist2 : R) :
  calculate_circle_intersection gp1 dist1 gp2 dist2 = Ok None
  <-> calculate_circle_intersection gp2 dist2 gp1 dist1 = Ok None.
Proof.
  rewrite !circle_intersection_none_iff, !no_intersection_class_two_tests.
  rewrite (angular_separation_sym gp2 gp1).
  rewrite (Rabs_minus_sym (dist2 / EARTH_RADIUS_KM)).
  rewrite (Rplus_comm (dist2 / EARTH_RADIUS_KM)). reflexivity.
Qed.

(** X18. Every position that [get_intersections] returns, from two
    sights or from more, with or without an estimate, is in range:
    latitude in [-90, 90] and longitude in [-180, 180]. *)
Theorem get_intersections_in_range (c : SightCollection)
    (est : option LatLon) (p : LatLon) :
  get_intersections c est = Ok p ->
  -90 <= get_lat p <= 90 /\ -180 <= get_lon p <= 180.
Proof.
  unfold get_intersections.
  destruct (List.length (sights c) =? 2)%nat eqn:L; intros H.
  - pose proof (two_sight_fix_bounds c est p H). lra.
  - pose proof (multi_sight_fix_bounds c est p H). lra.
Qed.

Lemma get_intersections_in_range_witness :
  get_intersections two_sights None = Ok (mkLatLon 0 90)
  /\ -90 <= get_lat (mkLatLon 0 90) <= 90
  /\ -180 <= get_lon (mkLatLon 0 90) <= 180.
Proof.
  assert (E : get_intersections two_sights None = Ok (mkLatLon 0 90)).
  { rewrite (get_intersections_two two_sights pole meridian) by reflexivity.
    rewrite (calculate_two_sight_fix_eq two_sights pole meridian)
      by reflexivity.
    unfold pair_intersection. rewrite pair_pole_meridian. reflexivity. }
  split; [exact E |].
  apply (get_intersections_in_range two_sights None). exact E.
Defined.

(* ===================================================================== *)
(** * Fixes: agreeing pairs, and the exceptions that can come out *)
(* ===================================================================== *)

Section FixOutcomes.

(** Every chosen point is a result of [to_latlon]. *)
Lemma pair_points_from_to_latlon (s1 s2 : Sight) (int1 int2 : LatLon) :
  pair_intersection s1 s2 = Ok (Some (int1, int2)) ->
  exists v1 v2, to_latlon v1 = Ok int1 /\ to_latlon v2 = Ok int2.
Proof.
  unfold pair_intersection. intros H.
  destruct (no_intersection_class_dec
              (get_distance_from_gp s1 / EARTH_RADIUS_KM)
              (get_distance_from_gp s2 / EARTH_RADIUS_KM)
              (angular_separation (get_gp s1) (get_gp s2))) as [C | C].
  - rewrite circle_intersection_classified in H by exact C. discriminate.
  - rewrite circle_intersection_unclassified in H by exact C.
    apply (intersection_points_from_to_latlon _ _ _ _ _ _ _ H).
Qed.

Lemma chosen_points_from_to_latlon (est : option LatLon)
    (prs : list (Sight * Sight)) (ps : list LatLon) :
  chosen_points est prs = Ok ps ->
  Forall (fun p => exists v, to_latlon v = Ok p) ps.
Proof.
  revert ps. induction prs as [| [s1 s2] prs IH]; intros ps;
    cbn [chosen_points].
  - intros E. injection E as <-. constructor.
  - unfold chosen_point. cbn [fst snd].
    destruct (pair_intersection s1 s2) as [[[int1 int2] |] | e] eqn:E;
      cbn [bind]; [| | discriminate];
      destruct (chosen_points est prs) as [qs | e]; cbn [bind];
      try discriminate; intros H; injection H as <-.
    + constructor; [| apply IH; reflexivity].
      destruct (pair_points_from_to_latlon s1 s2 int1 int2 E)
        as (v1 & v2 & L1 & L2).
      unfold closest_candidate. destruct est as [e |]; [| eauto].
      destruct (Rlt_dec _ _); eauto.
    + apply IH. reflexivity.
Qed.

(** The only exception of the solver is [ZeroDivisionError]. *)
Lemma pair_intersection_raises (s1 s2 : Sight) (e : exn) :
  pair_intersection s1 s2 = Raise e -> e = ZeroDivisionError.
Proof.
  unfold pair_intersection. intros H.
  destruct (no_intersection_class_dec
              (get_distance_from_gp s1 / EARTH_RADIUS_KM)
              (get_distance_from_gp s2 / EARTH_RADIUS_KM)
              (angular_separation (get_gp s1) (get_gp s2))) as [C | C].
  - rewrite circle_intersection_classified in H by exact C. discriminate.
  - destruct (Req_dec_T
                (sin (get_distance_from_gp s2 / EARTH_RADIUS_KM)
                 * sin (angular_separation (get_gp s1) (get_gp s2))) 0)
      as [Z | NZ].
    + rewrite circle_intersection_unclassified in H by exact C.
      rewrite intersection_points_zero_divisor in H by exact Z.
      injection H as <-. reflexivity.
    + destruct (circle_intersection_two_points _ _ _ _ C NZ)
        as (p1 & p2 & E).
      rewrite E in H. discriminate.
Qed.

Lemma chosen_points_raises (est : option LatLon)
    (prs : list (Sight * Sight)) (e : exn) :
  chosen_points est prs = Raise e -> e = ZeroDivisionError.
Proof.
  induction prs as [| [s1 s2] prs IH]; cbn [chosen_points];
    [discriminate |].
  unfold chosen_point. cbn [fst snd].
  destruct (pair_intersection s1 s2) as [r | e'] eqn:E; cbn [bind].
  - destruct (chosen_points est prs) as [qs | e'']; cbn [bind];
      [discriminate |].
    intros H. injection H as <-. apply IH. reflexivity.
  - intros H. injection H as <-.
    apply (pair_intersection_raises s1 s2). exact E.
Qed.

(** Column sums of the unit vectors of [n] copies of one position. *)
Lemma column_sum_copies (p : LatLon) (ps : list LatLon) (i : nat) :
  Forall (eq p) ps ->
  py_sum (map (fun v => nth i v 0) (map to_rectangular ps))
  = INR (List.length ps) * nth i (to_rectangular p) 0.
Proof.
  induction 1 as [| q ps <- _ IH].
  - unfold py_sum. cbn. ring.
  - cbn [map]. rewrite py_sum_cons, IH.
    change (List.length (p :: ps)) with (S (List.length ps)).
    rewrite S_INR. ring.
Qed.

End FixOutcomes.

(** X19. When, for three or more sights, the two loops of the N-sight
    fix complete and every position they have collected is one and the
    same position [p] (in particular when a single pair intersects), the
    N-sight fix is [p]. *)
Theorem multi_sight_fix_agreeing (c : SightCollection) (est : option LatLon)
    (positions : list LatLon) (p : LatLon) :
  (3 <= List.length (sights c))%nat ->
  multi_sight_positions c est = Ok positions ->
  positions <> [] -> Forall (eq p) positions ->
  get_intersections c est = Ok p.
Proof.
  intros Hn Hc Hne Hall. rewrite multi_sight_positions_pairs in Hc.
  rewrite get_intersections_multi by exact Hn.
  rewrite calculate_multi_sight_fix_eq, Hc. cbn [bind].
  destruct positions as [| q ps]; [contradiction |].
  assert (Hp : exists v, to_latlon v = Ok p).
  { pose proof (chosen_points_from_to_latlon est _ _ Hc) as F.
    inversion F as [| ? ? Hq _]; subst.
    inversion Hall as [| ? ? Hpq _]; subst. exact Hq. }
  destruct Hp as [v Hv].
  destruct (to_rectangular_unit p) as (x & y & z & E & U).
  assert (Hk : INR (List.length (q :: ps)) <> 0)
    by (apply not_0_INR; discriminate).
  unfold mean_position, mean_vector. rewrite length_map.
  rewrite vector_sum_columns.
  rewrite !(column_sum_copies p) by exact Hall.
  rewrite E. cbn [nth bind mult_scalar_vect map].
  rewrite (normalize_vect_eval _ _ _ 1 x y z);
    [| | lra | | |]; try (field; exact Hk).
  - cbn [bind]. rewrite <- E. apply (to_latlon_fixed_point v). exact Hv.
  - replace (1 / INR (List.length (q :: ps))
             * (INR (List.length (q :: ps)) * x)) with x
      by (field; exact Hk).
    replace (1 / INR (List.length (q :: ps))
             * (INR (List.length (q :: ps)) * y)) with y
      by (field; exact Hk).
    replace (1 / INR (List.length (q :: ps))
             * (INR (List.length (q :: ps)) * z)) with z
      by (field; exact Hk).
    lra.
Qed.

Lemma multi_sight_fix_agreeing_witness :
  get_intersections three_sights (Some (mkLatLon 0 90)) = Ok (mkLatLon 0 90).
Proof.
  apply (multi_sight_fix_agreeing three_sights (Some (mkLatLon 0 90))
           [mkLatLon 0 90; mkLatLon 0 90]).
  - cbn. lia.
  - rewrite multi_sight_positions_pairs.
    rewrite chosen_points_contributions by apply three_sights_complete.
    rewrite three_sights_contributions.
    destruct closest_to_east as [-> ->]. reflexivity.
  - discriminate.
  - repeat constructor.
Defined.

(** X20. The exceptions of [get_intersections] on a collection of at
    least two sights are these five and no other: [ZeroDivisionError]
    from the solver, the [ValueError] of a two-sight fix whose circles do
    not meet, the [ValueError] of an N-sight fix without any intersecting
    pair, the [ValueError] of the conversion of a zero mean vector, and
    the [ValueError] of a square root in the distance to the estimated
    position.  In particular no [IndexError] comes out. *)
Theorem get_intersections_exceptions (c : SightCollection)
    (est : option LatLon) (e : exn) :
  (2 <= List.length (sights c))%nat ->
  get_intersections c est = Raise e ->
  e = ZeroDivisionError
  \/ e = ValueError (Msg "No intersection found - circles don't meet")
  \/ e = ValueError (Msg "No valid intersections found")
  \/ e = ValueError (Msg "Zero vector cannot be converted to LatLon")
  \/ e = ValueError (Msg "math domain error").
Proof.
  intros Hn. unfold get_intersections.
  destruct (Nat.eqb_spec (List.length (sights c)) 2) as [E2 | N2].
  - destruct (sights c) as [| s1 [| s2 [| s3 l]]] eqn:Es;
      cbn in E2; try lia.
    unfold calculate_two_sight_fix. rewrite Es. cbn [idx nth_error bind].
    fold (pair_intersection s1 s2).
    destruct (pair_intersection s1 s2) as [[[int1 int2] |] | e'] eqn:E;
      cbn [bind].
    + destruct est as [est |]; [| discriminate].
      destruct (spherical_distance est int1) as [d1 | e1] eqn:D1;
        cbn [bind].
      * destruct (spherical_distance est int2) as [d2 | e2] eqn:D2;
          cbn [bind]; [discriminate |].
        intros H. injection H as <-. do 4 right.
        apply (spherical_distance_raises est int2). exact D2.
      * intros H. injection H as <-. do 4 right.
        apply (spherical_distance_raises est int1). exact D1.
    + intros H. injection H as <-. right. left. reflexivity.
    + intros H. injection H as <-. left.
      apply (pair_intersection_raises s1 s2). exact E.
  - rewrite calculate_multi_sight_fix_eq.
    destruct (chosen_points est (pairs (sights c))) as [ps | e'] eqn:E;
      cbn [bind].
    + destruct ps as [| p ps].
      * intros H. injection H as <-. right. right. left. reflexivity.
      * destruct (mean_position_cases (p :: ps)) as [[_ M] | [_ [q M]]];
          [discriminate | |]; rewrite M; [| discriminate].
        intros H. injection H as <-. right. right. right. left.
        reflexivity.
    + intros H. injection H as <-. left.
      apply (chosen_points_raises est _ _ E).
Qed.

(** The sight [meridian] taken twice. *)
Lemma get_intersections_exceptions_witness :
  get_intersections (mkSightCollection [meridian; meridian]) None
  = Raise ZeroDivisionError
  /\ (ZeroDivisionError = ZeroDivisionError
      \/ ZeroDivisionError
         = ValueError (Msg "No intersection found - circles don't meet")
      \/ ZeroDivisionError = ValueError (Msg "No valid intersections found")
      \/ ZeroDivisionError
         = ValueError (Msg "Zero vector cannot be converted to LatLon")
      \/ ZeroDivisionError = ValueError (Msg "math domain error")).
Proof.
  assert (G : get_intersections (mkSightCollection [meridian; meridian]) None
              = Raise ZeroDivisionError).
  { apply duplicate_sight_two_fix. cbn [meridian corrected_altitude]. lra. }
  split; [exact G |].
  apply (get_intersections_exceptions
           (mkSightCollection [meridian; meridian]) None);
    [cbn; lia | exact G].
Defined.

(* ===================================================================== *)
(** * Altitude and azimuth *)
(* ===================================================================== *)

Section AltitudeAzimuth.

Lemma sin_altitude_range (d l f : R) : -1 <= sin_altitude d l f <= 1.
Proof.
  unfold sin_altitude.
  pose proof (unit_dot_range (radians f) 0 (radians d) (radians l)) as H.
  rewrite cos_0, sin_0 in H. lra.
Qed.

(** The altitude is the angle of [[-90, 90]] with the given sine. *)
Lemma altitude_angle (s : R) :
  -1 <= s <= 1 ->
  let a := atan2 s (sqrt (1 - s ^ 2)) in
  - (PI / 2) <= a <= PI / 2 /\ sin a = s /\ cos a = sqrt (1 - s ^ 2).
Proof.
  intros Hs a. pose proof PI_RGT_0 as Hpi.
  assert (H0 : 0 <= 1 - s ^ 2) by nra.
  pose proof (sqrt_pos (1 - s ^ 2)) as Hq.
  assert (Hsum : sqrt (1 - s ^ 2) ^ 2 + s ^ 2 = 1).
  { replace (sqrt (1 - s ^ 2) ^ 2)
      with (sqrt (1 - s ^ 2) * sqrt (1 - s ^ 2)) by ring.
    rewrite sqrt_sqrt by exact H0. ring. }
  destruct (atan2_cos_sin s (sqrt (1 - s ^ 2))) as [C S];
    [rewrite Hsum; lra |].
  rewrite Hsum, sqrt_1 in C, S. fold a in C, S.
  split; [| split; [rewrite S; field | rewrite C; field]].
  unfold a, atan2. pose proof (atan_bound (s / sqrt (1 - s ^ 2))).
  destruct (Rlt_dec 0 (sqrt (1 - s ^ 2))); [lra |].
  destruct (Rlt_dec (sqrt (1 - s ^ 2)) 0); [lra |].
  destruct (Rlt_dec 0 s); [lra |]. destruct (Rlt_dec s 0); lra.
Qed.

End AltitudeAzimuth.

(** In exact arithmetic the function returns when the divisor
    [cos lat * cos altitude] is not zero. *)
Lemma calculate_altitude_azimuth_regular (d l f : R) :
  cos (radians f) * sqrt (1 - sin_altitude d l f ^ 2) <> 0 ->
  exists altitude azimuth,
    calculate_altitude_azimuth d l f = Ok (altitude, azimuth)
    /\ -90 < altitude < 90
    /\ sin (radians altitude) = sin_altitude d l f
    /\ 0 <= azimuth <= 360.
Proof.
  intros Hnz. pose proof PI_RGT_0 as Hpi.
  pose proof (sin_altitude_range d l f) as Hs.
  destruct (altitude_angle _ Hs) as (Ha & Sa & Ca).
  set (s := sin_altitude d l f) in *.
  set (a := atan2 s (sqrt (1 - s ^ 2))) in *.
  assert (Hq : sqrt (1 - s ^ 2) <> 0).
  { intros E. apply Hnz. rewrite E. ring. }
  assert (Hcos : 0 < cos a).
  { rewrite Ca. pose proof (sqrt_pos (1 - s ^ 2)). lra. }
  assert (Hstrict : - (PI / 2) < a < PI / 2).
  { split.
    - destruct (Req_dec_T a (- (PI / 2))) as [E | N]; [| lra].
      rewrite E, cos_neg, cos_PI2 in Hcos. lra.
    - destruct (Req_dec_T a (PI / 2)) as [E | N]; [| lra].
      rewrite E, cos_PI2 in Hcos. lra. }
  unfold calculate_altitude_azimuth. fold (sin_altitude d l f). fold s.
  rewrite py_acos_ok by apply clamp_bounds. cbn [bind].
  rewrite py_sqrt_ok by nra. cbn [bind]. fold a.
  rewrite radians_degrees, Sa, Ca.
  rewrite py_div_ok by exact Hnz. cbn [bind].
  rewrite py_acos_ok by apply clamp_bounds. cbn [bind].
  do 2 eexists. split; [reflexivity |].
  match goal with |- context [acos ?x] =>
    pose proof (acos_bound x) as Hb; set (z := acos x) in *
  end.
  assert (Hz : 0 <= degrees z <= 180).
  { destruct Hb as [B1 B2]. apply degrees_le in B1, B2.
    rewrite degrees_PI in B2.
    replace (degrees 0) with 0 in B1 by (unfold degrees; ring). lra. }
  split.
  - destruct Hstrict as [L U]. apply degrees_lt in L, U.
    rewrite degrees_opp in L. rewrite degrees_PI2 in L, U. lra.
  - split; [rewrite radians_degrees; exact Sa |]. unfold Rltb.
    destruct (Rlt_dec 0 (sin (radians l))); lra.
Qed.

(** X21. An altitude that [calculate_altitude_azimuth] returns lies
    between -90 and 90 and its sine is
    [sin lat * sin dec + cos lat * cos dec * cos lha]; an azimuth it
    returns lies between 0 and 360. *)
Theorem calculate_altitude_azimuth_bounds (d l f altitude azimuth : R) :
  calculate_altitude_azimuth d l f = Ok (altitude, azimuth) ->
  -90 <= altitude <= 90
  /\ sin (radians altitude) = sin_altitude d l f
  /\ 0 <= azimuth <= 360.
Proof.
  intros H.
  destruct (Req_dec_T (cos (radians f) * sqrt (1 - sin_altitude d l f ^ 2)) 0)
    as [Z | NZ].
  - exfalso. revert H.
    pose proof (sin_altitude_range d l f) as Hs.
    destruct (altitude_angle _ Hs) as (Ha & Sa & Ca).
    unfold calculate_altitude_azimuth. fold (sin_altitude d l f).
    rewrite py_acos_ok by apply clamp_bounds. cbn [bind].
    rewrite py_sqrt_ok
      by (set (s := sin_altitude d l f) in *; nra).
    cbn [bind]. rewrite radians_degrees, Sa, Ca.
    unfold py_div.
    destruct (Req_dec_T _ 0) as [_ | N]; [discriminate | contradiction].
  - destruct (calculate_altitude_azimuth_regular d l f NZ)
      as (alt & az & E & A & S & B).
    rewrite E in H. injection H as <- <-.
    split; [lra |]. split; assumption.
Qed.

(** A body on the celestial equator, six hours west of the meridian of
    an observer on the equator. *)
Lemma calculate_altitude_azimuth_bounds_witness :
  exists altitude azimuth,
    calculate_altitude_azimuth 0 90 0 = Ok (altitude, azimuth)
    /\ -90 <= altitude <= 90
    /\ sin (radians altitude) = sin_altitude 0 90 0
    /\ 0 <= azimuth <= 360.
Proof.
  assert (NZ : cos (radians 0) * sqrt (1 - sin_altitude 0 90 0 ^ 2) <> 0).
  { unfold sin_altitude. rewrite radians_90.
    replace (radians 0) with 0 by (unfold radians; ring).
    rewrite cos_PI2, cos_0, sin_0.
    replace (1 - (0 * 0 + 1 * 1 * 0) ^ 2) with 1 by ring.
    rewrite sqrt_1. lra. }
  destruct (calculate_altitude_azimuth_regular 0 90 0 NZ)
    as (alt & az & E & _).
  exists alt, az. split; [exact E |].
  apply (calculate_altitude_azimuth_bounds 0 90 0). exact E.
Defined.

(* ===================================================================== *)
(** * The star catalogue *)
(* ===================================================================== *)

Section SortByKey.

Context {A : Type} (key : A -> R).

Lemma insert_by_key_perm (x : A) (l : list A) :
  Permutation (x :: l) (StarsDatabase.insert_by_key key x l).
Proof.
  induction l as [| y l IH]; cbn.
  - apply Permutation_refl.
  - destruct (Rlt_dec (key y) (key x)).
    + eapply Permutation_trans; [apply perm_swap |].
      apply perm_skip. exact IH.
    + apply Permutation_refl.
Qed.

Lemma sort_by_key_perm (l : list A) :
  Permutation l (StarsDatabase.sort_by_key key l).
Proof.
  induction l as [| x l IH]; cbn.
  - apply Permutation_refl.
  - eapply Permutation_trans; [| apply insert_by_key_perm].
    apply perm_skip. exact IH.
Qed.

Lemma insert_by_key_sorted (x : A) (l : list A) :
  StronglySorted (fun a b => key a <= key b) l ->
  StronglySorted (fun a b => key a <= key b)
                 (StarsDatabase.insert_by_key key x l).
Proof.
  induction 1 as [| y l Hs IH Hy]; cbn.
  - constructor; constructor.
  - destruct (Rlt_dec (key y) (key x)) as [Hlt | Hge].
    + constructor; [exact IH |].
      apply Forall_forall. intros z Hz.
      apply (Permutation_in _ (Permutation_sym (insert_by_key_perm x l)))
        in Hz.
      destruct Hz as [<- | Hz]; [lra |].
      rewrite Forall_forall in Hy. apply Hy, Hz.
    + constructor; [constructor; assumption |].
      constructor; [lra |].
      apply Forall_forall. intros z Hz.
      rewrite Forall_forall in Hy. specialize (Hy z Hz). lra.
Qed.

Lemma sort_by_key_sorted (l : list A) :
  StronglySorted (fun a b => key a <= key b)
                 (StarsDatabase.sort_by_key key l).
Proof.
  induction l as [| x l IH]; cbn.
  - constructor.
  - apply insert_by_key_sorted, IH.
Qed.

(** Stability: among the elements of one key the order is kept. *)
Lemma insert_by_key_stable (k : R) (x : A) (l : list A) :
  filter (fun e => if Req_dec_T (key e) k then true else false)
         (StarsDatabase.insert_by_key key x l)
  = filter (fun e => if Req_dec_T (key e) k then true else false) (x :: l).
Proof.
  induction l as [| y l IH]; [reflexivity |].
  cbn [StarsDatabase.insert_by_key].
  destruct (Rlt_dec (key y) (key x)) as [Hlt | Hge]; [| reflexivity].
  cbn [filter] in *. rewrite IH.
  destruct (Req_dec_T (key y) k) as [Ey | Ey];
    destruct (Req_dec_T (key x) k) as [Ex | Ex]; try reflexivity.
  exfalso. lra.
Qed.

Lemma sort_by_key_stable (k : R) (l : list A) :
  filter (fun e => if Req_dec_T (key e) k then true else false)
         (StarsDatabase.sort_by_key key l)
  = filter (fun e => if Req_dec_T (key e) k then true else false) l.
Proof.
  induction l as [| x l IH]; [reflexivity |].
  cbn [StarsDatabase.sort_by_key]. rewrite insert_by_key_stable.
  cbn [filter]. rewrite IH. reflexivity.
Qed.

End SortByKey.

Section Catalogue.

Import StarsDatabase.

Lemma STARS_DB_complete : Forall star_entry_complete STARS_DB.
Proof.
  unfold STARS_DB.
  repeat (apply Forall_cons;
          [ unfold star_entry_complete; cbn [snd StarsDatabase.ra
              StarsDatabase.dec magnitude arabic];
            do 4 eexists;
            repeat (split; [reflexivity |]); lra |]).
  apply Forall_nil.
Qed.

Lemma PLANETS_DB_no_coordinates :
  Forall (fun e => StarsDatabase.ra (snd e) = None
                   /\ StarsDatabase.dec (snd e) = None) PLANETS_DB.
Proof.
  unfold PLANETS_DB. repeat (apply Forall_cons; [split; reflexivity |]).
  apply Forall_nil.
Qed.

Variable upper : string -> string.

Lemma get_star_by_name_some (name k : string) (b : body) :
  get_star_by_name upper name = Some (k, b) ->
  In (k, b) STARS_DB /\ upper k = upper name.
Proof.
  unfold get_star_by_name. intros H.
  apply find_some in H. destruct H as [Hin He]. split; [exact Hin |].
  apply String.eqb_eq in He. exact He.
Qed.

Lemma get_star_by_name_none (name : string) :
  get_star_by_name upper name = None <->
  forall k b, In (k, b) STARS_DB -> upper k <> upper name.
Proof.
  unfold get_star_by_name. split.
  - intros H k b Hin E.
    pose proof (find_none _ _ H (k, b) Hin) as Hf. cbn [fst] in Hf.
    rewrite E, String.eqb_refl in Hf. discriminate.
  - intros H.
    destruct (find _ STARS_DB) as [[k b] |] eqn:F; [| reflexivity].
    apply find_some in F. destruct F as [Hin He].
    apply String.eqb_eq in He. exfalso. exact (H k b Hin He).
Qed.

Lemma get_star_coordinates_star (name k : string) (b : body) :
  get_star_by_name upper name = Some (k, b) ->
  exists r d,
    StarsDatabase.ra b = Some r /\ StarsDatabase.dec b = Some d
    /\ 0 <= r < 360 /\ -90 < d < 90
    /\ get_star_coordinates upper name = Some (r, d).
Proof.
  intros H. pose proof (get_star_by_name_some _ _ _ H) as [Hin _].
  pose proof STARS_DB_complete as C. rewrite Forall_forall in C.
  destruct (C _ Hin) as (r & d & m & a & Hr & Hd & _ & _ & Rr & Rd).
  cbn [snd] in Hr, Hd.
  exists r, d. repeat (split; [assumption || lra |]).
  unfold get_star_coordinates, get_celestial_body. rewrite H.
  cbn [snd]. rewrite Hr, Hd. reflexivity.
Qed.

Lemma get_star_coordinates_no_star (name : string) :
  get_star_by_name upper name = None ->
  get_star_coordinates upper name = None.
Proof.
  intros H. unfold get_star_coordinates, get_celestial_body. rewrite H.
  cbv zeta.
  destruct (find _ PLANETS_DB) as [[k b] |] eqn:F; [| reflexivity].
  apply find_some in F. destruct F as [Hin _].
  pose proof PLANETS_DB_no_coordinates as C. rewrite Forall_forall in C.
  destruct (C _ Hin) as [Hr _]. cbn [snd] in *. rewrite Hr. reflexivity.
Qed.

Lemma find_unique_key {B : Type} (l : list (string * B)) (k : string)
    (b : B) (u : string) :
  NoDup (map upper (map fst l)) -> In (k, b) l -> upper k = u ->
  find (fun entry => String.eqb (upper (fst entry)) u) l = Some (k, b).
Proof.
  induction l as [| [k' b'] l IH]; intros Hnd Hin Hu; [destruct Hin |].
  cbn [map fst] in Hnd. inversion Hnd as [| ? ? Hnot Hnd']; subst.
  cbn [find fst].
  destruct Hin as [E | Hin].
  - injection E as -> ->. rewrite String.eqb_refl. reflexivity.
  - destruct (String.eqb (upper k') (upper k)) eqn:Eq.
    + exfalso. apply Hnot. apply String.eqb_eq in Eq. rewrite Eq.
      apply in_map. apply (in_map fst _ _ Hin).
    + apply IH; [assumption | assumption | reflexivity].
Qed.

Lemma get_star_coordinates_some (name : string) (r d : R) :
  get_star_coordinates upper name = Some (r, d) ->
  exists k b,
    get_star_by_name upper name = Some (k, b)
    /\ In (k, b) STARS_DB /\ upper k = upper name
    /\ StarsDatabase.ra b = Some r /\ StarsDatabase.dec b = Some d
    /\ 0 <= r < 360 /\ -90 < d < 90.
Proof.
  intros H.
  destruct (get_star_by_name upper name) as [[k b] |] eqn:S.
  - destruct (get_star_coordinates_star _ _ _ S)
      as (r' & d' & Hr & Hd & Rr & Rd & E).
    rewrite E in H. injection H as <- <-.
    destruct (get_star_by_name_some _ _ _ S) as [Hin Hu].
    exists k, b. repeat split; assumption || lra.
  - rewrite (get_star_coordinates_no_star _ S) in H. discriminate.
Qed.

End Catalogue.

(** X22. Coordinates that the catalogue lookup returns are those of a star
    of the table whose key equals the given name up to upper-casing, the
    first such key; the right ascension lies in [0, 360) and the
    declination strictly between -90 and 90, so the declination test of
    the sight constructor accepts it and the constructor stores the right
    ascension unchanged. *)
Theorem star_coordinates_valid (upper : string -> string) (name : string)
    (r d : R) :
  StarsDatabase.get_star_coordinates upper name = Some (r, d) ->
  (exists k b,
      StarsDatabase.get_star_by_name upper name = Some (k, b)
      /\ In (k, b) StarsDatabase.STARS_DB /\ upper k = upper name
      /\ StarsDatabase.ra b = Some r /\ StarsDatabase.dec b = Some d)
  /\ 0 <= r < 360 /\ -90 < d < 90
  /\ py_mod r 360 = r
  /\ negb (Rleb (-90) d && Rleb d 90) = false.
Proof.
  intros H.
  destruct (get_star_coordinates_some upper _ _ _ H)
    as (k & b & S & Hin & Hu & Hr & Hd & Rr & Rd).
  split; [exists k, b; repeat split; assumption |].
  split; [exact Rr |]. split; [exact Rd |]. split.
  - apply normalized360_unique with (x := r).
    + apply py_mod_normalized360.
    + split; [exact Rr |]. exists 0%Z. lra.
  - rewrite !Rleb_true by lra. reflexivity.
Qed.

Lemma star_coordinates_valid_witness :
  StarsDatabase.get_star_coordinates StarsDatabase.ascii_upper "sirius"
  = Some (101.2875, -16.7161)
  /\ py_mod 101.2875 360 = 101.2875.
Proof.
  assert (H : StarsDatabase.get_star_coordinates StarsDatabase.ascii_upper
                "sirius" = Some (101.2875, -16.7161)) by reflexivity.
  split; [exact H |].
  exact (proj1 (proj2 (proj2 (proj2
    (star_coordinates_valid StarsDatabase.ascii_upper "sirius" _ _ H))))).
Defined.

(** X23. The coordinate lookup fails exactly for the names that match no
    key of the star table up to upper-casing.  This includes the names of
    the planets, which [star_exists] reports as existing: a name exists
    without coordinates exactly when it matches a planet and no star. *)
Theorem coordinates_missing_iff (upper : string -> string) (name : string) :
  (StarsDatabase.get_star_coordinates upper name = None <->
   forall k b, In (k, b) StarsDatabase.STARS_DB -> upper k <> upper name)
  /\ (StarsDatabase.star_exists upper name = true
      /\ StarsDatabase.get_star_coordinates upper name = None <->
      (exists k b, In (k, b) StarsDatabase.PLANETS_DB
                   /\ upper k = upper name)
      /\ forall k b, In (k, b) StarsDatabase.STARS_DB ->
                     upper k <> upper name).
Proof.
  assert (N : StarsDatabase.get_star_coordinates upper name = None <->
              StarsDatabase.get_star_by_name upper name = None).
  { split.
    - intros H.
      destruct (StarsDatabase.get_star_by_name upper name)
        as [[k b] |] eqn:S; [| reflexivity].
      destruct (get_star_coordinates_star upper _ _ _ S)
        as (r & d & _ & _ & _ & _ & E).
      rewrite E in H. discriminate.
    - apply get_star_coordinates_no_star. }
  split.
  - rewrite N. apply get_star_by_name_none.
  - rewrite N, <- get_star_by_name_none. split.
    + intros [Hex Hs]. split; [| exact Hs].
      unfold StarsDatabase.star_exists, StarsDatabase.get_celestial_body
        in Hex.
      rewrite Hs in Hex. cbv zeta in Hex.
      destruct (find _ StarsDatabase.PLANETS_DB) as [[k b] |] eqn:F;
        [| discriminate].
      apply find_some in F. destruct F as [Hin He].
      apply String.eqb_eq in He. exists k, b. split; assumption.
    + intros [(k & b & Hin & Hu) Hs]. split; [| exact Hs].
      unfold StarsDatabase.star_exists, StarsDatabase.get_celestial_body.
      rewrite Hs. cbv zeta.
      destruct (find _ StarsDatabase.PLANETS_DB) as [p |] eqn:F;
        [reflexivity |].
      pose proof (find_none _ _ F (k, b) Hin) as Hf. cbn [fst] in Hf.
      rewrite Hu, String.eqb_refl in Hf. discriminate.
Qed.

(** X24. [list_navigation_stars] returns the stars of the table whose
    magnitude is at most the bound, each once, in ascending order of
    magnitude, stars of equal magnitude in the order of the table. *)
Theorem list_navigation_stars_sorted
    (min_magnitude : R) :
  let key := fun e : string * StarsDatabase.body =>
               StarsDatabase.get_default
                 (StarsDatabase.magnitude (snd e)) 99 in
  let stars := StarsDatabase.list_navigation_stars min_magnitude in
  Permutation
    (filter (fun e => Rleb (key e) min_magnitude) StarsDatabase.STARS_DB)
    stars
  /\ (forall e, In e stars <->
                In e StarsDatabase.STARS_DB /\ key e <= min_magnitude)
  /\ StronglySorted (fun a b => key a <= key b) stars
  /\ (forall k,
        filter (fun e => if Req_dec_T (key e) k then true else false) stars
        = filter (fun e => if Req_dec_T (key e) k then true else false)
                 (filter (fun e => Rleb (key e) min_magnitude)
                         StarsDatabase.STARS_DB))
  /\ NoDup stars.
Proof.
  intros key stars.
  assert (P : Permutation
                (filter (fun e => Rleb (key e) min_magnitude)
                        StarsDatabase.STARS_DB) stars)
    by apply sort_by_key_perm.
  split; [exact P |]. split.
  - intros e. split.
    + intros Hin. apply (Permutation_in _ (Permutation_sym P)) in Hin.
      apply filter_In in Hin. destruct Hin as [Hin Hk].
      split; [exact Hin |].
      unfold Rleb in Hk. destruct (Rle_dec (key e) min_magnitude);
        [assumption | discriminate].
    + intros [Hin Hk]. apply (Permutation_in _ P).
      apply filter_In. split; [exact Hin |]. apply Rleb_true. exact Hk.
  - split; [apply sort_by_key_sorted |].
    split; [intros k; apply sort_by_key_stable |].
    apply (Permutation_NoDup P). apply NoDup_filter.
    unfold StarsDatabase.STARS_DB.
    repeat (apply NoDup_cons;
            [cbn [In]; intros Hin;
             repeat (destruct Hin as [Hin | Hin]; [discriminate Hin |]);
             exact Hin |]).
    apply NoDup_nil.
Qed.


(** X25. When upper-casing keeps the keys of the star table distinct, the
    lookup by name is case-insensitive and total on the table: every
    spelling that upper-cases like a key finds exactly that key's entry,
    as a star, as a celestial body, and with its two coordinates. *)
Theorem get_star_by_name_case_insensitive (upper : string -> string)
    (k : string) (b : StarsDatabase.body) (name : string) :
  NoDup (map upper (map fst StarsDatabase.STARS_DB)) ->
  In (k, b) StarsDatabase.STARS_DB ->
  upper name = upper k ->
  StarsDatabase.get_star_by_name upper name = Some (k, b)
  /\ StarsDatabase.get_celestial_body upper name = Some (k, b)
  /\ StarsDatabase.star_exists upper name = true
  /\ exists r d,
       StarsDatabase.ra b = Some r /\ StarsDatabase.dec b = Some d
       /\ StarsDatabase.get_star_coordinates upper name = Some (r, d).
Proof.
  intros Hnd Hin Hu.
  assert (S : StarsDatabase.get_star_by_name upper name = Some (k, b)).
  { unfold StarsDatabase.get_star_by_name. cbv zeta.
    apply find_unique_key; [exact Hnd | exact Hin | symmetry; exact Hu]. }
  split; [exact S |].
  unfold StarsDatabase.star_exists, StarsDatabase.get_celestial_body.
  rewrite S. split; [reflexivity |]. split; [reflexivity |].
  destruct (get_star_coordinates_star upper _ _ _ S)
    as (r & d & Hr & Hd & _ & _ & E).
  exists r, d. repeat split; assumption.
Qed.

Lemma get_star_by_name_case_insensitive_witness :
  NoDup (map StarsDatabase.ascii_upper (map fst StarsDatabase.STARS_DB))
  /\ StarsDatabase.ascii_upper "vEgA" = StarsDatabase.ascii_upper "Vega"
  /\ StarsDatabase.star_exists StarsDatabase.ascii_upper "vEgA" = true
  /\ exists r d,
       StarsDatabase.get_star_coordinates StarsDatabase.ascii_upper "vEgA"
       = Some (r, d).
Proof.
  assert (Hnd : NoDup (map StarsDatabase.ascii_upper
                           (map fst StarsDatabase.STARS_DB))).
  { cbn.
    repeat (apply NoDup_cons;
            [cbn [In]; intros Hin;
             repeat (destruct Hin as [Hin | Hin]; [discriminate Hin |]);
             exact Hin |]).
    apply NoDup_nil. }
  assert (Hin : In (nth 3 StarsDatabase.STARS_DB
                        ("", StarsDatabase.mkBody None None None None None
                                                  None None)%string)
                   StarsDatabase.STARS_DB)
    by (cbn; tauto).
  split; [exact Hnd |]. split; [reflexivity |].
  destruct (get_star_by_name_case_insensitive StarsDatabase.ascii_upper
              _ _ "vEgA" Hnd Hin eq_refl)
    as (_ & _ & He & r & d & _ & _ & Hc).
  split; [exact He |]. exists r, d. exact Hc.
Defined.

(** X26. The lookup by Arabic name is exact on the star table: it returns
    an entry if and only if that entry is in the table under the given
    Arabic name, so each star is found again by its own Arabic name. *)
Theorem arabic_name_round_trip (arabic_name k : string)
    (b : StarsDatabase.body) :
  StarsDatabase.get_star_by_arabic_name arabic_name = Some (k, b) <->
  In (k, b) StarsDatabase.STARS_DB
  /\ StarsDatabase.arabic b = Some arabic_name.
Proof.
  unfold StarsDatabase.get_star_by_arabic_name. split.
  - intros H. apply find_some in H. destruct H as [Hin He].
    split; [exact Hin |]. cbn [snd] in He.
    destruct (StarsDatabase.arabic b) as [a |]; [| discriminate].
    apply String.eqb_eq in He. rewrite He. reflexivity.
  - intros [Hin Ha]. unfold StarsDatabase.STARS_DB in Hin. cbn [In] in Hin.
    repeat (destruct Hin as [Hin | Hin];
            [injection Hin as <- <-; cbn in Ha; injection Ha as <-;
             reflexivity |]).
    destruct Hin.
Qed.

(* ===================================================================== *)
(** * The position service *)
(* ===================================================================== *)

Section ServiceFacts.

Variable fromisoformat : string -> option datetime.
Variable format_4f : R -> string.
Variable isoformat : datetime -> string.

Lemma add_sight_make (st : list Sight * list CelestialService.used_sight)
    (d : CelestialService.star_data) :
  CelestialService.add_sight fromisoformat st d =
  match make_sight fromisoformat d with
  | Some (s, u) => (fst st ++ [s], snd st ++ [u])
  | None => st
  end.
Proof.
  unfold CelestialService.add_sight, make_sight.
  destruct (CelestialService.ra d), (CelestialService.dec d),
    (CelestialService.altitude d), (CelestialService.time d);
    try reflexivity.
  destruct (Sight_init _ _ _ _ _ _ _ _ _ _); reflexivity.
Qed.

Lemma fold_add_sight (l : list CelestialService.star_data)
    (st : list Sight * list CelestialService.used_sight) :
  fold_left (CelestialService.add_sight fromisoformat) l st =
  (fst st ++ map fst (constructed fromisoformat l),
   snd st ++ map snd (constructed fromisoformat l)).
Proof.
  revert st. induction l as [| d l IH]; intros st.
  - cbn. rewrite !app_nil_r. destruct st; reflexivity.
  - cbn [fold_left constructed flat_map]. rewrite IH, add_sight_make.
    fold (constructed fromisoformat l).
    destruct (make_sight fromisoformat d) as [[s u] |]; cbn [fst snd app map].
    + rewrite <- !app_assoc. reflexivity.
    + reflexivity.
Qed.

(** The function in terms of the sights it constructs. *)
Lemma calculate_position_from_data_eq
    (l : list CelestialService.star_data) :
  (2 <= List.length l)%nat ->
  CelestialService.calculate_position_from_data
    fromisoformat format_4f isoformat l =
  let made := constructed fromisoformat l in
  if (List.length made <? 2)%nat then
    CelestialService.mkServiceResult false
      (CelestialService.NotEnoughValidSights (List.length made))
      (map snd made) None
  else
    match get_intersections (mkSightCollection (map fst made)) None with
    | Ok p =>
        CelestialService.mkServiceResult true
          (CelestialService.Text "Position calculated successfully")
          (map snd made)
          (Some (mkPositionReport (get_lat p) (get_lon p)
                   (LatLon_str format_4f p) (List.length made)
                   (map (fun s => isoformat (time s)) (map fst made))))
    | Raise e =>
        CelestialService.mkServiceResult false
          (CelestialService.ErrorCalculatingPosition e) (map snd made) None
    end.
Proof.
  intros Hl. unfold CelestialService.calculate_position_from_data.
  destruct (List.length l <? 2)%nat eqn:L;
    [apply Nat.ltb_lt in L; lia |].
  cbv zeta. rewrite fold_add_sight. cbn [fst snd app].
  rewrite !length_map.
  destruct (List.length (constructed fromisoformat l) <? 2)%nat eqn:M;
    [reflexivity |].
  unfold SightCollection_init. rewrite length_map, M. cbn [bind].
  unfold calculate_position. cbn [sights].
  destruct (get_intersections _ None) as [p | e]; cbn [bind];
    [| reflexivity].
  rewrite length_map. reflexivity.
Qed.

Lemma make_sight_inv (d : CelestialService.star_data) (s : Sight)
    (u : CelestialService.used_sight) :
  make_sight fromisoformat d = Some (s, u) ->
  exists ra0 dec0 altitude iso,
    CelestialService.ra d = Some ra0
    /\ CelestialService.dec d = Some dec0
    /\ CelestialService.altitude d = Some altitude
    /\ CelestialService.time d = Some iso
    /\ Sight_init fromisoformat ra0 dec0 altitude iso
         (StarsDatabase.get_default (CelestialService.observer_height d) 0)
         (StarsDatabase.get_default (CelestialService.temperature d) 10)
         (StarsDatabase.get_default (CelestialService.pressure d) 101)
         true true = Ok s
    /\ u = CelestialService.mkUsedSight
             (StarsDatabase.get_default (CelestialService.name d)
                                        "Unknown"%string)
             ra0 dec0 altitude.
Proof.
  unfold make_sight.
  destruct (CelestialService.ra d) as [ra0 |]; [| discriminate].
  destruct (CelestialService.dec d) as [dec0 |]; [| discriminate].
  destruct (CelestialService.altitude d) as [altitude |]; [| discriminate].
  destruct (CelestialService.time d) as [iso |]; [| discriminate].
  destruct (Sight_init _ _ _ _ _ _ _ _ _ _) as [s' | e] eqn:E;
    [| discriminate].
  intros H. injection H as <- <-.
  exists ra0, dec0, altitude, iso. repeat split; try reflexivity. exact E.
Qed.

Lemma constructed_length (l : list CelestialService.star_data) :
  (List.length (constructed fromisoformat l) <= List.length l)%nat.
Proof.
  induction l as [| d l IH]; [apply Nat.le_refl |].
  cbn [constructed flat_map]. fold (constructed fromisoformat l).
  rewrite length_app.
  destruct (make_sight fromisoformat d); cbn [List.length]; lia.
Qed.

Lemma constructed_filter (l : list CelestialService.star_data) :
  constructed fromisoformat (filter (constructs_sight fromisoformat) l)
  = constructed fromisoformat l.
Proof.
  induction l as [| d l IH]; [reflexivity |].
  cbn [filter constructed flat_map]. fold (constructed fromisoformat l).
  unfold constructs_sight at 1.
  destruct (make_sight fromisoformat d) as [m |] eqn:E.
  - cbn [constructed flat_map]. rewrite E.
    fold (constructed fromisoformat
            (filter (constructs_sight fromisoformat) l)).
    rewrite IH. reflexivity.
  - exact IH.
Qed.

Lemma constructed_in (l : list CelestialService.star_data) (s : Sight)
    (u : CelestialService.used_sight) :
  In (s, u) (constructed fromisoformat l) <->
  exists d, In d l /\ make_sight fromisoformat d = Some (s, u).
Proof.
  unfold constructed. rewrite in_flat_map. split.
  - intros (d & Hin & Hm). exists d. split; [exact Hin |].
    destruct (make_sight fromisoformat d) as [m |]; [| destruct Hm].
    destruct Hm as [<- | []]. reflexivity.
  - intros (d & Hin & Hm). exists d. split; [exact Hin |].
    rewrite Hm. left. reflexivity.
Qed.

(** Every entry of [used_sights] was appended for an entry of the
    input, whatever the outcome. *)
Lemma used_sights_constructed (l : list CelestialService.star_data)
    (u : CelestialService.used_sight) :
  In u (CelestialService.used_sights
          (CelestialService.calculate_position_from_data
             fromisoformat format_4f isoformat l)) ->
  exists d s, In d l /\ make_sight fromisoformat d = Some (s, u).
Proof.
  destruct (le_lt_dec 2 (List.length l)) as [Hl | Hl].
  - rewrite calculate_position_from_data_eq by exact Hl. cbv zeta.
    intros H.
    assert (Hu : In u (map snd (constructed fromisoformat l))).
    { destruct (List.length (constructed fromisoformat l) <? 2)%nat;
        [exact H |].
      destruct (get_intersections _ None); exact H. }
    apply in_map_iff in Hu. destruct Hu as ([s u'] & Eu & Hin).
    cbn [snd] in Eu. subst u'.
    apply constructed_in in Hin. destruct Hin as (d & Hd & Hm).
    exists d, s. split; assumption.
  - unfold CelestialService.calculate_position_from_data.
    destruct (List.length l <? 2)%nat eqn:L.
    + intros [].
    + apply Nat.ltb_ge in L. lia.
Qed.

(** The sight constructed for a complete entry under ordinary
    conditions, with both corrections applied. *)
Lemma make_sight_ok (d : CelestialService.star_data)
    (ra0 dec0 altitude : R) (iso : string) (t : datetime) (g : R) :
  let h := StarsDatabase.get_default (CelestialService.observer_height d) 0 in
  let T := StarsDatabase.get_default (CelestialService.temperature d) 10 in
  let P := StarsDatabase.get_default (CelestialService.pressure d) 101 in
  CelestialService.ra d = Some ra0 ->
  CelestialService.dec d = Some dec0 ->
  CelestialService.altitude d = Some altitude ->
  CelestialService.time d = Some iso ->
  fromisoformat iso = Some t ->
  calculate_gha ra0 t = Ok g ->
  -90 <= dec0 <= 90 -> 0 < altitude < 90 ->
  altitude + 7.31 / (altitude + 4.4) < 90 -> T + 273.15 <> 0 ->
  exists s,
    make_sight fromisoformat d =
    Some (s, CelestialService.mkUsedSight
               (StarsDatabase.get_default (CelestialService.name d)
                                          "Unknown"%string)
               ra0 dec0 altitude)
    /\ dec s = dec0 /\ gha s = g
    /\ corrected_altitude s =
       altitude
       - 1 / tan (radians (altitude + 7.31 / (altitude + 4.4)))
         * (P / 101) * (283 / (T + 273.15)) / 60
       - (if Rle_dec h 0 then 0 else 1.76 * sqrt h / 60).
Proof.
  intros h T P Hra Hdec Halt Htime Ht Hg [D1 D2] [A1 A2] HB HT.
  unfold make_sight. rewrite Hra, Hdec, Halt, Htime.
  fold h T P. unfold Sight_init.
  rewrite (Rleb_true _ _ D1), (Rleb_true _ _ D2).
  cbn [andb negb]. unfold parse_time. rewrite Ht. cbn [bind].
  rewrite (Rltb_true _ _ A1), (Rltb_true _ _ A2). cbn [andb negb].
  rewrite atmospheric_refraction_eq by assumption. cbn [bind andb].
  rewrite horizon_dip_eq, Hg.
  destruct (Rle_dec h 0) as [Hh | Hh].
  - rewrite Rltb_false by lra. cbn [bind].
    eexists. split; [reflexivity |]. cbn [dec gha corrected_altitude].
    repeat split. lra.
  - rewrite Rltb_true by lra. cbn [bind].
    eexists. split; [reflexivity |]. cbn [dec gha corrected_altitude].
    repeat split.
Qed.

(** The solver reads a sight through its declination, hour angle and
    corrected altitude only. *)
Lemma pair_intersection_fields (s1 s2 s1' s2' : Sight) :
  dec s1 = dec s1' -> gha s1 = gha s1' ->
  corrected_altitude s1 = corrected_altitude s1' ->
  dec s2 = dec s2' -> gha s2 = gha s2' ->
  corrected_altitude s2 = corrected_altitude s2' ->
  pair_intersection s1 s2 = pair_intersection s1' s2'.
Proof.
  intros D1 G1 C1 D2 G2 C2.
  unfold pair_intersection, get_gp, get_distance_from_gp.
  rewrite D1, G1, C1, D2, G2, C2. reflexivity.
Qed.

End ServiceFacts.

Section ServiceExamples.

Lemma make_sight_pole_data :
  exists s,
    make_sight fromisoformat_seconds pole_data =
    Some (s, CelestialService.mkUsedSight "Pole" 100.46061837 90 (1.76 / 60))
    /\ dec s = dec pole /\ gha s = gha pole
    /\ corrected_altitude s = corrected_altitude pole.
Proof.
  destruct (make_sight_ok fromisoformat_seconds pole_data
              100.46061837 90 (1.76 / 60) epoch_iso j2000
              (py_mod (100.46061837 - 100.46061837) 360))
    as (s & E & Hd & Hg & Hc);
    try reflexivity; try apply calculate_gha_epoch;
    cbn [pole_data CelestialService.temperature
      StarsDatabase.get_default]; try lra.
  exists s. split; [exact E |]. split; [exact Hd |].
  cbn [pole gha corrected_altitude]. split.
  - rewrite Hg.
    rewrite (py_mod_eq _ 360 0) by lra. lra.
  - rewrite Hc. cbn [pole_data CelestialService.observer_height
      CelestialService.temperature CelestialService.pressure
      StarsDatabase.get_default].
    destruct (Rle_dec 1 0); [lra |]. rewrite sqrt_1. lra.
Qed.

Lemma make_sight_meridian_data :
  exists s,
    make_sight fromisoformat_seconds meridian_data =
    Some (s, CelestialService.mkUsedSight "Unknown" 100.46061837 0 45)
    /\ dec s = dec meridian /\ gha s = gha meridian
    /\ corrected_altitude s = corrected_altitude meridian.
Proof.
  destruct (make_sight_ok fromisoformat_seconds meridian_data
              100.46061837 0 45 epoch_iso j2000
              (py_mod (100.46061837 - 100.46061837) 360))
    as (s & E & Hd & Hg & Hc);
    try reflexivity; try apply calculate_gha_epoch;
    cbn [meridian_data CelestialService.temperature
      StarsDatabase.get_default]; try lra.
  exists s. split; [exact E |]. split; [exact Hd |].
  cbn [meridian gha corrected_altitude]. split.
  - rewrite Hg.
    rewrite (py_mod_eq _ 360 0) by lra. lra.
  - rewrite Hc. cbn [meridian_data CelestialService.observer_height
      CelestialService.temperature CelestialService.pressure
      StarsDatabase.get_default].
    destruct (Rle_dec 0 0); lra.
Qed.

Lemma make_sight_incomplete_data :
  make_sight fromisoformat_seconds incomplete_data = None.
Proof. reflexivity. Qed.

End ServiceExamples.


(** X27. When [calculate_position_from_data] reports success, the
    position it reports is the fix, computed without an estimated
    position, of the sights constructed from the entries, in the order of
    the input; its latitude is in [-90, 90] and its longitude in
    [-180, 180]; [used_sights] lists exactly the entries a sight was
    constructed for, at least two and at most as many as the input, each
    with a declination in [-90, 90] and an altitude in (0, 90); the
    number of sights and of observation times reported is their
    number. *)
Theorem calculate_position_from_data_success
    (fromisoformat : string -> option datetime)
    (format_4f : R -> string) (isoformat : datetime -> string)
    (stars_data : list CelestialService.star_data) :
  let r := CelestialService.calculate_position_from_data
             fromisoformat format_4f isoformat stars_data in
  let made := constructed fromisoformat stars_data in
  CelestialService.success r = true ->
  exists p report,
    get_intersections (mkSightCollection (map fst made)) None = Ok p
    /\ CelestialService.calculated_position r = Some report
    /\ latitude report = get_lat p /\ longitude report = get_lon p
    /\ -90 <= latitude report <= 90 /\ -180 <= longitude report <= 180
    /\ CelestialService.used_sights r = map snd made
    /\ number_of_sights report
       = List.length (CelestialService.used_sights r)
    /\ List.length (observation_times report)
       = List.length (CelestialService.used_sights r)
    /\ (2 <= List.length (CelestialService.used_sights r)
          <= List.length stars_data)%nat
    /\ Forall (fun u => -90 <= CelestialService.used_dec u <= 90
                        /\ 0 < CelestialService.used_altitude u < 90)
              (CelestialService.used_sights r)
    /\ CelestialService.message r
       = CelestialService.Text "Position calculated successfully".
Proof.
  intros r made. subst r.
  destruct (le_lt_dec 2 (List.length stars_data)) as [Hl | Hl].
  - rewrite calculate_position_from_data_eq by exact Hl. cbv zeta.
    fold made.
    destruct (List.length made <? 2)%nat eqn:M; [discriminate |].
    apply Nat.ltb_ge in M.
    destruct (get_intersections (mkSightCollection (map fst made)) None)
      as [p | e] eqn:G; [| discriminate].
    intros _. exists p. eexists. split; [reflexivity |].
    split; [reflexivity |].
    cbn [latitude longitude number_of_sights observation_times
         CelestialService.used_sights CelestialService.message].
    split; [reflexivity |]. split; [reflexivity |].
    assert (B : -90 <= get_lat p <= 90 /\ -180 < get_lon p <= 180).
    { revert G. unfold get_intersections.
      destruct (List.length _ =? 2)%nat.
      - apply two_sight_fix_bounds.
      - apply multi_sight_fix_bounds. }
    split; [apply B |]. split; [lra |].
    split; [reflexivity |].
    rewrite !length_map.
    split; [reflexivity |]. split; [reflexivity |].
    split; [split; [exact M | apply constructed_length] |].
    split; [| reflexivity].
    apply Forall_forall. intros u Hu.
    apply in_map_iff in Hu. destruct Hu as ([s u'] & Eu & Hin).
    cbn [snd] in Eu. subst u'.
    apply constructed_in in Hin. destruct Hin as (d & _ & Hm).
    destruct (make_sight_inv _ _ _ _ Hm)
      as (ra0 & dec0 & alt & iso & _ & _ & _ & _ & Hs & ->).
    destruct (Sight_init_inv _ _ _ _ _ _ _ _ _ _ _ Hs) as (D & A & _).
    cbn [CelestialService.used_dec CelestialService.used_altitude].
    split; assumption.
  - unfold CelestialService.calculate_position_from_data.
    destruct (List.length stars_data <? 2)%nat eqn:L.
    + discriminate.
    + apply Nat.ltb_ge in L. lia.
Qed.

Lemma calculate_position_from_data_success_witness :
  CelestialService.success
    (CelestialService.calculate_position_from_data fromisoformat_seconds
       (fun _ => EmptyString) (fun _ => EmptyString)
       [pole_data; meridian_data]) = true
  /\ exists report,
       CelestialService.calculated_position
         (CelestialService.calculate_position_from_data
            fromisoformat_seconds (fun _ => EmptyString)
            (fun _ => EmptyString) [pole_data; meridian_data])
       = Some report
       /\ latitude report = 0 /\ longitude report = 90.
Proof.
  destruct make_sight_pole_data as (s1 & E1 & D1 & G1 & C1).
  destruct make_sight_meridian_data as (s2 & E2 & D2 & G2 & C2).
  assert (M : constructed fromisoformat_seconds [pole_data; meridian_data]
              = [(s1, CelestialService.mkUsedSight "Pole" 100.46061837 90
                        (1.76 / 60));
                 (s2, CelestialService.mkUsedSight "Unknown" 100.46061837
                        0 45)]).
  { unfold constructed. cbn [flat_map]. rewrite E1, E2. reflexivity. }
  assert (G : get_intersections (mkSightCollection [s1; s2]) None
              = Ok (mkLatLon 0 90)).
  { rewrite (get_intersections_two _ s1 s2) by reflexivity.
    rewrite (calculate_two_sight_fix_eq _ s1 s2) by reflexivity.
    rewrite (pair_intersection_fields s1 s2 pole meridian) by assumption.
    unfold pair_intersection. rewrite pair_pole_meridian. reflexivity. }
  assert (S : CelestialService.success
                (CelestialService.calculate_position_from_data
                   fromisoformat_seconds (fun _ => EmptyString)
                   (fun _ => EmptyString) [pole_data; meridian_data])
              = true).
  { rewrite calculate_position_from_data_eq by (cbn; lia).
    cbv zeta. rewrite M. cbn [List.length Nat.ltb Nat.leb map fst].
    rewrite G. reflexivity. }
  split; [exact S |].
  destruct (calculate_position_from_data_success fromisoformat_seconds
              (fun _ => EmptyString) (fun _ => EmptyString)
              [pole_data; meridian_data] S)
    as (p & report & Gp & Hr & Hlat & Hlon & _).
  exists report. split; [exact Hr |].
  rewrite M in Gp. cbn [map fst] in Gp. rewrite G in Gp.
  injection Gp as <-. split; assumption.
Defined.

(** X28. Entries without one of the four required keys, and entries the
    sight constructor rejects, are ignored: as long as two entries
    construct a sight, the result is the one obtained from those entries
    alone. *)
Theorem unusable_entries_ignored
    (fromisoformat : string -> option datetime)
    (format_4f : R -> string) (isoformat : datetime -> string)
    (stars_data : list CelestialService.star_data) :
  (2 <= List.length (filter (constructs_sight fromisoformat) stars_data))%nat
  ->
  CelestialService.calculate_position_from_data
    fromisoformat format_4f isoformat stars_data
  = CelestialService.calculate_position_from_data
      fromisoformat format_4f isoformat
      (filter (constructs_sight fromisoformat) stars_data).
Proof.
  intros H.
  assert (Hl : (2 <= List.length stars_data)%nat).
  { pose proof (filter_length_le (constructs_sight fromisoformat)
                                 stars_data). lia. }
  rewrite (calculate_position_from_data_eq _ _ _ stars_data) by exact Hl.
  rewrite (calculate_position_from_data_eq _ _ _ (filter _ stars_data))
    by exact H.
  rewrite constructed_filter. reflexivity.
Qed.

Lemma unusable_entries_ignored_witness :
  filter (constructs_sight fromisoformat_seconds)
         [pole_data; incomplete_data; meridian_data]
  = [pole_data; meridian_data]
  /\ CelestialService.calculate_position_from_data fromisoformat_seconds
       (fun _ => EmptyString) (fun _ => EmptyString)
       [pole_data; incomplete_data; meridian_data]
     = CelestialService.calculate_position_from_data fromisoformat_seconds
         (fun _ => EmptyString) (fun _ => EmptyString)
         [pole_data; meridian_data].
Proof.
  destruct make_sight_pole_data as (s1 & E1 & _).
  destruct make_sight_meridian_data as (s2 & E2 & _).
  assert (F : filter (constructs_sight fromisoformat_seconds)
                     [pole_data; incomplete_data; meridian_data]
              = [pole_data; meridian_data]).
  { cbn [filter]. unfold constructs_sight.
    rewrite E1, E2, make_sight_incomplete_data. reflexivity. }
  split; [exact F |].
  rewrite <- F.
  apply unusable_entries_ignored. rewrite F. cbn. lia.
Defined.



Section StarNames.

Variable fromisoformat : string -> option datetime.
Variable format_4f : R -> string.
Variable isoformat : datetime -> string.
Variable upper : string -> string.

(** What the entries built from observations are. *)
Lemma add_star_data_entries (observation_time : string)
    (observations : list CelestialService.observation)
    (acc : list CelestialService.star_data)
    (P : CelestialService.star_data -> Prop) :
  Forall P acc ->
  (forall o n alt r d,
      In o observations ->
      CelestialService.obs_name o = Some n ->
      CelestialService.obs_altitude o = Some alt ->
      StarsDatabase.get_star_coordinates upper n = Some (r, d) ->
      P (CelestialService.mkStarData (Some n) (Some r) (Some d) (Some alt)
           (Some observation_time)
           (Some (StarsDatabase.get_default
                    (CelestialService.obs_observer_height o) 0))
           (Some (StarsDatabase.get_default
                    (CelestialService.obs_temperature o) 10))
           (Some (StarsDatabase.get_default
                    (CelestialService.obs_pressure o) 101)))) ->
  Forall P (fold_left (CelestialService.add_star_data upper observation_time)
                      observations acc)
  /\ (List.length (fold_left
                     (CelestialService.add_star_data upper observation_time)
                     observations acc)
      <= List.length acc + List.length observations)%nat.
Proof.
  revert acc. induction observations as [| o l IH]; intros acc Hacc HP.
  - cbn. split; [exact Hacc | lia].
  - cbn [fold_left].
    assert (Hstep : Forall P (CelestialService.add_star_data upper
                                observation_time acc o)
                    /\ (List.length (CelestialService.add_star_data upper
                                       observation_time acc o)
                        <= List.length acc + 1)%nat).
    { unfold CelestialService.add_star_data.
      destruct (CelestialService.obs_name o) as [n |] eqn:En;
        [| split; [exact Hacc | lia]].
      destruct (CelestialService.obs_altitude o) as [alt |] eqn:Ea;
        [| split; [exact Hacc | lia]].
      destruct (String.eqb n ""); [split; [exact Hacc | lia] |].
      destruct (StarsDatabase.get_star_coordinates upper n)
        as [[r d] |] eqn:Ec; [| split; [exact Hacc | lia]].
      split.
      - apply Forall_app. split; [exact Hacc |].
        constructor; [| constructor].
        apply (HP o n alt r d); [left; reflexivity | assumption ..].
      - rewrite length_app. cbn [List.length]. lia. }
    destruct Hstep as [HF HL].
    destruct (IH _ HF) as [IF IL].
    + intros o' n alt r d Hin. apply HP. right. exact Hin.
    + split; [exact IF |]. cbn [List.length]. lia.
Qed.

End StarNames.

(** X30. Whatever the outcome of [calculate_position_from_star_names],
    every sight it lists as used belongs to an observation of the input
    that has this name and this altitude, the altitude being in (0, 90);
    its coordinates are those the catalogue gives for the name, hence
    those of a star of the table whose key equals the name up to
    upper-casing, never a planet; and no more sights are used than
    observations were given. *)
Theorem star_names_use_catalogue
    (fromisoformat : string -> option datetime)
    (format_4f : R -> string) (isoformat : datetime -> string)
    (upper : string -> string) (now_iso : string)
    (observations : list CelestialService.observation)
    (observation_time : option string)
    (estimated_position : option LatLon) :
  let r := CelestialService.calculate_position_from_star_names
             fromisoformat format_4f isoformat upper now_iso
             observations observation_time estimated_position in
  Forall (fun u =>
            (exists o,
                In o observations
                /\ CelestialService.obs_name o
                   = Some (CelestialService.star u)
                /\ CelestialService.obs_altitude o
                   = Some (CelestialService.used_altitude u))
            /\ 0 < CelestialService.used_altitude u < 90
            /\ StarsDatabase.get_star_coordinates
                 upper (CelestialService.star u)
               = Some (CelestialService.used_ra u,
                       CelestialService.used_dec u)
            /\ exists k b,
                 In (k, b) StarsDatabase.STARS_DB
                 /\ upper k = upper (CelestialService.star u)
                 /\ StarsDatabase.ra b = Some (CelestialService.used_ra u)
                 /\ StarsDatabase.dec b
                    = Some (CelestialService.used_dec u))
         (CelestialService.used_sights r)
  /\ (List.length (CelestialService.used_sights r)
      <= List.length observations)%nat.
Proof.
  intros r. subst r.
  unfold CelestialService.calculate_position_from_star_names.
  destruct (List.length observations <? 2)%nat.
  { cbn. split; [constructor | lia]. }
  cbv zeta.
  set (t := match observation_time with
            | Some t => t
            | None => now_iso
            end).
  set (P := fun d : CelestialService.star_data =>
              exists o n alt ra0 dec0,
                In o observations
                /\ CelestialService.obs_name o = Some n
                /\ CelestialService.obs_altitude o = Some alt
                /\ StarsDatabase.get_star_coordinates upper n
                   = Some (ra0, dec0)
                /\ CelestialService.name d = Some n
                /\ CelestialService.ra d = Some ra0
                /\ CelestialService.dec d = Some dec0
                /\ CelestialService.altitude d = Some alt).
  destruct (add_star_data_entries upper t observations [] P) as [HF HL].
  { constructor. }
  { intros o n alt ra0 dec0 Hin Hn Ha Hc.
    exists o, n, alt, ra0, dec0. repeat split; assumption. }
  match type of HF with Forall _ ?l => set (stars_data := l) in * end.
  split.
  - apply Forall_forall. intros u Hu.
    apply used_sights_constructed in Hu.
    destruct Hu as (d & s & Hd & Hm).
    rewrite Forall_forall in HF.
    destruct (HF d Hd)
      as (o & n & alt & ra0 & dec0 & Hin & Hn & Ha & Hc & Dn & Dr & Dd & Da).
    destruct (make_sight_inv _ _ _ _ Hm)
      as (ra1 & dec1 & alt1 & iso & Er & Ed & Ea & _ & Hs & ->).
    rewrite Dr in Er. rewrite Dd in Ed. rewrite Da in Ea.
    injection Er as <-. injection Ed as <-. injection Ea as <-.
    rewrite Dn.
    cbn [StarsDatabase.get_default CelestialService.star
         CelestialService.used_ra CelestialService.used_dec
         CelestialService.used_altitude].
    split; [exists o; repeat split; assumption |].
    destruct (Sight_init_inv _ _ _ _ _ _ _ _ _ _ _ Hs) as (_ & A & _).
    split; [exact A |]. split; [exact Hc |].
    destruct (get_star_coordinates_some upper _ _ _ Hc)
      as (k & b & _ & Hk & Hu & Hr & Hdd & _).
    exists k, b. repeat split; assumption.
  - destruct (le_lt_dec 2 (List.length stars_data)) as [Hl | Hl].
    + rewrite calculate_position_from_data_eq by exact Hl. cbv zeta.
      pose proof (constructed_length fromisoformat stars_data) as CL.
      cbn [List.length] in HL.
      destruct (List.length (constructed fromisoformat stars_data) <? 2)%nat;
        [| destruct (get_intersections _ None)];
        cbn [CelestialService.used_sights]; rewrite length_map; lia.
    + unfold CelestialService.calculate_position_from_data.
      destruct (List.length stars_data <? 2)%nat eqn:L.
      * cbn. lia.
      * apply Nat.ltb_ge in L. lia.
Qed.
